(** * The library store of nvc (src/lib.c)

    A shallow embedding of [lib.c] and its verification.

    The state of the process is a record: the two static variables [work]
    and [loaded], the heap blocks that [xmalloc] hands out (the nodes of the
    registry list and the [struct lib] blocks, each in a finite map from
    addresses), the file system (a finite map from resolved absolute names
    to files and directories) and a trace of the calls made on it.  Every
    function of the source is a computation in a state-and-abort monad over
    that record, written in the order of the C statements; loops over the
    linked list carry fuel and are shown to return on well-formed states.

    The first part holds the definitions, the second part the properties:
    the registry ([lib_init], [lib_find], [lib_free]), the path resolver
    ([lib_find_at], [push_path], the candidate list of [lib_find]),
    creation ([lib_new]), the unit cache ([lib_put], [lib_get], [lib_save])
    and destruction ([lib_destroy]).  A last part holds further properties
    of the same functions: canonical names, lookups of open libraries,
    loading from the directory ([lib_get_ctx], [lib_load_all]), the
    capacity of the cache, traversal ([lib_foreach]) and the round trips
    between opening, saving, releasing and destroying. *)

From Stdlib Require Import Ascii String.
From stdpp Require Import base option list gmap strings fin_maps.

Local Open Scope string_scope.
Local Open Scope list_scope.
Local Open Scope nat_scope.

(** ** Characters and C strings *)

(** [toupper] and [tolower] of <ctype.h> in the C locale: only the 26 ASCII
    letters are changed. *)
Definition toupper (c : ascii) : ascii :=
  let n := nat_of_ascii c in
  if ((97 <=? n) && (n <=? 122))%nat then ascii_of_nat (n - 32) else c.

Definition tolower (c : ascii) : ascii :=
  let n := nat_of_ascii c in
  if ((65 <=? n) && (n <=? 90))%nat then ascii_of_nat (n + 32) else c.

(** The in-place loops of the source that replace every character of a
    NUL-terminated buffer by its image under [f]. *)
Fixpoint string_map (f : ascii → ascii) (s : string) : string :=
  match s with
  | EmptyString => EmptyString
  | String c r => String (f c) (string_map f r)
  end.

(** ** Constants of the source *)

Definition MAX_UNITS : nat := 16.
Definition MAX_SEARCH_PATHS : nat := 64.

(** ** Data model *)

(** Modelled from the spec: the identifier table ([ident_new], [istr]) is an
    external collaborator that is not part of lib.c.  Section 3 of the
    specification makes an identifier a canonical handle whose equality is
    equality of the interned name and which renders back to that name, so an
    identifier is the interned string itself. *)
Definition ident_t : Type := string.
Definition ident_new (s : string) : ident_t := s.
Definition istr (i : ident_t) : string := i.

(** A [tree_t] is an opaque non-null pointer to a unit owned by tree.c. *)
Definition tree_t : Type := nat.

(** Addresses of heap blocks; [lib_t] is [struct lib *]. *)
Abbreviation ptr := nat (only parsing).
Abbreviation lib_t := nat (only parsing).

(** [struct lib_unit] *)
Record lib_unit : Type := LibUnit { top : tree_t; dirty : bool }.

(** [struct lib].  The array [units[0 .. n_units)] is the list of its filled
    slots: the slots past [n_units] of the xmalloc'ed block are never read by
    the code.  [units == NULL] is the empty list. *)
Record lib : Type := Lib {
  path : string;
  name : ident_t;
  units : list lib_unit
}.

Definition n_units (l : lib) : nat := length (units l).

(** [struct lib_list]: [next = None] is the NULL pointer. *)
Record lib_list : Type := LibList { item : lib_t; next : option ptr }.

(** ** The file system and the calls made on it

    The file system is a finite map from the absolute, normalised path
    name of each entry to the entry; the root directory always exists and
    is not stored.  A path name given to a system call is resolved against
    the working directory of the process, component by component: empty
    components and "." are skipped and ".." goes up one level.  There are
    no symbolic links, so the name that resolution ends on is the name that
    realpath(3) reports.  Resolution goes by the name alone, as the system
    does when the directories that the name passes through exist; whether
    the name it ends on is there, whether the directory that is to hold a
    new entry is there, and of which kind they are, is looked up. *)

Inductive fnode : Type :=
| File (content : string)
| Dir.

(** Every libc call of lib.c that goes to the file system, and every line
    written to stderr, is appended to the trace of the process. *)
Inductive event : Type :=
| SysAccess (p : string)
| SysMkdir (p : string)
| SysRealpath (p : string)
| SysOpendir (p : string)
| SysClosedir (p : string)
| SysUnlink (p : string)
| SysRmdir (p : string)
| SysFopen (p mode : string)
| SysFwrite (p data : string)
| SysFclose (p : string)
| Stderr (msg : string).

(** ** Process state *)

Record state : Type := State {
  work : option lib_t;            (* static lib_t work = NULL; *)
  loaded : option ptr;            (* static struct lib_list *loaded = NULL; *)
  nodes : gmap ptr lib_list;      (* the allocated struct lib_list blocks *)
  libs : gmap lib_t lib;          (* the allocated struct lib blocks *)
  fs : gmap string fnode;         (* the file system, keyed by resolved name *)
  libpath_env : option string;    (* getenv("NVC_LIBPATH") *)
  io : list event                 (* trace, oldest call first *)
}.

Definition init_state : state :=
  State None None ∅ ∅ ∅ None [].

Definition set_work (w : option lib_t) (st : state) : state :=
  State w (loaded st) (nodes st) (libs st) (fs st) (libpath_env st) (io st).
Definition set_loaded (p : option ptr) (st : state) : state :=
  State (work st) p (nodes st) (libs st) (fs st) (libpath_env st) (io st).
Definition set_nodes (m : gmap ptr lib_list) (st : state) : state :=
  State (work st) (loaded st) m (libs st) (fs st) (libpath_env st) (io st).
Definition set_libs (m : gmap lib_t lib) (st : state) : state :=
  State (work st) (loaded st) (nodes st) m (fs st) (libpath_env st) (io st).
Definition set_fs (m : gmap string fnode) (st : state) : state :=
  State (work st) (loaded st) (nodes st) (libs st) m (libpath_env st) (io st).
Definition log (e : event) (st : state) : state :=
  State (work st) (loaded st) (nodes st) (libs st) (fs st) (libpath_env st)
        (io st ++ [e]).

Definition logs (es : list event) (st : state) : state :=
  State (work st) (loaded st) (nodes st) (libs st) (fs st) (libpath_env st)
        (io st ++ es).

(** ** The monad of the embedding

    A computation takes the process state and either returns a value and the
    new state, or aborts ([None]): a failed [assert], a call of [fatal], or
    undefined behaviour such as dereferencing a freed block. *)
Definition M (A : Type) : Type := state → option (A * state).

Definition ret {A} (a : A) : M A := λ st, Some (a, st).
Definition bind {A B} (m : M A) (k : A → M B) : M B :=
  λ st, match m st with
        | Some (a, st') => k a st'
        | None => None
        end.
Definition abort {A} : M A := λ _, None.
Definition gets {A} (f : state → A) : M A := λ st, Some (f st, st).
Definition modify (f : state → state) : M unit := λ st, Some (tt, f st).
Definition assert (b : bool) : M unit := if b then ret tt else abort.

Notation "x <- m ;; k" := (bind m (λ x, k))
  (at level 100, m at next level, right associativity).
Notation "m ;;; k" := (bind m (λ _, k))
  (at level 100, right associativity).


(** ** What lib.c takes from its environment

    Constants of the build ([PATH_MAX] of <limits.h>, [PACKAGE_STRING] and
    [DATADIR] of the configuration), the working directory of the process,
    the tree module (tree.h), and the answers of the system that the model
    cannot compute by itself: whether making a directory or opening a file
    for writing is refused (permissions, quotas and limits are not part of
    the file system below), and what [xmalloc] leaves in a block that the
    source does not initialise. *)
Class Externals : Type := {
  PATH_MAX : nat;
  PACKAGE_STRING : string;
  DATADIR : string;
  (* tree.h: the identifier of a unit, the bytes tree_write emits for it,
     and the unit tree_read builds from the bytes of a file *)
  tree_ident : tree_t → ident_t;
  tree_write : tree_t → string;
  tree_read : string → tree_t;
  (* getcwd(3): absolute; lib.c never changes it *)
  CWD : string;
  (* mkdir(2) refused for a reason other than an existing target or a
     missing parent directory *)
  mkdir_denied : string → bool;
  (* fopen(3) for writing refused for a reason other than a missing
     directory or a directory in the way *)
  fopen_denied : string → bool;
  (* the bytes found in the [path] field of a block fresh from [xmalloc],
     as a C string; unspecified, so it may depend on all that has happened *)
  uninit_path : state → string
}.

Definition newline : string := String (ascii_of_nat 10) EmptyString.

(** The first [n] characters of [s]. *)
Fixpoint truncate (n : nat) (s : string) : string :=
  match n, s with
  | S n', String c r => String c (truncate n' r)
  | _, _ => EmptyString
  end.

Fixpoint strip_prefix (p s : string) : option string :=
  match p, s with
  | EmptyString, _ => Some s
  | String a p', String b s' =>
      if Ascii.eqb a b then strip_prefix p' s' else None
  | String _ _, EmptyString => None
  end.

Fixpoint has_slash (s : string) : bool :=
  match s with
  | EmptyString => false
  | String c r => Ascii.eqb c "/"%char || has_slash r
  end.

(** The components of a path name: the text between its slashes. *)
Fixpoint split_slash (s : string) : list string :=
  match s with
  | EmptyString => [EmptyString]
  | String c r =>
      if Ascii.eqb c "/"%char then EmptyString :: split_slash r
      else match split_slash r with
           | t :: ts => String c t :: ts
           | [] => [String c EmptyString]
           end
  end.

(** One step of path resolution.  The directory reached so far is the list
    of its components, innermost first; the root is the empty list, and
    ".." at the root stays there. *)
Definition walk_step (stack : list string) (c : string) : list string :=
  if String.eqb c "" || String.eqb c "." then stack
  else if String.eqb c ".." then tail stack
  else c :: stack.

(** The resolved name of a list of components; the root is the empty
    string here, and "/" where the name is handed to the program. *)
Fixpoint path_of (stack : list string) : string :=
  match stack with
  | [] => EmptyString
  | c :: up => path_of up +:+ "/" +:+ c
  end.

(** The entry stored under a resolved name. *)
Definition node (m : gmap string fnode) (k : string) : option fnode :=
  if String.eqb k "" then Some Dir else m !! k.

Definition is_dir (o : option fnode) : bool :=
  match o with
  | Some Dir => true
  | _ => false
  end.

Definition starts_with (c : ascii) (s : string) : bool :=
  match s with
  | String a _ => Ascii.eqb a c
  | EmptyString => false
  end.

(** A component that names an entry: not empty, not "." or "..", and
    without a slash. *)
Definition plain_name (c : string) : bool :=
  negb (String.eqb c "") && negb (String.eqb c ".")
  && negb (String.eqb c "..") && negb (has_slash c).

(** The name under which the entry stored as [k] appears directly inside
    the directory stored as [d], if it does. *)
Definition child_name (d k : string) : option string :=
  match strip_prefix (d +:+ "/") k with
  | Some n => if String.eqb n "" || has_slash n then None else Some n
  | None => None
  end.

Definition dir_children (m : gmap string fnode) (d : string) : list string :=
  omap (child_name d) (fst <$> map_to_list m).

(** An open stream: the path it was opened on and, for reading, the bytes of
    the file. *)
Record FILE : Type := Stream { fpath : string; fdata : string }.

Section Lib.
Context `{Externals}.

(** [snprintf(buf, sizeof(buf), "%s/%s", a, b)] with [char buf[PATH_MAX]]. *)
Definition snprintf_path (a b : string) : string :=
  truncate (PATH_MAX - 1) (a +:+ "/" +:+ b).

(** *** Path resolution *)

(** The components that a path name resolves to: an absolute name is
    walked from the root, any other from the working directory. *)
Definition resolve (p : string) : list string :=
  foldl walk_step
        (if starts_with "/" p then []
         else foldl walk_step [] (split_slash CWD))
        (split_slash p).

(** The name under which the file system stores what [p] resolves to, and
    the name of the directory that holds it. *)
Definition key (p : string) : string := path_of (resolve p).
Definition parent_key (p : string) : string := path_of (tail (resolve p)).

(** The resolved name as realpath(3) writes it. *)
Definition resolved (p : string) : string :=
  if String.eqb (key p) "" then "/" else key p.

(** The entry that a path name leads to.  The empty path name leads to
    nothing (ENOENT). *)
Definition node_at (m : gmap string fnode) (p : string) : option fnode :=
  if String.eqb p "" then None else node m (key p).

(** Whether a new entry can be made under the name [p]: the name is not the
    root and the directory that is to hold it exists. *)
Definition can_create (m : gmap string fnode) (p : string) : bool :=
  negb (String.eqb p "") && negb (String.eqb (key p) "")
  && is_dir (node m (parent_key p)).

(** *** System calls *)

(** [access(p, F_OK) == 0] *)
Definition access (p : string) : M bool :=
  modify (log (SysAccess p)) ;;;
  gets (λ st, bool_decide (is_Some (node_at (fs st) p))).

(** [mkdir(p, 0777) == 0] *)
Definition mkdir (p : string) : M bool :=
  modify (log (SysMkdir p)) ;;;
  st <- gets id ;;
  if bool_decide (is_Some (node_at (fs st) p))
     || negb (can_create (fs st) p) || mkdir_denied p
  then ret false
  else modify (set_fs (<[key p := Dir]> (fs st))) ;;; ret true.

(** [realpath(rpath, buf)] with [buf] a buffer of [PATH_MAX] bytes that
    holds [old]: the contents of the buffer afterwards.  The source ignores
    the return value.  The call fails on the empty path name, on a name
    that leads to nothing and on a resolved name that does not fit in
    [PATH_MAX] bytes, and after a failure the buffer holds what it held
    before. *)
Definition realpath (rpath old : string) : M string :=
  modify (log (SysRealpath rpath)) ;;;
  st <- gets id ;;
  ret (if bool_decide (is_Some (node_at (fs st) rpath))
          && (String.length (resolved rpath) <? PATH_MAX)%nat
       then resolved rpath else old).

(** [opendir(p)] followed by all the [readdir] calls on it: the names in the
    directory, or [None] when [opendir] returns NULL. *)
Definition opendir (p : string) : M (option (list string)) :=
  modify (log (SysOpendir p)) ;;;
  st <- gets id ;;
  match node_at (fs st) p with
  | Some Dir => ret (Some ("." :: ".." :: dir_children (fs st) (key p)))
  | _ => ret None
  end.

Definition closedir (p : string) : M unit :=
  modify (log (SysClosedir p)).

(** [unlink(p) == 0] *)
Definition unlink (p : string) : M bool :=
  modify (log (SysUnlink p)) ;;;
  st <- gets id ;;
  match node_at (fs st) p with
  | Some (File _) => modify (set_fs (delete (key p) (fs st))) ;;; ret true
  | _ => ret false
  end.

(** [rmdir(p) == 0]: the directory must be empty, and it is not the root. *)
Definition rmdir (p : string) : M bool :=
  modify (log (SysRmdir p)) ;;;
  st <- gets id ;;
  match node_at (fs st) p, dir_children (fs st) (key p) with
  | Some Dir, [] =>
      if String.eqb (key p) "" then ret false
      else modify (set_fs (delete (key p) (fs st))) ;;; ret true
  | _, _ => ret false
  end.

(** Whether a file can be opened for writing under the name [p]: the
    directory that is to hold it exists, the name does not lead to a
    directory, and the system does not refuse. *)
Definition can_write (m : gmap string fnode) (p : string) : bool :=
  can_create m p && negb (is_dir (node_at m p)) && negb (fopen_denied p).

(** [fopen(p, mode)] for the two modes the source uses.  "w" creates or
    truncates the file, and returns NULL when that cannot be done; "r"
    needs an existing regular file. *)
Definition fopen (p mode : string) : M (option FILE) :=
  modify (log (SysFopen p mode)) ;;;
  st <- gets id ;;
  if String.eqb mode "w"
  then
    if can_write (fs st) p
    then modify (set_fs (<[key p := File ""]> (fs st))) ;;;
         ret (Some (Stream p ""))
    else ret None
  else match node_at (fs st) p with
       | Some (File c) => ret (Some (Stream p c))
       | _ => ret None
       end.

(** Output on a stream opened for writing; writing through a NULL stream is
    undefined behaviour. *)
Definition fwrite (f : option FILE) (data : string) : M unit :=
  match f with
  | None => abort
  | Some s =>
      modify (log (SysFwrite (fpath s) data)) ;;;
      st <- gets id ;;
      match fs st !! key (fpath s) with
      | Some (File c) =>
          modify (set_fs (<[key (fpath s) := File (c +:+ data)]> (fs st)))
      | _ => modify (set_fs (<[key (fpath s) := File data]> (fs st)))
      end
  end.

Definition fclose (f : option FILE) : M unit :=
  match f with
  | None => abort
  | Some s => modify (log (SysFclose (fpath s)))
  end.

(** [errorf], [perror] and [fprintf(stderr, ...)] *)
Definition eprint (msg : string) : M unit := modify (log (Stderr msg)).

(** *** Heap accesses *)

(** [xmalloc]: an address that is not allocated. *)
Definition xmalloc_lib : M lib_t := gets (λ st, fresh (dom (libs st))).
Definition xmalloc_node : M ptr := gets (λ st, fresh (dom (nodes st))).

(** Reading through a pointer to a block that is not allocated aborts. *)
Definition deref_lib (h : lib_t) : M lib :=
  λ st, match libs st !! h with Some l => Some (l, st) | None => None end.
Definition deref_node (p : ptr) : M lib_list :=
  λ st, match nodes st !! p with Some n => Some (n, st) | None => None end.
Definition store_lib (h : lib_t) (l : lib) : M unit :=
  modify (λ st, set_libs (<[h := l]> (libs st)) st).
Definition store_node (p : ptr) (n : lib_list) : M unit :=
  modify (λ st, set_nodes (<[p := n]> (nodes st)) st).

(** *** lib.c *)

Definition upcase_name (nm : string) : ident_t :=
  ident_new (string_map toupper nm).

(** The source never writes to [l->path] itself: the field holds what
    [realpath] has put there, and what [xmalloc] left there when
    [realpath] fails. *)
Definition lib_init (nm rpath : string) : M lib_t :=
  l <- xmalloc_lib ;;
  junk <- gets uninit_path ;;
  p <- realpath rpath junk ;;
  store_lib l (Lib p (upcase_name nm) []) ;;;
  el <- xmalloc_node ;;
  hd <- gets loaded ;;
  store_node el (LibList l hd) ;;;
  modify (set_loaded (Some el)) ;;;
  ret l.

Definition lib_put_aux (h : lib_t) (u : tree_t) (d : bool) : M unit :=
  l <- deref_lib h ;;
  assert (n_units l <? MAX_UNITS)%nat ;;;
  store_lib h (Lib (path l) (name l) (units l ++ [LibUnit u d])).

Definition lib_fopen (h : lib_t) (nm mode : string) : M (option FILE) :=
  l <- deref_lib h ;;
  fopen (snprintf_path (path l) nm) mode.

Definition lib_find_at (nm pth : string) : M (option lib_t) :=
  let dir := string_map tolower (snprintf_path pth nm) in
  a <- access dir ;;
  if negb a then ret None
  else
    let marker := snprintf_path dir "_NVC_LIB" in
    b <- access marker ;;
    if negb b then ret None
    else l <- lib_init nm dir ;; ret (Some l).

Definition lib_new (nm : string) : M (option lib_t) :=
  a <- access nm ;;
  if a then eprint ("file " +:+ nm +:+ " already exists") ;;; ret None
  else
    ok <- mkdir nm ;;
    if negb ok then eprint "mkdir" ;;; ret None
    else
      l <- lib_init nm nm ;;
      tag <- lib_fopen l "_NVC_LIB" "w" ;;
      fwrite tag (PACKAGE_STRING +:+ newline) ;;;
      fclose tag ;;;
      ret (Some l).

Definition lib_tmp : M lib_t := lib_init "work" "".

(** [push_path(base, &idx, path)].  The array [base[0 .. idx)] is the list
    [base] and [idx] its length; the call also stores the NULL terminator in
    [base[idx]], which is where every reader of the array stops.  [pth] is
    [None] for a NULL argument. *)
Definition push_path (base : list (option string)) (pth : option string)
  : list (option string) :=
  if (length base <? MAX_SEARCH_PATHS - 1)%nat then base ++ [pth] else base.

(** [strtok(s, ":")]: skip the delimiters in front, then cut the token at the
    next delimiter.  The result is the token (or [None] for NULL) and the
    text that the next call [strtok(NULL, ":")] continues from. *)
Fixpoint skip_delims (s : string) : string :=
  match s with
  | String c r => if Ascii.eqb c ":"%char then skip_delims r else s
  | EmptyString => EmptyString
  end.

Fixpoint scan_token (s : string) : string * string :=
  match s with
  | String c r =>
      if Ascii.eqb c ":"%char then (EmptyString, r)
      else let '(t, rest) := scan_token r in (String c t, rest)
  | EmptyString => (EmptyString, EmptyString)
  end.

Definition strtok (s : string) : option string * string :=
  match skip_delims s with
  | EmptyString => (None, EmptyString)
  | s' => let '(t, rest) := scan_token s' in (Some t, rest)
  end.

(** The loop [do { push_path(paths, &idx, path_tok); }
    while ((path_tok = strtok(NULL, ":")));] with [path_tok] the token in
    hand and [saved] the text strtok continues from.  [None]: out of fuel. *)
Fixpoint libpath_loop (fuel : nat) (base : list (option string))
    (path_tok : option string) (saved : string)
  : option (list (option string)) :=
  match fuel with
  | 0 => None
  | S fuel' =>
      let base' := push_path base path_tok in
      match strtok saved with
      | (Some t, rest) => libpath_loop fuel' base' (Some t) rest
      | (None, _) => Some base'
      end
  end.

(** The candidate array [paths] that [lib_find] fills before probing. *)
Definition search_paths (env : option string) (search : bool)
  : option (list (option string)) :=
  let paths := push_path [] (Some ".") in
  if search then
    paths' ← match env with
             | Some libpath_env =>
                 let '(path_tok, saved) := strtok libpath_env in
                 libpath_loop (S (String.length libpath_env)) paths path_tok saved
             | None => Some paths
             end;
    Some (push_path paths' (Some DATADIR))
  else Some paths.

Definition lib_name (h : lib_t) : M ident_t :=
  l <- deref_lib h ;; ret (name l).

(** The loop over [loaded] at the head of [lib_find]. *)
Fixpoint find_loaded (fuel : nat) (name_i : ident_t) (it : option ptr)
  : M (option lib_t) :=
  match it with
  | None => ret None
  | Some p =>
      match fuel with
      | 0 => abort
      | S fuel' =>
          nd <- deref_node p ;;
          n <- lib_name (item nd) ;;
          if decide (n = name_i) then ret (Some (item nd))
          else find_loaded fuel' name_i (next nd)
      end
  end.

(** [for (const char **p = paths; *p != NULL; p++)] probing each base. *)
Fixpoint probe_loop (nm : string) (paths : list (option string))
  : M (option lib_t) :=
  match paths with
  | Some p :: rest =>
      r <- lib_find_at nm p ;;
      match r with
      | Some l => ret (Some l)
      | None => probe_loop nm rest
      end
  | _ => ret None
  end.

Fixpoint report_loop (paths : list (option string)) : M unit :=
  match paths with
  | Some p :: rest => eprint ("  " +:+ p) ;;; report_loop rest
  | _ => ret tt
  end.

(** The fuel of the scan is the number of allocated nodes, which no
    NULL-terminated list exceeds. *)
Definition lib_find (nm : string) (verbose search : bool) : M (option lib_t) :=
  let name_i := upcase_name nm in
  hd <- gets loaded ;;
  fuel <- gets (λ st, size (nodes st)) ;;
  open <- find_loaded fuel name_i hd ;;
  match open with
  | Some h => ret (Some h)
  | None =>
      env <- gets libpath_env ;;
      match search_paths env search with
      | None => abort
      | Some paths =>
          r <- probe_loop nm paths ;;
          match r with
          | Some l => ret (Some l)
          | None =>
              (if verbose
               then eprint ("library " +:+ nm +:+ " not found in:") ;;;
                    report_loop paths
               else ret tt) ;;;
              ret None
          end
      end
  end.

(** The loop of [lib_free]: [it] is the cursor and [prev] the variable of
    that name, which the source initialises to NULL and never assigns; the
    step expression of the loop is [loaded = it, it = it->next]. *)
Fixpoint lib_free_loop (fuel : nat) (h : lib_t) (it prev : option ptr)
  : M unit :=
  match it with
  | None => ret tt
  | Some p =>
      match fuel with
      | 0 => abort
      | S fuel' =>
          nd <- deref_node p ;;
          if decide (item nd = h) then
            match prev with
            | Some q =>
                pn <- deref_node q ;;
                store_node q (LibList (item pn) (next nd))
            | None => modify (set_loaded (next nd))
            end ;;;
            modify (λ st, set_nodes (delete p (nodes st)) st)
          else
            modify (set_loaded (Some p)) ;;;
            lib_free_loop fuel' h (next nd) prev
      end
  end.

Definition lib_free (h : lib_t) : M unit :=
  hd <- gets loaded ;;
  fuel <- gets (λ st, size (nodes st)) ;;
  lib_free_loop fuel h hd None ;;;
  _ <- deref_lib h ;;
  modify (λ st, set_libs (delete h (libs st)) st).

Fixpoint destroy_loop (dir : string) (entries : list string) : M unit :=
  match entries with
  | [] => ret tt
  | e :: rest =>
      (if negb (starts_with "."%char e) then
         ok <- unlink (snprintf_path dir e) ;;
         if negb ok then eprint "unlink" else ret tt
       else ret tt) ;;;
      destroy_loop dir rest
  end.

Definition lib_destroy (h : lib_t) : M unit :=
  l <- deref_lib h ;;
  d <- opendir (path l) ;;
  match d with
  | None => eprint "opendir"
  | Some entries =>
      destroy_loop (path l) entries ;;;
      closedir (path l) ;;;
      ok <- rmdir (path l) ;;
      if negb ok then eprint "rmdir" else ret tt
  end.

Definition lib_work : M lib_t :=
  w <- gets work ;;
  match w with
  | Some h => ret h
  | None => abort
  end.

Definition lib_set_work (h : option lib_t) : M unit :=
  modify (set_work h).

Definition lib_put (h : lib_t) (u : tree_t) : M unit :=
  lib_put_aux h u true.

(** The loop over the cache at the head of [lib_get_ctx]: [n] is the index
    and [k] the number of iterations left before [n] reaches [n_units]. *)
Fixpoint scan_units (ident : ident_t) (us : list lib_unit) (n k : nat)
  : option tree_t :=
  match k with
  | 0 => None
  | S k' =>
      match us !! n with
      | Some e =>
          if decide (tree_ident (top e) = ident) then Some (top e)
          else scan_units ident us (S n) k'
      | None => None
      end
  end.

(** The [readdir] loop of [lib_get_ctx]; the second component is the read
    context left open for the caller. *)
Fixpoint get_dir_loop (h : lib_t) (search : string) (entries : list string)
  : M (option tree_t * option FILE) :=
  match entries with
  | [] => ret (None, None)
  | e :: rest =>
      if String.eqb e search then
        f <- lib_fopen h e "r" ;;
        match f with
        | None => abort
        | Some s =>
            let u := tree_read (fdata s) in
            lib_put_aux h u false ;;;
            ret (Some u, Some s)
        end
      else get_dir_loop h search rest
  end.

Definition lib_get_ctx (h : lib_t) (ident : ident_t)
  : M (option tree_t * option FILE) :=
  l <- deref_lib h ;;
  match scan_units ident (units l) 0 (n_units l) with
  | Some t => ret (Some t, None)
  | None =>
      if String.eqb (path l) "" then ret (None, None)
      else
        d <- opendir (path l) ;;
        match d with
        | None => abort
        | Some entries =>
            r <- get_dir_loop h (istr ident) entries ;;
            closedir (path l) ;;;
            ret r
        end
  end.

(** [tree_read_end] releases the read context and the stream under it. *)
Definition lib_get (h : lib_t) (ident : ident_t) : M (option tree_t) :=
  r <- lib_get_ctx h ident ;;
  match r.2 with
  | Some s => fclose (Some s)
  | None => ret tt
  end ;;;
  ret r.1.

Fixpoint load_all_loop (h : lib_t) (entries : list string) : M unit :=
  match entries with
  | [] => ret tt
  | e :: rest =>
      (if negb (starts_with "."%char e) && negb (starts_with "_"%char e)
       then _ <- lib_get h (ident_new e) ;; ret tt
       else ret tt) ;;;
      load_all_loop h rest
  end.

Definition lib_load_all (h : lib_t) : M unit :=
  l <- deref_lib h ;;
  if String.eqb (path l) "" then ret tt
  else
    d <- opendir (path l) ;;
    match d with
    | None => abort
    | Some entries => load_all_loop h entries ;;; closedir (path l)
    end.

(** The loop of [lib_save], with [n] and [k] as in [scan_units]. *)
Fixpoint lib_save_loop (h : lib_t) (n k : nat) : M unit :=
  match k with
  | 0 => ret tt
  | S k' =>
      l <- deref_lib h ;;
      match units l !! n with
      | None => abort
      | Some e =>
          (if dirty e then
             f <- lib_fopen h (istr (tree_ident (top e))) "w" ;;
             fwrite f (tree_write (top e)) ;;;
             fclose f ;;;
             store_lib h (Lib (path l) (name l)
                              (<[n := LibUnit (top e) false]> (units l)))
           else ret tt) ;;;
          lib_save_loop h (S n) k'
      end
  end.

Definition lib_save (h : lib_t) : M unit :=
  l <- deref_lib h ;;
  lib_save_loop h 0 (n_units l).

(** The loop of [lib_foreach].  The callback may change the library, so the
    bound [n_units] is read again before every call; a cache never holds
    more than [MAX_UNITS] entries, which bounds the number of rounds. *)
Fixpoint lib_foreach_loop (fuel : nat) (h : lib_t) (fn : tree_t → M unit)
    (i : nat) : M unit :=
  match fuel with
  | 0 => abort
  | S fuel' =>
      l <- deref_lib h ;;
      match units l !! i with
      | Some e => fn (top e) ;;; lib_foreach_loop fuel' h fn (S i)
      | None => ret tt
      end
  end.

Definition lib_foreach (h : lib_t) (fn : tree_t → M unit) : M unit :=
  lib_foreach_loop (S MAX_UNITS) h fn 0.

(** [lib_realpath]: the contents of [buf], of [buflen] bytes, afterwards;
    [nm] is [None] for a NULL name, where [strncpy] copies at most
    [buflen] bytes. *)
Definition lib_realpath (h : lib_t) (nm : option string) (buflen : nat)
  : M string :=
  l <- deref_lib h ;;
  match nm with
  | Some n => ret (truncate (buflen - 1) (path l +:+ "/" +:+ n))
  | None => ret (truncate buflen (path l))
  end.

(** ** Abstraction of the state: the registry as a list *)

(** The handles met when following [next] from [p], head first. *)
Fixpoint walk (fuel : nat) (m : gmap ptr lib_list) (p : option ptr)
  : list lib_t :=
  match p, fuel with
  | Some a, S fuel' =>
      match m !! a with
      | Some nd => item nd :: walk fuel' m (next nd)
      | None => []
      end
  | _, _ => []
  end.

Definition registry (st : state) : list lib_t :=
  walk (size (nodes st)) (nodes st) (loaded st).

(** [p] points to a NULL-terminated chain of distinct nodes of [m] whose
    items are [l]. *)
Fixpoint is_list (m : gmap ptr lib_list) (p : option ptr) (l : list lib_t)
  : Prop :=
  match l with
  | [] => p = None
  | x :: l' =>
      ∃ a q, p = Some a ∧ m !! a = Some (LibList x q)
             ∧ is_list (delete a m) q l'
  end.

(** Well-formed states: [loaded] is a proper list, no handle is registered
    twice and every registered handle is allocated. *)
Definition wf (st : state) : Prop :=
  is_list (nodes st) (loaded st) (registry st)
  ∧ NoDup (registry st)
  ∧ ∀ h, h ∈ registry st → is_Some (libs st !! h).

(** An executable test of [wf]. *)
Fixpoint is_listb (m : gmap ptr lib_list) (p : option ptr) (l : list lib_t)
  : bool :=
  match l, p with
  | [], None => true
  | x :: l', Some a =>
      match m !! a with
      | Some nd => bool_decide (item nd = x) && is_listb (delete a m) (next nd) l'
      | None => false
      end
  | _, _ => false
  end.

Definition wfb (st : state) : bool :=
  is_listb (nodes st) (loaded st) (registry st)
  && bool_decide (NoDup (registry st))
  && forallb (λ h, bool_decide (is_Some (libs st !! h))) (registry st).

(** The second state differs from the first in the file system and the
    trace only: the memory of the process is the same. *)
Definition same_memory (st st' : state) : Prop :=
  work st' = work st ∧ loaded st' = loaded st ∧ nodes st' = nodes st
  ∧ libs st' = libs st.

(** The second state differs from the first in the block of [h], the file
    system and the trace only. *)
Definition same_memory_but (h : lib_t) (st st' : state) : Prop :=
  work st' = work st ∧ loaded st' = loaded st ∧ nodes st' = nodes st
  ∧ libpath_env st' = libpath_env st
  ∧ ∀ h', h' ≠ h → libs st' !! h' = libs st !! h'.

(** The canonical names of the registered handles, head first. *)
Definition reg_names (st : state) : list ident_t :=
  omap (λ h, name <$> libs st !! h) (registry st).

(** No two registered handles have the same canonical name. *)
Definition registry_unique (st : state) : Prop := NoDup (reg_names st).

(** The cache of a handle, oldest entry first. *)
Definition cache (st : state) (h : lib_t) : list lib_unit :=
  default [] (units <$> libs st !! h).

(** The cache of [h], which was [us], has only grown by clean entries at its
    end, and nothing else has changed but the trace. *)
Definition grown_clean (h : lib_t) (us : list lib_unit) (st st' : state)
  : Prop :=
  ∃ extra,
    cache st' h = us ++ extra
    ∧ Forall (λ e, dirty e = false) extra
    ∧ same_memory_but h st st'
    ∧ fs st' = fs st.

(** The unit of the earliest entry of a cache that reports [ident]. *)
Fixpoint first_match (ident : ident_t) (us : list lib_unit) : option tree_t :=
  match us with
  | [] => None
  | e :: rest =>
      if decide (tree_ident (top e) = ident) then Some (top e)
      else first_match ident rest
  end.

(** The first handle of [l] whose canonical name is [name_i]. *)
Fixpoint find_open (st : state) (name_i : ident_t) (l : list lib_t)
  : option lib_t :=
  match l with
  | [] => None
  | h :: rest =>
      if decide (name <$> libs st !! h = Some name_i) then Some h
      else find_open st name_i rest
  end.

(** What [lib_free] leaves of the registry [l]: the part behind the first
    occurrence of [h], and only the last element when [h] does not occur. *)
Fixpoint registry_after_free (h : lib_t) (l : list lib_t) : list lib_t :=
  match l with
  | [] => []
  | x :: rest =>
      if decide (x = h) then rest
      else match rest with
           | [] => [x]
           | _ => registry_after_free h rest
           end
  end.

(** The contents of [l->path] when [lib_init] returns: the resolved name
    of [rpath] when [realpath] succeeds, and otherwise what [xmalloc] had
    left in the block. *)
Definition path_after_init (st : state) (rpath : string) : string :=
  if bool_decide (is_Some (node_at (fs st) rpath))
     && (String.length (resolved rpath) <? PATH_MAX)
  then resolved rpath else uninit_path st.

(** The probed directory and marker of a candidate base, and whether the
    candidate passes the two [access] tests of [lib_find_at]. *)
Definition probe_dir (nm pth : string) : string :=
  string_map tolower (snprintf_path pth nm).
Definition probe_marker (nm pth : string) : string :=
  snprintf_path (probe_dir nm pth) "_NVC_LIB".
Definition exists_in (m : gmap string fnode) (p : string) : bool :=
  bool_decide (is_Some (node_at m p)).
Definition valid_at (m : gmap string fnode) (nm pth : string) : bool :=
  exists_in m (probe_dir nm pth) && exists_in m (probe_marker nm pth).

(** The trace of a probe that rejects its candidate. *)
Definition reject_trace (m : gmap string fnode) (nm pth : string)
  : list event :=
  if exists_in m (probe_dir nm pth)
  then [SysAccess (probe_dir nm pth); SysAccess (probe_marker nm pth)]
  else [SysAccess (probe_dir nm pth)].

(** The file operations of [lib_save] for one dirty entry of a library at
    [dir]. *)
Definition save_trace (dir : string) (e : lib_unit) : list event :=
  let p := snprintf_path dir (istr (tree_ident (top e))) in
  [SysFopen p "w"; SysFwrite p (tree_write (top e)); SysFclose p].

Definition clean (e : lib_unit) : lib_unit := LibUnit (top e) false.

(** What [lib_get_ctx] does with the file it has found. *)
Definition load_entry (h : lib_t) (e : string)
  : M (option tree_t * option FILE) :=
  f <- lib_fopen h e "r" ;;
  match f with
  | None => abort
  | Some s =>
      let u := tree_read (fdata s) in
      lib_put_aux h u false ;;;
      ret (Some u, Some s)
  end.

(** Calling [fn] on each unit of a list, front first. *)
Fixpoint visits (fn : tree_t → M unit) (ts : list tree_t) : M unit :=
  match ts with
  | [] => ret tt
  | t :: rest => fn t ;;; visits fn rest
  end.

(** What [unlink] does to the file system, and the paths that the loop of
    [lib_destroy] passes to it for the names [entries]. *)
Definition unlink_fs (m : gmap string fnode) (p : string)
  : gmap string fnode :=
  match node_at m p with
  | Some (File _) => delete (key p) m
  | _ => m
  end.

Definition destroy_targets (dir : string) (entries : list string)
  : list string :=
  snprintf_path dir <$> filter (λ e, starts_with "." e = false) entries.

(** The names that [lib_load_all] looks up: those that start with neither
    a dot nor an underscore. *)
Definition unit_file (e : string) : bool :=
  negb (starts_with "."%char e) && negb (starts_with "_"%char e).

(** The file that [lib_save] leaves for one dirty entry. *)
Definition write_unit (dir : string) (m : gmap string fnode) (e : lib_unit)
  : gmap string fnode :=
  let k := key (snprintf_path dir (istr (tree_ident (top e)))) in
  <[k := File (tree_write (top e))]> (<[k := File ""]> m).

(** The path of the file of an entry of a library at [dir]. *)
Definition unit_path (dir : string) (e : lib_unit) : string :=
  snprintf_path dir (istr (tree_ident (top e))).

(** The dirty entries of a cache, in order. *)
Definition dirty_units (us : list lib_unit) : list lib_unit :=
  filter (λ e, dirty e = true) us.

(** The stored names form a tree: every entry lies in a stored directory
    or in the root. *)
Definition fs_tree (m : gmap string fnode) : Prop :=
  map_Forall (λ k _, is_dir (node m (parent_key k)) = true) m.

(** Whether [mkdir] refuses the name. *)
Definition mkdir_fails (st : state) (nm : string) : bool :=
  bool_decide (is_Some (node_at (fs st) nm))
  || negb (can_create (fs st) nm) || mkdir_denied nm.

(** The state in which [lib_new] calls [lib_init], after a successful
    [mkdir]. *)
Definition after_mkdir (st : state) (nm : string) : state :=
  set_fs (<[key nm := Dir]> (fs st)) (logs [SysAccess nm; SysMkdir nm] st).

(** The marker of a library at [dir], and what [lib_new] does to the file
    system and the trace once the handle exists. *)
Definition marker_path (dir : string) : string :=
  snprintf_path dir "_NVC_LIB".

Definition write_marker (dir : string) (st : state) : state :=
  set_fs (<[key (marker_path dir) := File (PACKAGE_STRING +:+ newline)]>
            (<[key (marker_path dir) := File ""]> (fs st)))
         (logs [SysFopen (marker_path dir) "w";
                SysFwrite (marker_path dir) (PACKAGE_STRING +:+ newline);
                SysFclose (marker_path dir)] st).

End Lib.

(** The entries of a colon-separated list, in the words of the
    specification: split at every colon, empty entries dropped. *)
Fixpoint split_colon (s : string) : list string :=
  match s with
  | EmptyString => [EmptyString]
  | String c r =>
      if Ascii.eqb c ":"%char then EmptyString :: split_colon r
      else match split_colon r with
           | t :: ts => String c t :: ts
           | [] => [String c EmptyString]
           end
  end.

Definition libpath_entries (s : string) : list string :=
  filter (λ t, t ≠ EmptyString) (split_colon s).

(** An environment for running the model on concrete inputs: units 0 to 9
    are named A and all others B. *)
Definition test_externals : Externals :=
  {| PATH_MAX := 4096;
     PACKAGE_STRING := "nvc 0.1";
     DATADIR := "/usr/share/nvc";
     tree_ident := λ t, if (t <? 10)%nat then "A" else "B";
     tree_write := λ t, "unit";
     tree_read := λ s, 0;
     CWD := "/";
     mkdir_denied := λ p, String.eqb p "/proc/lib";
     fopen_denied := λ p, String.eqb p "/proc/lib/_NVC_LIB";
     uninit_path := λ _, "" |}.

(** A build with a path buffer of 24 bytes, run in /home/nvc, and the file
    system that holds that directory only. *)
Definition short_externals : Externals :=
  {| PATH_MAX := 24;
     PACKAGE_STRING := "nvc 0.1";
     DATADIR := "/usr/share/nvc";
     tree_ident := λ t, if (t <? 10)%nat then "A" else "B";
     tree_write := λ t, "unit";
     tree_read := λ s, 0;
     CWD := "/home/nvc";
     mkdir_denied := λ p, false;
     fopen_denied := λ p, false;
     uninit_path := λ _, "" |}.

Definition home_state : state :=
  set_fs (<["/home" := Dir]> (<["/home/nvc" := Dir]> ∅)) init_state.

(** A temporary library that is also the work library. *)
Definition work_tmp_state : state :=
  State (Some 0) (Some 0) {[0 := LibList 0 None]} {[0 := Lib "" "WORK" []]}
        ∅ None [SysRealpath ""].

(** A library "lib" under a base directory spelled with capitals. *)
Definition capital_base_state : state :=
  set_fs (<["/Opt" := Dir]>
            (<["/Opt/NVC" := Dir]>
               (<["/Opt/NVC/lib" := Dir]>
                  (<["/Opt/NVC/lib/_NVC_LIB" := File "nvc 0.1"]> ∅))))
         init_state.

(** A library "foo" under /opt/lib, which NVC_LIBPATH lists twice. *)
Definition libpath_state : state :=
  State None None ∅ ∅
        (<["/opt" := Dir]>
           (<["/opt/lib" := Dir]>
              (<["/opt/lib/foo" := Dir]>
                 (<["/opt/lib/foo/_NVC_LIB" := File "nvc 0.1"]> ∅))))
        (Some "/opt/lib:/opt/lib") [].

(** A library "/mylib" on disk whose cache holds one dirty and one clean
    unit, both named A. *)
Definition cache_state : state :=
  State None (Some 0) {[0 := LibList 0 None]}
        {[0 := Lib "/mylib" "MYLIB" [LibUnit 3 true; LibUnit 4 false]]}
        (<["/mylib" := Dir]> (<["/mylib/_NVC_LIB" := File "nvc 0.1"]> ∅))
        None [].

(** A library "mylib" that is open, beside a library "foo" on disk in the
    working directory that is not. *)
Definition open_disk_state : state :=
  State None (Some 0) {[0 := LibList 0 None]}
        {[0 := Lib "/mylib" "MYLIB" [LibUnit 3 true]]}
        (<["/mylib" := Dir]>
           (<["/mylib/_NVC_LIB" := File "nvc 0.1"]>
              (<["/foo" := Dir]>
                 (<["/foo/_NVC_LIB" := File "nvc 0.1"]> ∅))))
        None [].

(** Two open libraries, "b" registered after "a". *)
Definition two_libs_state : state :=
  State None (Some 1)
        (<[1 := LibList 1 (Some 0)]> (<[0 := LibList 0 None]> ∅))
        (<[1 := Lib "/b" "B" []]> (<[0 := Lib "/a" "A" []]> ∅))
        (<["/a" := Dir]> (<["/b" := Dir]> ∅)) None [].

(** A library "foo" in the data directory only, with NVC_LIBPATH set to the
    empty string. *)
Definition empty_libpath_state : state :=
  State None None ∅ ∅
        (<["/usr" := Dir]>
           (<["/usr/share" := Dir]>
              (<["/usr/share/nvc" := Dir]>
                 (<["/usr/share/nvc/foo" := Dir]>
                    (<["/usr/share/nvc/foo/_NVC_LIB" := File "nvc 0.1"]> ∅)))))
        (Some "") [].

(** A library "/mylib" on disk that holds the file of a unit A, opened with
    an empty cache. *)
Definition disk_state : state :=
  State None (Some 0) {[0 := LibList 0 None]}
        {[0 := Lib "/mylib" "MYLIB" []]}
        (<["/mylib" := Dir]>
           (<["/mylib/_NVC_LIB" := File "nvc 0.1"]>
              (<["/mylib/A" := File "unit"]> ∅)))
        None [].

(** An open library whose directory has been removed behind its back. *)
Definition gone_state : state :=
  State None (Some 0) {[0 := LibList 0 None]}
        {[0 := Lib "/mylib" "MYLIB" [LibUnit 3 true]]}
        ∅ None [].

(** An environment in which [xmalloc] hands out blocks that hold the
    string "junk". *)
Definition junk_externals : Externals :=
  {| PATH_MAX := 4096;
     PACKAGE_STRING := "nvc 0.1";
     DATADIR := "/usr/share/nvc";
     tree_ident := λ t, if (t <? 10)%nat then "A" else "B";
     tree_write := λ t, "unit";
     tree_read := λ s, 0;
     CWD := "/";
     mkdir_denied := λ p, false;
     fopen_denied := λ p, false;
     uninit_path := λ _, "junk" |}.

(** An environment whose serialisation can be read back: units 0 to 9 are
    written as their digit. *)
Definition digit_externals : Externals :=
  {| PATH_MAX := 4096;
     PACKAGE_STRING := "nvc 0.1";
     DATADIR := "/usr/share/nvc";
     tree_ident := λ t, if (t <? 10)%nat then "A" else "B";
     tree_write := λ t, String (ascii_of_nat (48 + t)) EmptyString;
     tree_read := λ s, match s with
                       | String c _ => nat_of_ascii c - 48
                       | EmptyString => 0
                       end;
     CWD := "/";
     mkdir_denied := λ p, false;
     fopen_denied := λ p, false;
     uninit_path := λ _, "" |}.

(** A library "/mylib" on disk with two dirty units that are both named A,
    and a second handle with an empty cache on the same directory. *)
Definition dup_state : state :=
  State None (Some 0) {[0 := LibList 0 None]}
        (<[0 := Lib "/mylib" "MYLIB" [LibUnit 3 true; LibUnit 4 true]]>
           (<[1 := Lib "/mylib" "AGAIN" []]> ∅))
        (<["/mylib" := Dir]> ∅) None [].

(** A library "/mylib" on disk whose cache is full, with the file of a unit
    that is not cached. *)
Definition full_state : state :=
  State None (Some 0) {[0 := LibList 0 None]}
        {[0 := Lib "/mylib" "MYLIB" (replicate MAX_UNITS (LibUnit 3 false))]}
        (<["/mylib" := Dir]> (<["/mylib/B" := File "unit"]> ∅))
        None [].

(** A library "/mylib" on disk with its marker and the files of two units,
    beside a file that is not in its directory. *)
Definition files_state : state :=
  State None (Some 0) {[0 := LibList 0 None]}
        {[0 := Lib "/mylib" "MYLIB" [LibUnit 3 false]]}
        (<["/mylib" := Dir]>
           (<["/mylib/_NVC_LIB" := File "nvc 0.1"]>
              (<["/mylib/A" := File "unit"]>
                 (<["/mylib/B" := File "unit"]>
                    (<["/notes" := File "keep"]> ∅)))))
        None [].

(** * Properties *)

Ltac insert_eq :=
  match goal with
  | |- context [(<[?k := ?v]> ?m) !! ?k] => rewrite (lookup_insert_eq m k v)
  end.

Ltac munfold :=
  unfold bind, ret, gets, modify, abort, assert, deref_lib, deref_node,
    store_lib, store_node, xmalloc_lib, xmalloc_node, eprint, closedir in *.

(** ** Path names *)

Lemma string_length_app (a b : string) :
  String.length (a +:+ b) = String.length a + String.length b.
Proof. induction a as [|c a IH]; simpl; [done|by f_equal]. Qed.

Lemma string_app_assoc (a b c : string) :
  (a +:+ b) +:+ c = a +:+ (b +:+ c).
Proof.
  induction a as [|x a IH]; [done|].
  change (String x ((a +:+ b) +:+ c) = String x (a +:+ (b +:+ c))).
  by rewrite IH.
Qed.

Lemma string_app_inj (a b c : string) : a +:+ b = a +:+ c → b = c.
Proof.
  induction a as [|x a IH]; [done|].
  change (String x (a +:+ b) = String x (a +:+ c) → b = c).
  intros [= Heq]. by apply IH.
Qed.

Lemma split_slash_nonempty (s : string) : split_slash s ≠ [].
Proof.
  induction s as [|c s IH]; simpl; [done|].
  destruct (Ascii.eqb c "/"); [done|]. by destruct (split_slash s).
Qed.

Lemma split_slash_plain (n : string) :
  has_slash n = false → split_slash n = [n].
Proof.
  induction n as [|c n IH]; simpl; [done|].
  destruct (Ascii.eqb c "/"); [done|]. simpl. intros Hn. by rewrite IH.
Qed.

Lemma split_slash_no_slash (s : string) :
  Forall (λ c, has_slash c = false) (split_slash s).
Proof.
  induction s as [|c s IH]; simpl; [by repeat constructor|].
  destruct (Ascii.eqb c "/") eqn:Hc; [by constructor|].
  destruct (split_slash s) as [|t ts]; [by repeat constructor; simpl; rewrite Hc|].
  apply Forall_cons in IH as [Ht Hts]. constructor; [|done].
  simpl. by rewrite Hc.
Qed.

Lemma split_slash_app (a n : string) :
  has_slash n = false →
  split_slash (a +:+ "/" +:+ n) = split_slash a ++ [n].
Proof.
  intros Hn. induction a as [|c a IH].
  - simpl. by rewrite split_slash_plain.
  - change (split_slash (String c (a +:+ "/" +:+ n))
            = split_slash (String c a) ++ [n]).
    cbn [split_slash]. rewrite IH.
    destruct (Ascii.eqb c "/"); [done|].
    pose proof (split_slash_nonempty a) as Hne.
    by destruct (split_slash a).
Qed.

Lemma walk_step_plain (stack : list string) (c : string) :
  plain_name c = true → walk_step stack c = c :: stack.
Proof.
  unfold plain_name, walk_step.
  destruct (String.eqb c ""), (String.eqb c "."), (String.eqb c "..");
    simpl; done.
Qed.

Lemma walk_step_keeps (stack : list string) (c : string) :
  Forall (λ x, plain_name x = true) stack →
  has_slash c = false →
  Forall (λ x, plain_name x = true) (walk_step stack c).
Proof.
  intros Hs Hc. unfold walk_step.
  destruct (String.eqb c "") eqn:H1; [done|].
  destruct (String.eqb c ".") eqn:H2; [done|]. simpl.
  destruct (String.eqb c "..") eqn:H3.
  - destruct stack; [done|]. by apply Forall_cons in Hs as [_ ?].
  - constructor; [|done]. unfold plain_name. by rewrite H1, H2, H3, Hc.
Qed.

Lemma walk_keeps (cs : list string) :
  ∀ stack,
    Forall (λ x, plain_name x = true) stack →
    Forall (λ c, has_slash c = false) cs →
    Forall (λ x, plain_name x = true) (foldl walk_step stack cs).
Proof.
  induction cs as [|c cs IH]; intros stack Hs Hcs; simpl; [done|].
  apply Forall_cons in Hcs as [Hc Hcs].
  apply IH; [by apply walk_step_keeps|done].
Qed.

Lemma path_of_nil (stack : list string) :
  path_of stack = "" ↔ stack = [].
Proof.
  split; [|by intros ->]. destruct stack as [|c up]; [done|].
  simpl. intros Heq. apply (f_equal String.length) in Heq.
  rewrite !string_length_app in Heq. simpl in Heq. lia.
Qed.

Lemma starts_with_app (c : ascii) (a b : string) :
  a ≠ "" → starts_with c (a +:+ b) = starts_with c a.
Proof. by destruct a. Qed.

Lemma path_of_absolute (stack : list string) :
  stack ≠ [] → starts_with "/" (path_of stack) = true.
Proof.
  induction stack as [|c up IH]; [done|]. intros _. simpl.
  destruct up as [|c' up']; [done|].
  rewrite starts_with_app; [by apply IH|].
  intros Heq. by apply path_of_nil in Heq.
Qed.

Lemma truncate_id (n : nat) (s : string) :
  String.length s ≤ n → truncate n s = s.
Proof.
  revert s. induction n as [|n IH]; intros [|c s]; simpl; try done; [lia|].
  intros Hlen. f_equal. apply IH. lia.
Qed.

Lemma strip_prefix_app (p q s : string) :
  strip_prefix (p +:+ q) (p +:+ s) = strip_prefix q s.
Proof.
  induction p as [|c p IH]; simpl; [done|]. by rewrite Ascii.eqb_refl.
Qed.

Lemma strip_prefix_Some (p s r : string) :
  strip_prefix p s = Some r → s = p +:+ r.
Proof.
  revert s. induction p as [|a p IH]; intros [|b s]; simpl; try done.
  - by intros [= <-].
  - by intros [= <-].
  - destruct (Ascii.eqb a b) eqn:Hab; [|done].
    apply Ascii.eqb_eq in Hab as ->. intros Hs. by rewrite (IH _ Hs).
Qed.

(** The names that [readdir] gives for a directory are the names of the
    entries stored under it. *)
Lemma dir_children_elem (m : gmap string fnode) (d n : string) :
  n ∈ dir_children m d ↔
  is_Some (m !! (d +:+ "/" +:+ n)) ∧ n ≠ "" ∧ has_slash n = false.
Proof.
  unfold dir_children. rewrite list_elem_of_omap. split.
  - intros (k & Hk & Hc). unfold child_name in Hc.
    destruct (strip_prefix (d +:+ "/") k) as [r|] eqn:Hs; [|done].
    apply strip_prefix_Some in Hs. rewrite string_app_assoc in Hs.
    destruct (String.eqb r "") eqn:Hr; [done|].
    destruct (has_slash r) eqn:Hsl; [done|]. simpl in Hc.
    injection Hc as ->. subst k.
    apply list_elem_of_fmap in Hk as ([k v] & -> & Hkv).
    apply elem_of_map_to_list in Hkv. simpl.
    split; [by eexists|]. split; [|done].
    by apply String.eqb_neq in Hr.
  - intros ([v Hv] & Hne & Hsl). exists (d +:+ "/" +:+ n). split.
    + apply list_elem_of_fmap. exists (d +:+ "/" +:+ n, v).
      split; [done|]. by apply elem_of_map_to_list.
    + unfold child_name. rewrite strip_prefix_app.
      change (strip_prefix "/" ("/" +:+ n)) with (Some n).
      apply String.eqb_neq in Hne. cbv beta iota. by rewrite Hne, Hsl.
Qed.

Section Paths.
Context `{Externals}.

Lemma resolve_plain (p : string) :
  Forall (λ x, plain_name x = true) (resolve p).
Proof.
  unfold resolve. apply walk_keeps; [|apply split_slash_no_slash].
  destruct (starts_with "/" p); [constructor|].
  apply walk_keeps; [constructor|apply split_slash_no_slash].
Qed.

(** A name inside a directory resolves to that name under what the
    directory resolves to. *)
Lemma resolve_child (d n : string) :
  d ≠ "" → plain_name n = true →
  resolve (d +:+ "/" +:+ n) = n :: resolve d.
Proof.
  intros Hd Hn. unfold resolve.
  assert (Hsl : has_slash n = false).
  { unfold plain_name in Hn.
    by destruct (has_slash n); [rewrite andb_false_r in Hn|]. }
  rewrite starts_with_app, split_slash_app, foldl_app by done.
  simpl. by apply walk_step_plain.
Qed.

Lemma resolve_root_child (n : string) :
  plain_name n = true → resolve ("/" +:+ n) = [n].
Proof.
  intros Hn. unfold resolve.
  assert (Hsl : has_slash n = false).
  { unfold plain_name in Hn.
    by destruct (has_slash n); [rewrite andb_false_r in Hn|]. }
  change ("/" +:+ n) with (String "/" n). cbn [starts_with split_slash].
  change (Ascii.eqb "/" "/") with true. cbv iota.
  rewrite split_slash_plain by done. cbn [foldl].
  change (walk_step [] "") with (@nil string). by apply walk_step_plain.
Qed.

Lemma key_child (d n : string) :
  d ≠ "" → plain_name n = true →
  key (d +:+ "/" +:+ n) = key d +:+ "/" +:+ n.
Proof. intros Hd Hn. unfold key. by rewrite resolve_child. Qed.

Lemma parent_key_child (d n : string) :
  d ≠ "" → plain_name n = true →
  parent_key (d +:+ "/" +:+ n) = key d.
Proof. intros Hd Hn. unfold parent_key, key. by rewrite resolve_child. Qed.

Lemma key_child_ne (d n : string) :
  d ≠ "" → plain_name n = true →
  key (d +:+ "/" +:+ n) ≠ "" ∧ key (d +:+ "/" +:+ n) ≠ key d.
Proof.
  intros Hd Hn. rewrite key_child by done. split; intros Heq;
    apply (f_equal String.length) in Heq;
    rewrite !string_length_app in Heq; simpl in Heq; lia.
Qed.

(** Resolved names resolve to themselves. *)
Lemma resolve_path_of (stack : list string) :
  Forall (λ x, plain_name x = true) stack → stack ≠ [] →
  resolve (path_of stack) = stack.
Proof.
  induction stack as [|c up IH]; [done|].
  intros [Hc Hup]%Forall_cons _. cbn [path_of].
  destruct up as [|c' up'].
  - by apply resolve_root_child.
  - rewrite resolve_child; [by rewrite IH| |done].
    intros Heq. by apply path_of_nil in Heq.
Qed.

Lemma resolve_resolved (p : string) : resolve (resolved p) = resolve p.
Proof.
  unfold resolved, key.
  destruct (String.eqb (path_of (resolve p)) "") eqn:Hk.
  - apply String.eqb_eq, path_of_nil in Hk. by rewrite Hk.
  - apply resolve_path_of; [apply resolve_plain|].
    intros Heq. rewrite Heq in Hk. done.
Qed.

Lemma key_resolved (p : string) : key (resolved p) = key p.
Proof. unfold key. by rewrite resolve_resolved. Qed.

Lemma resolved_nonempty (p : string) : resolved p ≠ "".
Proof.
  unfold resolved. destruct (String.eqb (key p) "") eqn:Hk; [done|].
  by apply String.eqb_neq in Hk.
Qed.

Lemma node_at_resolved (m : gmap string fnode) (p : string) :
  p ≠ "" → node_at m (resolved p) = node_at m p.
Proof.
  intros Hp. unfold node_at. rewrite key_resolved.
  apply String.eqb_neq in Hp. rewrite Hp.
  pose proof (resolved_nonempty p) as Hr. apply String.eqb_neq in Hr.
  by rewrite Hr.
Qed.

(** The entry a name inside a directory leads to is stored under the
    directory's resolved name followed by the name. *)
Lemma node_at_child (m : gmap string fnode) (d n : string) :
  d ≠ "" → plain_name n = true →
  node_at m (d +:+ "/" +:+ n) = m !! (key d +:+ "/" +:+ n).
Proof.
  intros Hd Hn. unfold node_at, node.
  destruct (key_child_ne d n Hd Hn) as [Hne _].
  rewrite key_child in * by done. apply String.eqb_neq in Hne. rewrite Hne.
  destruct d; [done|]. reflexivity.
Qed.

Lemma key_key (p : string) : key p ≠ "" → key (key p) = key p.
Proof.
  intros Hk. unfold key at 1. unfold key at 1.
  rewrite resolve_path_of; [done|apply resolve_plain|].
  intros Heq. apply Hk. unfold key. by rewrite Heq.
Qed.

Lemma plain_name_nonempty (n : string) : plain_name n = true → n ≠ "".
Proof. by intros Hn ->. Qed.

Lemma plain_name_no_slash (n : string) :
  plain_name n = true → has_slash n = false.
Proof.
  unfold plain_name. by destruct (has_slash n); [rewrite andb_false_r|].
Qed.

(** The entries of a directory, by resolved name. *)
Lemma key_child_key (d n : string) :
  plain_name n = true →
  key (key d +:+ "/" +:+ n) = key d +:+ "/" +:+ n
  ∧ parent_key (key d +:+ "/" +:+ n) = key d.
Proof.
  intros Hn. destruct (String.eqb (key d) "") eqn:Hk.
  - apply String.eqb_eq in Hk. rewrite Hk.
    change ("" +:+ "/" +:+ n) with ("/" +:+ n).
    unfold key, parent_key. by rewrite resolve_root_child.
  - apply String.eqb_neq in Hk.
    rewrite key_child, parent_key_child, key_key by done. done.
Qed.

Lemma fs_tree_child (m : gmap string fnode) (d n : string) :
  fs_tree m → plain_name n = true →
  is_Some (m !! (key d +:+ "/" +:+ n)) →
  node m (key d) = Some Dir.
Proof.
  intros Htree Hn [v Hv]. apply Htree in Hv.
  rewrite (proj2 (key_child_key d n Hn)) in Hv.
  by destruct (node m (key d)) as [[]|].
Qed.

Lemma can_create_nonempty (m : gmap string fnode) (p : string) :
  can_create m p = true → p ≠ "" ∧ key p ≠ "".
Proof.
  unfold can_create. intros [[Hp Hk]%andb_prop _]%andb_prop.
  split; apply String.eqb_neq; by apply negb_true_iff.
Qed.

Lemma node_at_key (m : gmap string fnode) (p : string) :
  p ≠ "" → key p ≠ "" → node_at m p = m !! key p.
Proof.
  intros Hp Hk. unfold node_at, node.
  apply String.eqb_neq in Hp, Hk. by rewrite Hp, Hk.
Qed.

End Paths.

Section Registry.

(** ** Linked lists in the heap *)

Lemma is_list_mono (l : list lib_t) :
  ∀ (m m' : gmap ptr lib_list) p, m ⊆ m' → is_list m p l → is_list m' p l.
Proof.
  induction l as [|x l IH]; intros m m' p Hsub; simpl; [done|].
  intros (a & q & -> & Ha & Hl). exists a, q. split; [done|]. split.
  - eapply lookup_weaken; eassumption.
  - eapply IH; [|exact Hl]. by apply delete_mono.
Qed.

Lemma is_list_length (l : list lib_t) :
  ∀ (m : gmap ptr lib_list) p, is_list m p l → length l ≤ size m.
Proof.
  induction l as [|x l IH]; intros m p; simpl; [lia|].
  intros (a & q & -> & Ha & Hl). apply IH in Hl.
  rewrite map_size_delete, Ha in Hl.
  assert (size m ≠ 0); [|lia].
  intros Hz. apply map_size_empty_inv in Hz. subst m. by rewrite lookup_empty in Ha.
Qed.

Lemma walk_is_list (l : list lib_t) :
  ∀ (m : gmap ptr lib_list) p fuel,
    is_list m p l → length l ≤ fuel → walk fuel m p = l.
Proof.
  induction l as [|x l IH]; intros m p fuel; simpl.
  - intros -> _. by destruct fuel.
  - intros (a & q & -> & Ha & Hl) Hlen.
    destruct fuel as [|fuel]; [lia|]. simpl. rewrite Ha. simpl. f_equal.
    apply IH; [|lia]. eapply is_list_mono; [|exact Hl]. apply delete_subseteq.
Qed.

Lemma registry_is_list (st : state) (l : list lib_t) :
  is_list (nodes st) (loaded st) l → registry st = l.
Proof.
  intros Hl. unfold registry. apply walk_is_list; [done|].
  by eapply is_list_length.
Qed.

Lemma wf_init_state : wf init_state.
Proof.
  unfold wf. change (registry init_state) with (@nil lib_t).
  split; [done|]. split; [constructor|]. intros h Hh. by apply elem_of_nil in Hh.
Qed.

(** ** [lib_init] *)

Section Init.
Context `{Externals}.

Lemma lib_init_run (nm rpath : string) (st : state) :
  let l := fresh (dom (libs st)) in
  let el := fresh (dom (nodes st)) in
  lib_init nm rpath st =
    Some (l, State (work st) (Some el)
                   (<[el := LibList l (loaded st)]> (nodes st))
                   (<[l := Lib (path_after_init st rpath) (upcase_name nm) []]>
                      (libs st))
                   (fs st) (libpath_env st) (io st ++ [SysRealpath rpath])).
Proof. reflexivity. Qed.

Lemma lib_init_spec (nm rpath : string) (st st' : state) (l : lib_t) :
  wf st →
  lib_init nm rpath st = Some (l, st') →
  wf st'
  ∧ registry st' = l :: registry st
  ∧ libs st !! l = None
  ∧ (∃ p, libs st' = <[l := Lib p (upcase_name nm) []]> (libs st))
  ∧ work st' = work st ∧ fs st' = fs st.
Proof.
  intros (Hl & Hnd & Hal). rewrite lib_init_run. intros [= <- <-].
  set (l := fresh (dom (libs st))). set (el := fresh (dom (nodes st))).
  assert (Hfl : libs st !! l = None)
    by (apply not_elem_of_dom, is_fresh).
  assert (Hfe : nodes st !! el = None)
    by (apply not_elem_of_dom, is_fresh).
  match goal with |- wf ?s ∧ _ => set (st' := s) end.
  assert (Hl' : is_list (nodes st') (loaded st') (l :: registry st)).
  { simpl. exists el, (loaded st). split; [done|]. split.
    - by rewrite lookup_insert_eq.
    - by rewrite delete_insert_eq, delete_id. }
  assert (Hr : registry st' = l :: registry st)
    by (by apply registry_is_list).
  assert (Hnl : l ∉ registry st).
  { intros Hin. apply Hal in Hin. rewrite Hfl in Hin. by destruct Hin. }
  split; [|split; [done|split; [done|split; [by eexists|done]]]].
  unfold wf. rewrite Hr. split; [done|]. split.
  - by constructor.
  - intros h [->|Hin]%elem_of_cons; simpl.
    + by rewrite lookup_insert_eq.
    + rewrite lookup_insert_ne; [by apply Hal|]. intros <-. done.
Qed.

End Init.

(** ** The scan of the registry in [lib_find] *)

Lemma find_loaded_spec (name_i : ident_t) (st : state) (l : list lib_t) :
  ∀ p fuel,
    is_list (nodes st) p l →
    (∀ h, h ∈ l → is_Some (libs st !! h)) →
    length l ≤ fuel →
    find_loaded fuel name_i p st = Some (find_open st name_i l, st).
Proof.
  induction l as [|x l IH]; intros p fuel; simpl.
  - intros -> _ _. by destruct fuel.
  - intros (a & q & -> & Ha & Hl) Hal Hlen.
    destruct fuel as [|fuel]; [lia|]. simpl.
    destruct (Hal x) as [lx Hx]; [by left|].
    unfold lib_name. munfold. rewrite Ha. simpl. rewrite Hx. simpl.
    destruct (decide (name lx = name_i)) as [Heq|Hne];
      destruct (decide (Some (name lx) = Some name_i)) as [Heq'|Hne'];
      try congruence.
    apply IH; [|intros h' Hh'; apply Hal; by right|lia].
    eapply is_list_mono; [|exact Hl]. apply delete_subseteq.
Qed.

Lemma find_open_None (st : state) (name_i : ident_t) (l : list lib_t) :
  find_open st name_i l = None →
  name_i ∉ omap (λ h, name <$> libs st !! h) l.
Proof.
  induction l as [|x l IH]; simpl; [intros _; apply not_elem_of_nil|].
  destruct (decide _) as [|Hne]; [done|]. intros Hf.
  destruct (name <$> libs st !! x) as [n|] eqn:Hn; [|by apply IH].
  intros [->|Hin]%elem_of_cons; [done|]. by apply IH.
Qed.

Lemma find_open_Some (st : state) (name_i : ident_t) (l : list lib_t) h :
  find_open st name_i l = Some h →
  h ∈ l ∧ name <$> libs st !! h = Some name_i.
Proof.
  induction l as [|x l IH]; simpl; [done|].
  destruct (decide _) as [Heq|Hne].
  - intros [= <-]. split; [by left|done].
  - intros Hf. destruct (IH Hf). split; [by right|done].
Qed.

(** ** The loop of [lib_free] *)

Lemma lib_free_loop_frame (h : lib_t) (fuel : nat) :
  ∀ it prev st st',
    lib_free_loop fuel h it prev st = Some (tt, st') →
    work st' = work st ∧ libs st' = libs st ∧ fs st' = fs st
    ∧ io st' = io st ∧ libpath_env st' = libpath_env st.
Proof.
  induction fuel as [|fuel IH]; intros [p|] prev st st'; simpl;
    try (by intros [= <-]); try done.
  munfold. destruct (nodes st !! p) as [nd|]; [simpl|done].
  destruct (decide (item nd = h)).
  - destruct prev as [q|]; simpl.
    + destruct (nodes st !! q); simpl; [|done]. by intros [= <-].
    + by intros [= <-].
  - intros Hrun. by apply IH in Hrun.
Qed.

Lemma lib_free_loop_spec (h : lib_t) (l : list lib_t) :
  ∀ st p fuel,
    is_list (nodes st) p l →
    length l ≤ fuel →
    ∃ st', lib_free_loop fuel h p None st = Some (tt, st')
           ∧ match l with
             | [] => st' = st
             | _ => is_list (nodes st') (loaded st') (registry_after_free h l)
             end.
Proof.
  induction l as [|x l IH]; intros st p fuel.
  - simpl. intros -> _. exists st. by destruct fuel.
  - intros (a & q & -> & Ha & Hl) Hlen. simpl in Hlen.
    destruct fuel as [|fuel]; [lia|]. simpl lib_free_loop.
    munfold. rewrite Ha. simpl.
    destruct (decide (x = h)) as [->|Hne].
    + eexists. split; [reflexivity|].
      simpl. exact Hl.
    + destruct (IH (set_loaded (Some a) st) q fuel) as (st' & Hrun & Hpost).
      { simpl. eapply is_list_mono; [|exact Hl]. apply delete_subseteq. }
      { lia. }
      exists st'. split; [exact Hrun|].
      destruct l as [|y l]; [|exact Hpost].
      subst st'. simpl in Hl. subst q. simpl.
      exists a, None. by rewrite Ha.
Qed.

Lemma lib_free_spec (h : lib_t) (st : state) :
  wf st → is_Some (libs st !! h) →
  ∃ st', lib_free h st = Some (tt, st')
         ∧ registry st' = registry_after_free h (registry st)
         ∧ libs st' = delete h (libs st)
         ∧ work st' = work st ∧ fs st' = fs st ∧ io st' = io st.
Proof.
  intros (Hl & _ & _) [lh Hh].
  destruct (lib_free_loop_spec h (registry st) st (loaded st)
              (size (nodes st)) Hl) as (st1 & Hrun & Hpost).
  { by eapply is_list_length. }
  destruct (lib_free_loop_frame _ _ _ _ _ _ Hrun) as (Hw & Hlibs & Hfs & Hio & _).
  unfold lib_free. munfold. rewrite Hrun. simpl. rewrite Hlibs, Hh. simpl.
  eexists. split; [reflexivity|].
  split; [|by rewrite Hlibs].
  destruct (registry st) as [|x l] eqn:Hreg.
  - subst st1. simpl. exact Hreg.
  - apply registry_is_list. exact Hpost.
Qed.

Lemma registry_after_free_suffix (h : lib_t) (l : list lib_t) :
  registry_after_free h l `suffix_of` l.
Proof.
  induction l as [|x l IH]; simpl; [done|].
  destruct (decide (x = h)); [by apply suffix_cons_r|].
  destruct l as [|y l]; [done|]. by apply suffix_cons_r.
Qed.

Lemma registry_after_free_gone (h : lib_t) (l : list lib_t) :
  NoDup l → h ∉ registry_after_free h l.
Proof.
  induction l as [|x l IH]; simpl; [intros _; apply not_elem_of_nil|].
  intros [Hx Hl]%NoDup_cons. destruct (decide (x = h)) as [->|Hne]; [done|].
  destruct l as [|y l]; [|by apply IH].
  intros Hin. apply list_elem_of_singleton in Hin. done.
Qed.

(** What does hold of a release: the released handle is gone from the
    registry, what is left of the registry is a tail of the old one, and
    nothing is written: the file system and the trace are as before. *)
Lemma lib_free_released_gone (h : lib_t) (st : state) :
  wf st → is_Some (libs st !! h) →
  ∃ st', lib_free h st = Some (tt, st')
         ∧ ¬ (h ∈ registry st')
         ∧ (registry st' `suffix_of` registry st)
         ∧ fs st' = fs st ∧ io st' = io st.
Proof.
  intros Hwf Hh.
  destruct (lib_free_spec h st Hwf Hh) as (st' & Hrun & Hr & _ & _ & Hfs & Hio).
  exists st'. split; [done|]. rewrite Hr.
  split; [apply registry_after_free_gone; by destruct Hwf as (_ & ? & _)|].
  split; [apply registry_after_free_suffix|done].
Qed.

Lemma is_listb_is_list (l : list lib_t) :
  ∀ (m : gmap ptr lib_list) p, is_listb m p l = true → is_list m p l.
Proof.
  induction l as [|x l IH]; intros m [a|]; simpl; try done.
  destruct (m !! a) as [[y q]|] eqn:Ha; [|done]. simpl.
  intros [Hy Hl]%andb_prop. apply bool_decide_eq_true in Hy. subst y.
  exists a, q. auto.
Qed.

Lemma wfb_wf (st : state) : wfb st = true → wf st.
Proof.
  unfold wfb, wf. intros [[H1 H2]%andb_prop H3]%andb_prop.
  split; [by apply is_listb_is_list|]. split.
  - by apply bool_decide_eq_true in H2.
  - intros h Hh. rewrite forallb_forall in H3.
    apply list_elem_of_In, H3 in Hh. by apply bool_decide_eq_true in Hh.
Qed.

Lemma same_memory_registry (st st' : state) :
  same_memory st st' → registry st' = registry st.
Proof. intros (_ & Hl & Hn & _). unfold registry. by rewrite Hl, Hn. Qed.

Lemma same_memory_reg_names (st st' : state) :
  same_memory st st' → reg_names st' = reg_names st.
Proof.
  intros Hs. unfold reg_names. rewrite (same_memory_registry _ _ Hs).
  destruct Hs as (_ & _ & _ & ->). done.
Qed.

Lemma same_memory_wf (st st' : state) :
  same_memory st st' → wf st → wf st'.
Proof.
  intros Hs. unfold wf. rewrite (same_memory_registry _ _ Hs).
  destruct Hs as (_ & -> & -> & ->). done.
Qed.

Lemma same_memory_refl (st : state) : same_memory st st.
Proof. by repeat split. Qed.

Lemma same_memory_trans (st1 st2 st3 : state) :
  same_memory st1 st2 → same_memory st2 st3 → same_memory st1 st3.
Proof.
  intros (a1 & a2 & a3 & a4) (b1 & b2 & b3 & b4).
  repeat split; congruence.
Qed.

End Registry.

(** ** Release *)

Section Release.
Context `{Externals}.

(** C10: [lib_free] returns on every allocated handle of a well-formed
    state and leaves the work pointer as it was; when the released handle
    is the work library, [lib_work] afterwards still returns that handle,
    whose block is no longer allocated. *)
Theorem lib_free_keeps_work (h : lib_t) (st : state) :
  wf st → is_Some (libs st !! h) →
  ∃ st', lib_free h st = Some (tt, st')
         ∧ work st' = work st
         ∧ (work st = Some h →
            lib_work st' = Some (h, st') ∧ libs st' !! h = None).
Proof.
  intros Hwf Hh.
  destruct (lib_free_spec h st Hwf Hh) as (st' & Hrun & _ & Hlibs & Hw & _).
  exists st'. split; [done|]. split; [done|]. intros Hwork. split.
  - unfold lib_work. munfold. by rewrite Hw, Hwork.
  - rewrite Hlibs. apply lookup_delete_eq.
Qed.

End Release.

Lemma lib_free_keeps_work_witness :
  ∃ st', lib_free 0 work_tmp_state = Some (tt, st')
         ∧ work st' = work work_tmp_state
         ∧ (work work_tmp_state = Some 0 →
            lib_work st' = Some (0, st') ∧ libs st' !! 0 = None).
Proof.
  apply (lib_free_keeps_work 0 work_tmp_state).
  - apply wfb_wf. vm_compute. reflexivity.
  - eexists. vm_compute. reflexivity.
Defined.

(** C3: on the registry holding the handle of "b" in front of the handle
    of "a", releasing "a" empties the registry although "b" is still open;
    with two more libraries opened afterwards, releasing the unregistered
    "b" cuts the registry down to its last node. *)
Theorem lib_free_drops_other_handles :
  let E := test_externals in
  ∃ st1 st2 st3 st4,
    (lib_new "a" ;;; lib_new "b") init_state = Some (Some 1, st1)
    ∧ registry st1 = [1; 0]
    ∧ lib_free 0 st1 = Some (tt, st2)
    ∧ registry st2 = []
    ∧ is_Some (libs st2 !! 1)
    ∧ (lib_new "c" ;;; lib_new "d") st2 = Some (Some 3, st3)
    ∧ registry st3 = [3; 2]
    ∧ ¬ (1 ∈ registry st3)
    ∧ lib_free 1 st3 = Some (tt, st4)
    ∧ registry st4 = [2].
Proof.
  intros E. do 4 eexists.
  split; [vm_compute; reflexivity|].
  split; [vm_compute; reflexivity|].
  split; [vm_compute; reflexivity|].
  split; [vm_compute; reflexivity|].
  split; [eexists; vm_compute; reflexivity|].
  split; [vm_compute; reflexivity|].
  split; [vm_compute; reflexivity|].
  split; [|split; [vm_compute; reflexivity|vm_compute; reflexivity]].
  intros Hin. vm_compute in Hin. apply elem_of_cons in Hin as [Hin|Hin]; [done|].
  apply elem_of_cons in Hin as [Hin|Hin]; [done|]. by apply elem_of_nil in Hin.
Qed.

(** ** The path resolver *)

Lemma logs_logs (es es' : list event) (st : state) :
  logs es' (logs es st) = logs (es ++ es') st.
Proof. unfold logs. simpl. by rewrite app_assoc. Qed.

Lemma logs_nil (st : state) : logs [] st = st.
Proof. destruct st. unfold logs. simpl. by rewrite app_nil_r. Qed.

Lemma log_logs (e : event) (st : state) : log e st = logs [e] st.
Proof. reflexivity. Qed.

Section Resolver.
Context `{Externals}.

(** What one probe does: two [access] tests on the lowercased buffer, then
    [lib_init] when both succeed. *)
Lemma lib_find_at_spec (nm pth : string) (st : state) :
  lib_find_at nm pth st =
    if valid_at (fs st) nm pth
    then (l <- lib_init nm (probe_dir nm pth) ;; ret (Some l))
           (logs [SysAccess (probe_dir nm pth);
                  SysAccess (probe_marker nm pth)] st)
    else Some (None, logs (reject_trace (fs st) nm pth) st).
Proof.
  unfold lib_find_at, valid_at, reject_trace, access.
  fold (probe_dir nm pth). fold (probe_marker nm pth). munfold.
  cbn -[lib_init].
  fold (exists_in (fs st) (probe_dir nm pth)).
  destruct (exists_in (fs st) (probe_dir nm pth)); cbn -[lib_init];
    [|reflexivity].
  fold (exists_in (fs st) (probe_marker nm pth)).
  destruct (exists_in (fs st) (probe_marker nm pth)); cbn -[lib_init];
    rewrite !log_logs, logs_logs; reflexivity.
Qed.

Lemma truncate_length (n : nat) (s : string) :
  String.length (truncate n s) ≤ n.
Proof.
  revert s. induction n as [|n IH]; intros [|c s]; simpl; try lia.
  specialize (IH s). lia.
Qed.

Lemma string_map_length (f : ascii → ascii) (s : string) :
  String.length (string_map f s) = String.length s.
Proof. induction s as [|c s IH]; simpl; congruence. Qed.

(** When [realpath] succeeds, [lib_init] stores the resolved name. *)
Lemma path_after_init_resolved (st : state) (rpath : string) :
  is_Some (node_at (fs st) rpath) →
  String.length (resolved rpath) < PATH_MAX →
  path_after_init st rpath = resolved rpath.
Proof.
  intros Hex Hlen. unfold path_after_init.
  by rewrite bool_decide_eq_true_2, (proj2 (Nat.ltb_lt _ _)).
Qed.


(** *** [strtok] against the colon-separated entries *)

Lemma split_colon_scan (s : string) :
  ∃ X, split_colon s = (scan_token s).1 :: X
       ∧ filter (λ t, t ≠ EmptyString) X = libpath_entries (scan_token s).2.
Proof.
  induction s as [|c r (X & Hs & HX)]; simpl.
  - exists []. done.
  - destruct (Ascii.eqb c ":") eqn:Hc; simpl.
    + exists (split_colon r). done.
    + rewrite Hs. destruct (scan_token r) as [t rest]. simpl in *.
      exists X. done.
Qed.

Lemma scan_token_entries (s : string) :
  libpath_entries s =
    (if decide ((scan_token s).1 = EmptyString) then []
     else [(scan_token s).1]) ++ libpath_entries (scan_token s).2.
Proof.
  destruct (split_colon_scan s) as (X & Hs & HX).
  unfold libpath_entries at 1. rewrite Hs, filter_cons, HX.
  destruct (decide ((scan_token s).1 ≠ "")) as [Hne|He];
    destruct (decide ((scan_token s).1 = "")); done.
Qed.

Lemma scan_token_length (s : string) :
  s ≠ EmptyString → String.length (scan_token s).2 < String.length s.
Proof.
  induction s as [|c r IH]; [done|]. intros _. simpl.
  destruct (Ascii.eqb c ":"); simpl; [lia|].
  destruct r as [|c' r'].
  - simpl. lia.
  - specialize (IH ltac:(done)). destruct (scan_token (String c' r')). simpl in *. lia.
Qed.

Lemma skip_delims_entries (s : string) :
  libpath_entries (skip_delims s) = libpath_entries s.
Proof.
  induction s as [|c r IH]; [done|]. simpl.
  destruct (Ascii.eqb c ":") eqn:Hc; [|done].
  rewrite IH. unfold libpath_entries. simpl. rewrite Hc.
  by rewrite filter_cons_False by (intros Hne; by apply Hne).
Qed.

Lemma skip_delims_length (s : string) :
  String.length (skip_delims s) ≤ String.length s.
Proof.
  induction s as [|c r IH]; simpl; [lia|].
  destruct (Ascii.eqb c ":"); simpl; lia.
Qed.

Lemma skip_delims_head (s : string) c r :
  skip_delims s = String c r → Ascii.eqb c ":" = false.
Proof.
  induction s as [|c' r' IH]; simpl; [done|].
  destruct (Ascii.eqb c' ":") eqn:Hc; [done|]. by intros [= <- <-].
Qed.

Lemma strtok_spec (s : string) :
  match strtok s with
  | (None, _) => libpath_entries s = []
  | (Some t, saved) =>
      libpath_entries s = t :: libpath_entries saved
      ∧ String.length saved < String.length s
  end.
Proof.
  unfold strtok. pose proof (skip_delims_entries s) as He.
  pose proof (skip_delims_length s) as Hlen.
  destruct (skip_delims s) as [|c r] eqn:Hs; [by rewrite <- He|].
  pose proof (skip_delims_head _ _ _ Hs) as Hc.
  pose proof (scan_token_entries (String c r)) as Ht.
  pose proof (scan_token_length (String c r) ltac:(done)) as Hl.
  rewrite <- He, Ht. simpl in *. rewrite Hc in *.
  destruct (scan_token r) as [t rest]. simpl in *.
  split; [done|lia].
Qed.

Lemma strtok_None (s saved : string) :
  strtok s = (None, saved) → saved = EmptyString.
Proof.
  unfold strtok. destruct (skip_delims s); [by intros [= <-]|].
  by destruct (scan_token _).
Qed.

Lemma libpath_loop_spec (fuel : nat) :
  ∀ saved base tok,
    String.length saved < fuel →
    libpath_loop fuel base tok saved =
      Some (foldl push_path base (tok :: (Some <$> libpath_entries saved))).
Proof.
  induction fuel as [|fuel IH]; intros saved base tok Hlen; [lia|].
  simpl. pose proof (strtok_spec saved) as Hs.
  destruct (strtok saved) as [[t|] rest].
  - destruct Hs as [-> Hl]. rewrite IH by lia. done.
  - by rewrite Hs.
Qed.

Lemma take_take_app {A} (n : nat) (l k : list A) :
  take n (take n l ++ k) = take n (l ++ k).
Proof.
  destruct (decide (n ≤ length l)) as [Hle|Hgt].
  - rewrite (take_app_le l k) by done. rewrite take_app_le.
    + rewrite take_take. f_equal. lia.
    + rewrite length_take. lia.
  - by rewrite (take_ge l) by lia.
Qed.

Lemma push_path_take (base : list (option string)) (pth : option string) :
  length base ≤ MAX_SEARCH_PATHS - 1 →
  push_path base pth = take (MAX_SEARCH_PATHS - 1) (base ++ [pth]).
Proof.
  unfold push_path. generalize (MAX_SEARCH_PATHS - 1). intros n Hlen.
  destruct (length base <? n) eqn:Hlt.
  - apply Nat.ltb_lt in Hlt. rewrite take_ge; [done|].
    rewrite length_app. simpl. lia.
  - apply Nat.ltb_ge in Hlt. rewrite take_app_le by lia.
    by rewrite take_ge by lia.
Qed.

Lemma push_path_foldl (xs : list (option string)) :
  ∀ base, length base ≤ MAX_SEARCH_PATHS - 1 →
    foldl push_path base xs = take (MAX_SEARCH_PATHS - 1) (base ++ xs).
Proof.
  induction xs as [|x xs IH]; intros base Hlen; cbn [foldl].
  - rewrite app_nil_r. by rewrite take_ge by lia.
  - rewrite IH.
    + rewrite push_path_take by done. rewrite take_take_app.
      by rewrite <- app_assoc.
    + rewrite push_path_take by done. rewrite length_take. lia.
Qed.

(** The candidate array in full, the NULL entry of an NVC_LIBPATH without
    any entry included. *)
Lemma search_paths_spec (env : option string) (search : bool) :
  search_paths env search =
    Some (take (MAX_SEARCH_PATHS - 1)
            (Some "." ::
             if search then
               match env with
               | Some e => match libpath_entries e with
                           | [] => [None]
                           | ts => Some <$> ts
                           end
               | None => []
               end ++ [Some DATADIR]
             else [])).
Proof.
  unfold search_paths.
  assert (Hp : push_path [] (Some ".") = [Some "."]) by reflexivity.
  rewrite Hp. destruct search; [|reflexivity].
  destruct env as [e|]; [|reflexivity].
  pose proof (strtok_spec e) as Hs. pose proof (strtok_None e) as Hn.
  destruct (strtok e) as [tok saved].
  rewrite libpath_loop_spec.
  2:{ destruct tok; [lia|]. rewrite (Hn saved) by done. simpl. lia. }
  cbn [mbind option_bind].
  match goal with
  | |- Some (push_path (foldl push_path ?b ?xs) ?d) = _ =>
      change (push_path (foldl push_path b xs) d)
        with (foldl push_path (foldl push_path b xs) [d]);
      rewrite <- (foldl_app push_path xs [d] b)
  end.
  rewrite push_path_foldl by (cbv; lia).
  destruct tok as [t|].
  - destruct Hs as [-> _]. reflexivity.
  - rewrite Hs, (Hn saved) by done. reflexivity.
Qed.

(** A valid candidate is accepted: the handle is built on the probed
    directory and put at the head of the registry. *)
Lemma lib_find_at_accept (nm pth : string) (st : state) :
  valid_at (fs st) nm pth = true →
  ∃ l st',
    lib_find_at nm pth st = Some (Some l, st')
    ∧ lib_init nm (probe_dir nm pth)
        (logs [SysAccess (probe_dir nm pth);
               SysAccess (probe_marker nm pth)] st) = Some (l, st')
    ∧ libs st' !! l
        = Some (Lib (path_after_init
                       (logs [SysAccess (probe_dir nm pth);
                              SysAccess (probe_marker nm pth)] st)
                       (probe_dir nm pth))
                    (upcase_name nm) [])
    ∧ io st' = io st ++ [SysAccess (probe_dir nm pth);
                         SysAccess (probe_marker nm pth);
                         SysRealpath (probe_dir nm pth)].
Proof.
  intros Hv. rewrite lib_find_at_spec, Hv.
  unfold bind at 1. rewrite lib_init_run.
  eexists _, _. split; [reflexivity|]. split; [reflexivity|]. split.
  - cbn [libs]. by rewrite lookup_insert_eq.
  - cbn [io logs]. by rewrite <- app_assoc.
Qed.

Lemma lib_find_at_reject (nm pth : string) (st : state) :
  valid_at (fs st) nm pth = false →
  lib_find_at nm pth st = Some (None, logs (reject_trace (fs st) nm pth) st).
Proof. intros Hv. by rewrite lib_find_at_spec, Hv. Qed.

(** The acceptance test of a probe: the candidate becomes a library
    exactly when the lowercased buffer names an existing entry that holds
    an entry _NVC_LIB. *)
Lemma lib_find_at_accepts_iff (nm pth : string) (st : state) :
  (∃ l st', lib_find_at nm pth st = Some (Some l, st'))
  ↔ valid_at (fs st) nm pth = true.
Proof.
  split.
  - intros (l & st' & Hrun). destruct (valid_at (fs st) nm pth) eqn:Hv; [done|].
    by rewrite lib_find_at_reject in Hrun.
  - intros Hv. destruct (lib_find_at_accept nm pth st Hv) as (l & st' & Hrun & _).
    by exists l, st'.
Qed.


Lemma find_open_notin (st : state) (name_i : ident_t) (l : list lib_t) :
  name_i ∉ omap (λ h, name <$> libs st !! h) l →
  find_open st name_i l = None.
Proof.
  induction l as [|x l IH]; simpl; [done|].
  destruct (decide _) as [Heq|Hne].
  - rewrite Heq. intros Hn. destruct Hn. by left.
  - intros Hn. apply IH. intros Hin. apply Hn.
    destruct (name <$> libs st !! x); [by right|done].
Qed.

Lemma same_memory_logs (es : list event) (st : state) :
  same_memory st (logs es st).
Proof. by repeat split. Qed.

Lemma report_loop_logs (paths : list (option string)) :
  ∀ st, ∃ es, report_loop paths st = Some (tt, logs es st).
Proof.
  induction paths as [|[p|] paths IH]; intros st; cbn [report_loop].
  - exists []. by rewrite logs_nil.
  - unfold bind, eprint, modify.
    destruct (IH (log (Stderr ("  " +:+ p)) st)) as (es & ->).
    eexists. by rewrite log_logs, logs_logs.
  - exists []. by rewrite logs_nil.
Qed.

(** The scan of the registry that opens [lib_find], on a well-formed
    state. *)
Lemma lib_find_scan (name_i : ident_t) (st : state) :
  wf st →
  find_loaded (size (nodes st)) name_i (loaded st) st =
    Some (find_open st name_i (registry st), st).
Proof.
  intros (Hl & _ & Hal). apply find_loaded_spec; [done|done|].
  by eapply is_list_length.
Qed.


End Resolver.



(** C4: with a library directory /Opt/NVC/lib that holds its marker, the
    probe of base /Opt/NVC for "Lib" tests /opt/nvc/lib, base included in
    the lowercasing, and rejects the candidate. *)
Theorem lib_find_at_lowercases_base :
  let E := test_externals in
  exists_in (fs capital_base_state) "/Opt/NVC/lib" = true
  ∧ exists_in (fs capital_base_state) "/Opt/NVC/lib/_NVC_LIB" = true
  ∧ probe_dir "Lib" "/Opt/NVC" = "/opt/nvc/lib"
  ∧ lib_find_at "Lib" "/Opt/NVC" capital_base_state =
      Some (None, logs [SysAccess "/opt/nvc/lib"] capital_base_state).
Proof.
  intros E. repeat split; vm_compute; reflexivity.
Qed.

(** ** Creation *)

Section Create.
Context `{Externals}.

Lemma lib_new_exists (nm : string) (st : state) :
  exists_in (fs st) nm = true →
  lib_new nm st =
    Some (None, logs [SysAccess nm;
                      Stderr ("file " +:+ nm +:+ " already exists")] st).
Proof.
  intros Hex. unfold lib_new, access. munfold. cbn -[lib_init String.append].
  fold (exists_in (fs st) nm). rewrite Hex.
  by rewrite !log_logs, logs_logs.
Qed.

Lemma lib_new_mkdir_fails (nm : string) (st : state) :
  exists_in (fs st) nm = false →
  mkdir_fails st nm = true →
  lib_new nm st =
    Some (None, logs [SysAccess nm; SysMkdir nm; Stderr "mkdir"] st).
Proof.
  intros Hex Hmk. unfold lib_new, access, mkdir. munfold.
  cbn -[lib_init String.append].
  fold (exists_in (fs st) nm). rewrite Hex. cbn -[lib_init String.append].
  fold (mkdir_fails st nm). rewrite Hmk. cbn.
  by rewrite !log_logs, !logs_logs.
Qed.

(** After a successful [mkdir], [lib_new] builds the handle and opens the
    marker for writing; when that fails it writes through the NULL stream. *)
Lemma lib_new_success (nm : string) (st : state) :
  exists_in (fs st) nm = false →
  mkdir_fails st nm = false →
  ∃ l st1 dir,
    lib_init nm nm (after_mkdir st nm) = Some (l, st1)
    ∧ libs st1 !! l = Some (Lib dir (upcase_name nm) [])
    ∧ dir = path_after_init (after_mkdir st nm) nm
    ∧ fs st1 = <[key nm := Dir]> (fs st)
    ∧ lib_new nm st =
        if can_write (fs st1) (marker_path dir)
        then Some (Some l, write_marker dir st1) else None.
Proof.
  intros Hex Hmk.
  pose proof (lib_init_run nm nm (after_mkdir st nm)) as Hinit.
  cbn zeta in Hinit.
  eexists _, _, _. split; [exact Hinit|]. split.
  { cbn [libs]. apply lookup_insert_eq. }
  split; [reflexivity|]. split; [reflexivity|].
  unfold lib_new, access, mkdir.
  unfold bind at 1 2. unfold modify at 1, gets at 1.
  cbn [fs log]. fold (exists_in (fs st) nm). rewrite Hex.
  unfold bind at 1 2 3. unfold modify at 1, gets at 1. cbn [fs log id].
  fold (mkdir_fails st nm). rewrite Hmk.
  unfold bind at 1 2. unfold modify at 1, ret at 1. cbn [negb].
  rewrite !log_logs, logs_logs. cbn [app].
  change (set_fs _ (logs [SysAccess nm; SysMkdir nm] st))
    with (after_mkdir st nm).
  unfold bind at 1. rewrite Hinit.
  unfold lib_fopen, fopen.
  unfold bind at 1 2. unfold deref_lib at 1. cbn [libs].
  rewrite lookup_insert_eq. cbn [path].
  unfold bind at 1 2. unfold modify at 1, gets at 1. cbn [fs log id].
  change (String.eqb "w" "w") with true. cbv iota.
  fold (marker_path (path_after_init (after_mkdir st nm) nm)).
  destruct (can_write _ _); [|reflexivity].
  unfold fwrite, fclose. munfold. unfold id.
  cbn [fs log set_fs fpath]. rewrite lookup_insert_eq.
  unfold write_marker, set_fs, log, logs.
  cbn [work loaded nodes libs fs libpath_env io fpath].
  rewrite <- !app_assoc. reflexivity.
Qed.

(** Every handle that [lib_new] returns was built this way. *)
Lemma lib_new_returns (nm : string) (st st' : state) (h : lib_t) :
  lib_new nm st = Some (Some h, st') →
  ∃ st1 dir,
    lib_init nm nm (after_mkdir st nm) = Some (h, st1)
    ∧ libs st1 !! h = Some (Lib dir (upcase_name nm) [])
    ∧ dir = path_after_init (after_mkdir st nm) nm
    ∧ fs st1 = <[key nm := Dir]> (fs st)
    ∧ exists_in (fs st) nm = false
    ∧ mkdir_fails st nm = false
    ∧ can_write (fs st1) (marker_path dir) = true
    ∧ st' = write_marker dir st1.
Proof.
  intros Hnew.
  destruct (exists_in (fs st) nm) eqn:Hex.
  { by rewrite lib_new_exists in Hnew. }
  destruct (mkdir_fails st nm) eqn:Hmk.
  { by rewrite lib_new_mkdir_fails in Hnew. }
  destruct (lib_new_success nm st Hex Hmk)
    as (l & st1 & dir & Hinit & Hl & Hdir & Hfs & Hrun).
  rewrite Hrun in Hnew.
  destruct (can_write (fs st1) (marker_path dir)) eqn:Hw; [|done].
  injection Hnew as <- <-. by exists st1, dir.
Qed.

Lemma same_memory_write_marker (dir : string) (st : state) :
  same_memory st (write_marker dir st).
Proof. by repeat split. Qed.

Lemma omap_ext_in {A B} (f g : A → option B) (l : list A) :
  (∀ x, x ∈ l → f x = g x) → omap f l = omap g l.
Proof.
  intros Hfg. apply list_omap_ext.
  induction l as [|x l IH]; constructor.
  - apply Hfg. by left.
  - apply IH. intros y Hy. apply Hfg. by right.
Qed.

(** [lib_init] puts the upcased name in front of the registered names. *)
Lemma lib_init_reg_names (nm rpath : string) (st st' : state) (l : lib_t) :
  wf st →
  lib_init nm rpath st = Some (l, st') →
  wf st' ∧ registry st' = l :: registry st
  ∧ reg_names st' = upcase_name nm :: reg_names st.
Proof.
  intros Hwf Hrun.
  destruct (lib_init_spec _ _ _ _ _ Hwf Hrun)
    as (Hwf' & Hr & Hfresh & (p & Hlibs) & _).
  split; [done|]. split; [done|].
  unfold reg_names. rewrite Hr, Hlibs. simpl.
  rewrite lookup_insert_eq. simpl. f_equal.
  apply omap_ext_in. intros h Hh.
  rewrite lookup_insert_ne; [done|]. intros <-.
  destruct Hwf as (_ & _ & Hal). apply Hal in Hh.
  rewrite Hfresh in Hh. by destruct Hh.
Qed.

Lemma marker_path_fits (nm : string) :
  String.length nm + 9 < PATH_MAX →
  marker_path nm = nm +:+ "/_NVC_LIB".
Proof.
  intros Hlen. unfold marker_path, snprintf_path. apply truncate_id.
  rewrite string_length_app. simpl. lia.
Qed.

(** A name that [lib_new] can make a directory for. *)
Lemma new_name_free (nm : string) (st : state) :
  exists_in (fs st) nm = false → mkdir_fails st nm = false →
  nm ≠ "" ∧ key nm ≠ "" ∧ resolved nm = key nm ∧ fs st !! key nm = None.
Proof.
  intros Hex Hmk.
  assert (Hcr : can_create (fs st) nm = true).
  { unfold mkdir_fails in Hmk. by destruct (can_create (fs st) nm);
      [|rewrite orb_true_r in Hmk]. }
  destruct (can_create_nonempty _ _ Hcr) as [Hne Hk].
  split; [done|]. split; [done|]. split.
  - unfold resolved. apply String.eqb_neq in Hk. by rewrite Hk.
  - unfold exists_in in Hex. apply bool_decide_eq_false in Hex.
    rewrite node_at_key in Hex by done.
    destruct (fs st !! key nm); [|done]. destruct Hex. by eexists.
Qed.

(** What [lib_new] does after a successful [mkdir] when the resolved name
    of the directory leaves room for the marker in the path buffer,
    nothing is stored where the marker goes and the system lets the marker
    be written. *)
Lemma lib_new_marker_run (nm : string) (st : state) :
  exists_in (fs st) nm = false → mkdir_fails st nm = false →
  fs st !! (key nm +:+ "/_NVC_LIB") = None →
  fopen_denied (key nm +:+ "/_NVC_LIB") = false →
  String.length (resolved nm) + 9 < PATH_MAX →
  ∃ l st1,
    lib_init nm nm (after_mkdir st nm) = Some (l, st1)
    ∧ libs st1 !! l = Some (Lib (key nm) (upcase_name nm) [])
    ∧ fs st1 = <[key nm := Dir]> (fs st)
    ∧ key (marker_path (key nm)) = key nm +:+ "/_NVC_LIB"
    ∧ lib_new nm st = Some (Some l, write_marker (key nm) st1).
Proof.
  intros Hex Hmk Hfree Hallow Hlen.
  destruct (lib_new_success nm st Hex Hmk)
    as (l & st1 & dir & Hinit & Hl & Hdir & Hfs1 & Hrun).
  destruct (new_name_free nm st Hex Hmk) as (Hne & Hk & Hres & Hnone).
  subst dir.
  assert (Hpath : path_after_init (after_mkdir st nm) nm = key nm).
  { rewrite path_after_init_resolved; [done| |lia].
    rewrite node_at_key by done. cbn [fs after_mkdir set_fs].
    rewrite lookup_insert_eq. by eexists. }
  rewrite Hpath in Hl, Hrun. rewrite Hres in Hlen.
  destruct (key_child_key nm "_NVC_LIB" eq_refl) as [Hkm Hpm].
  assert (Hfit : marker_path (key nm) = key nm +:+ "/_NVC_LIB")
    by (apply marker_path_fits; lia).
  assert (Hmne : key nm +:+ "/_NVC_LIB" ≠ key nm).
  { intros Heq. apply (f_equal String.length) in Heq.
    rewrite string_length_app in Heq. simpl in Heq. lia. }
  assert (Hmnn : key nm +:+ "/_NVC_LIB" ≠ "").
  { intros Heq. apply (f_equal String.length) in Heq.
    rewrite string_length_app in Heq. simpl in Heq. lia. }
  assert (Hw : can_write (fs st1) (marker_path (key nm)) = true).
  { rewrite Hfit. unfold can_write, can_create. rewrite Hallow.
    change (key nm +:+ "/_NVC_LIB") with (key nm +:+ "/" +:+ "_NVC_LIB").
    rewrite Hpm. rewrite node_at_key; [|done|by rewrite Hkm].
    rewrite Hkm, Hfs1.
    change (key nm +:+ "/" +:+ "_NVC_LIB") with (key nm +:+ "/_NVC_LIB").
    rewrite lookup_insert_ne, Hfree by done.
    unfold node. apply String.eqb_neq in Hk, Hmnn. rewrite Hk, Hmnn.
    by rewrite lookup_insert_eq. }
  rewrite Hw in Hrun. exists l, st1. do 3 (split; [done|]).
  split; [|done]. by rewrite Hfit.
Qed.

Lemma truncate_app (a b : string) (k : nat) :
  truncate (String.length a + k) (a +:+ b) = a +:+ truncate k b.
Proof. induction a as [|c a IH]; simpl; [done|]. by rewrite IH. Qed.

Lemma string_app_nil_r (a : string) : a +:+ "" = a.
Proof.
  induction a as [|c a IH]; [done|].
  change (String c (a +:+ "") = String c a). by rewrite IH.
Qed.

Lemma key_slash (d : string) : d ≠ "" → key (d +:+ "/") = key d.
Proof.
  intros Hd. unfold key, resolve.
  change (d +:+ "/") with (d +:+ "/" +:+ "").
  by rewrite starts_with_app, split_slash_app, foldl_app.
Qed.

(** A marker path that [snprintf] has cut leads to the directory itself or
    to a shorter name inside it, never to _NVC_LIB. *)
Lemma marker_key_cut (d : string) (k : nat) :
  key d ≠ "" → k < 9 →
  key (key d +:+ truncate k "/_NVC_LIB") ≠ key d +:+ "/_NVC_LIB".
Proof.
  intros Hd Hk.
  assert (Hne : key d ≠ key d +:+ "/_NVC_LIB").
  { intros Heq. apply (f_equal String.length) in Heq.
    rewrite string_length_app in Heq. simpl in Heq. lia. }
  destruct k as [|k].
  { cbn [truncate]. by rewrite string_app_nil_r, key_key. }
  destruct k as [|k].
  { cbn [truncate]. by rewrite key_slash, key_key. }
  do 7 (destruct k as [|k];
        [cbn [truncate];
         match goal with
         | |- key (key d +:+ String "/" ?n) ≠ _ =>
             change (key d +:+ String "/" n) with (key d +:+ "/" +:+ n);
             rewrite (proj1 (key_child_key d n eq_refl))
         end;
         intros Heq; apply string_app_inj in Heq; discriminate|]).
  lia.
Qed.

(** Past the bound of the amended claim the marker is not written under
    its name, whatever the size of the path buffer: when the resolved name
    of the new directory fits the buffer but the marker path does not,
    every handle that [lib_new] returns is on a directory without an entry
    _NVC_LIB. *)
Lemma lib_new_marker_cut (nm : string) (st st' : state) (l : lib_t) :
  lib_new nm st = Some (Some l, st') →
  fs st !! (key nm +:+ "/_NVC_LIB") = None →
  String.length (resolved nm) < PATH_MAX →
  PATH_MAX ≤ String.length (resolved nm) + 9 →
  libs st' !! l = Some (Lib (resolved nm) (upcase_name nm) [])
  ∧ ¬ ("_NVC_LIB" ∈ dir_children (fs st') (key nm)).
Proof.
  intros Hnew Hfree Hfit Hcut.
  apply lib_new_returns in Hnew
    as (st1 & dir & Hinit & Hl & Hdir & Hfs1 & Hex & Hmk & Hw & ->).
  destruct (new_name_free nm st Hex Hmk) as (Hne & Hk & Hres & Hnone).
  assert (Hpath : dir = key nm).
  { subst dir. rewrite path_after_init_resolved; [done| |done].
    rewrite node_at_key by done. cbn [fs after_mkdir set_fs].
    rewrite lookup_insert_eq. by eexists. }
  rewrite Hpath in Hl |- *. rewrite Hres in Hfit, Hcut |- *.
  split; [exact Hl|].
  intros ([v Hv] & _)%dir_children_elem.
  cbn [fs write_marker set_fs] in Hv.
  assert (HK : key (marker_path (key nm)) ≠ key nm +:+ "/_NVC_LIB").
  { unfold marker_path, snprintf_path.
    replace (PATH_MAX - 1)
      with (String.length (key nm) + (PATH_MAX - 1 - String.length (key nm)))
      by lia.
    rewrite truncate_app. apply marker_key_cut; [done|lia]. }
  assert (Hmne : key nm ≠ key nm +:+ "/_NVC_LIB").
  { intros Heq. apply (f_equal String.length) in Heq.
    rewrite string_length_app in Heq. simpl in Heq. lia. }
  change (key nm +:+ "/" +:+ "_NVC_LIB") with (key nm +:+ "/_NVC_LIB") in Hv.
  rewrite !lookup_insert_ne, Hfs1, lookup_insert_ne, Hfree in Hv by done.
  done.
Qed.

(** C8 (as amended): [lib_new] returns no library, with the memory of the
    process and the file system as they were, when the name exists or
    [mkdir] fails; otherwise, when the resolved name of the directory
    followed by /_NVC_LIB fits the path buffer and the system lets that
    file be written, it returns a handle that is registered under that
    resolved name, the directory exists, and the marker _NVC_LIB holding
    the package string is an entry of it. *)
Theorem lib_new_outcomes (nm : string) (st : state) :
  wf st →
  (exists_in (fs st) nm = true ∨ mkdir_fails st nm = true →
   ∃ st', lib_new nm st = Some (None, st')
          ∧ same_memory st st' ∧ registry st' = registry st
          ∧ fs st' = fs st)
  ∧ (exists_in (fs st) nm = false → mkdir_fails st nm = false →
     fs_tree (fs st) →
     String.length (resolved nm) + 9 < PATH_MAX →
     fopen_denied (resolved nm +:+ "/_NVC_LIB") = false →
     ∃ l st', lib_new nm st = Some (Some l, st')
              ∧ node_at (fs st') nm = Some Dir
              ∧ node_at (fs st') (nm +:+ "/_NVC_LIB")
                  = Some (File (PACKAGE_STRING +:+ newline))
              ∧ ("_NVC_LIB" ∈ dir_children (fs st') (key nm))
              ∧ registry st' = l :: registry st
              ∧ libs st' !! l
                  = Some (Lib (resolved nm) (upcase_name nm) [])).
Proof.
  intros Hwf. split.
  - intros Hfail. destruct (exists_in (fs st) nm) eqn:Hex.
    + rewrite lib_new_exists by done. eexists. split; [done|].
      split; [apply same_memory_logs|done].
    + destruct Hfail as [|Hmk]; [done|].
      rewrite lib_new_mkdir_fails by done. eexists. split; [done|].
      split; [apply same_memory_logs|done].
  - intros Hex Hmk Htree Hlen Hallow.
    destruct (new_name_free nm st Hex Hmk) as (Hne & Hk & Hres & Hnone).
    rewrite Hres in Hallow.
    assert (Hfree : fs st !! (key nm +:+ "/_NVC_LIB") = None).
    { destruct (fs st !! (key nm +:+ "/_NVC_LIB")) as [v|] eqn:Hv; [|done].
      pose proof (fs_tree_child (fs st) nm "_NVC_LIB" Htree eq_refl
                    (ex_intro _ v Hv)) as Hd.
      unfold node in Hd. apply String.eqb_neq in Hk. rewrite Hk in Hd.
      by rewrite Hnone in Hd. }
    destruct (lib_new_marker_run nm st Hex Hmk Hfree Hallow Hlen)
      as (l & st1 & Hinit & Hl & Hfs1 & Hkm & Hrun).
    assert (Hwf1 : wf (after_mkdir st nm)).
    { eapply same_memory_wf; [|exact Hwf]. by repeat split. }
    destruct (lib_init_spec _ _ _ _ _ Hwf1 Hinit) as (_ & Hr & _).
    assert (Hmne : key nm +:+ "/_NVC_LIB" ≠ key nm).
    { intros Heq. apply (f_equal String.length) in Heq.
      rewrite string_length_app in Heq. simpl in Heq. lia. }
    assert (Hmarker : fs (write_marker (key nm) st1) !! (key nm +:+ "/_NVC_LIB")
                      = Some (File (PACKAGE_STRING +:+ newline))).
    { cbn [fs write_marker set_fs]. rewrite Hkm. apply lookup_insert_eq. }
    exists l, (write_marker (key nm) st1). split; [done|].
    split; [|split; [|split; [|split]]].
    + rewrite node_at_key by done. cbn [fs write_marker set_fs].
      rewrite Hkm, !lookup_insert_ne, Hfs1 by done.
      apply lookup_insert_eq.
    + change (nm +:+ "/_NVC_LIB") with (nm +:+ "/" +:+ "_NVC_LIB").
      rewrite node_at_child by done. exact Hmarker.
    + apply dir_children_elem. split; [|done]. by eexists.
    + by rewrite (same_memory_registry _ _ (same_memory_write_marker _ st1)).
    + rewrite Hres. exact Hl.
Qed.

End Create.

Lemma lib_new_outcomes_witness :
  let E := test_externals in
  ∃ l st', lib_new "newlib" files_state = Some (Some l, st')
           ∧ node_at (fs st') "newlib" = Some Dir
           ∧ node_at (fs st') ("newlib" +:+ "/_NVC_LIB")
               = Some (File (PACKAGE_STRING +:+ newline))
           ∧ ("_NVC_LIB" ∈ dir_children (fs st') (key "newlib"))
           ∧ registry st' = l :: registry files_state
           ∧ libs st' !! l
               = Some (Lib (resolved "newlib") (upcase_name "newlib") []).
Proof.
  intros E.
  refine (proj2 (lib_new_outcomes "newlib" files_state _) _ _ _ _ _).
  - apply wfb_wf. vm_compute. reflexivity.
  - vm_compute. reflexivity.
  - vm_compute. reflexivity.
  - unfold fs_tree, files_state. cbn [fs].
    repeat (apply map_Forall_insert_2; [vm_compute; reflexivity|]).
    apply map_Forall_empty.
  - vm_compute. lia.
  - vm_compute. reflexivity.
Defined.

(** C8, the claim as written fails: with a path buffer of 24 bytes, in
    /home/nvc, [lib_new] of "library" returns a registered handle on the
    new directory /home/nvc/library, but the marker path is cut to 23
    characters by [snprintf] and the directory holds _NVC_ instead of
    _NVC_LIB.  The buffer is small to keep the names short: by
    [lib_new_marker_cut] the same happens with a buffer of any size. *)
Lemma lib_new_marker_truncated :
  let E := short_externals in
  ∃ l st',
    lib_new "library" home_state = Some (Some l, st')
    ∧ node_at (fs st') "library" = Some Dir
    ∧ registry st' = [l]
    ∧ libs st' !! l = Some (Lib "/home/nvc/library" "LIBRARY" [])
    ∧ dir_children (fs st') "/home/nvc/library" = ["_NVC_"]
    ∧ ¬ ("_NVC_LIB" ∈ dir_children (fs st') "/home/nvc/library").
Proof.
  intros E. eexists _, _.
  split; [vm_compute; reflexivity|].
  split; [vm_compute; reflexivity|].
  split; [vm_compute; reflexivity|].
  split; [vm_compute; reflexivity|].
  split; [vm_compute; reflexivity|].
  intros Hin. vm_compute in Hin.
  apply elem_of_cons in Hin as [Hin|Hin]; [done|].
  by apply elem_of_nil in Hin.
Qed.

(** ** Uniqueness of the registered names *)

Section Unique.
Context `{Externals}.

Lemma probe_loop_unique (nm : string) (paths : list (option string)) :
  ∀ st r st',
    wf st → registry_unique st → upcase_name nm ∉ reg_names st →
    probe_loop nm paths st = Some (r, st') →
    wf st' ∧ registry_unique st'.
Proof.
  induction paths as [|[p|] paths IH]; intros st r st' Hwf Hu Hnew;
    cbn [probe_loop]; try (by intros [= _ <-]).
  unfold bind at 1. rewrite lib_find_at_spec.
  destruct (valid_at (fs st) nm p).
  - unfold bind at 1.
    destruct (lib_init nm (probe_dir nm p) _) as [[l st1]|] eqn:Hinit; [|done].
    intros [= _ <-].
    apply lib_init_reg_names in Hinit as (Hwf1 & _ & Hn).
    + split; [done|]. unfold registry_unique. rewrite Hn.
      apply NoDup_cons. split; [|exact Hu].
      by rewrite (same_memory_reg_names _ _ (same_memory_logs _ st)).
    + eapply same_memory_wf; [apply same_memory_logs|done].
  - apply IH.
    + eapply same_memory_wf; [apply same_memory_logs|done].
    + unfold registry_unique.
      by rewrite (same_memory_reg_names _ _ (same_memory_logs _ st)).
    + by rewrite (same_memory_reg_names _ _ (same_memory_logs _ st)).
Qed.

Lemma same_memory_unique (st st' : state) :
  same_memory st st' → wf st → registry_unique st →
  wf st' ∧ registry_unique st'.
Proof.
  intros Hs Hwf Hu. split; [by eapply same_memory_wf|].
  unfold registry_unique. by rewrite (same_memory_reg_names _ _ Hs).
Qed.

(** C1 (as amended): [lib_find] keeps the registered names distinct;
    [lib_new] and [lib_tmp] put the upcased name in front of the registered
    names without looking, so they keep the names distinct when that name
    is not registered yet. *)
Theorem registry_unique_preserved (nm : string) (st : state) :
  wf st → registry_unique st →
  (∀ verbose search r st',
     lib_find nm verbose search st = Some (r, st') →
     wf st' ∧ registry_unique st')
  ∧ (∀ r st',
       lib_new nm st = Some (r, st') →
       wf st'
       ∧ (∀ l, r = Some l → reg_names st' = upcase_name nm :: reg_names st)
       ∧ (upcase_name nm ∉ reg_names st → registry_unique st'))
  ∧ (∀ l st',
       lib_tmp st = Some (l, st') →
       wf st'
       ∧ reg_names st' = upcase_name "work" :: reg_names st
       ∧ (upcase_name "work" ∉ reg_names st → registry_unique st')).
Proof.
  intros Hwf Hu. split; [|split].
  - intros verbose search r st'. unfold lib_find.
    unfold bind at 1 2 3. unfold gets at 1 2.
    rewrite lib_find_scan by done.
    destruct (find_open st (upcase_name nm) (registry st)) as [h|] eqn:Hopen.
    { by intros [= _ <-]. }
    apply find_open_None in Hopen. fold (reg_names st) in Hopen.
    unfold bind at 1. unfold gets at 1. rewrite search_paths_spec.
    unfold bind at 1.
    destruct (probe_loop nm _ st) as [[[l|] st1]|] eqn:Hprobe; [| |done].
    + intros [= _ <-]. by eapply probe_loop_unique.
    + apply probe_loop_unique in Hprobe as [Hwf1 Hu1]; [|done..].
      destruct verbose.
      * unfold bind at 1 2, eprint at 1, modify at 1.
        match goal with
        | |- context [report_loop ?ps ?s] =>
            destruct (report_loop_logs ps s) as (es & ->)
        end.
        intros [= _ <-]. apply (same_memory_unique st1); [|done..].
        rewrite log_logs, logs_logs. apply same_memory_logs.
      * by intros [= _ <-].
  - intros r st'.
    assert (Hlogs : ∀ es, wf (logs es st) ∧ registry_unique (logs es st))
      by (intros es; apply (same_memory_unique st);
          [apply same_memory_logs|done..]).
    destruct (exists_in (fs st) nm) eqn:Hex.
    { rewrite lib_new_exists by done. intros [= <- <-].
      destruct (Hlogs [SysAccess nm;
                       Stderr ("file " +:+ nm +:+ " already exists")]).
      split; [done|]. split; [by intros ? [=]|done]. }
    destruct (mkdir_fails st nm) eqn:Hmk.
    { rewrite lib_new_mkdir_fails by done. intros [= <- <-].
      destruct (Hlogs [SysAccess nm; SysMkdir nm; Stderr "mkdir"]).
      split; [done|]. split; [by intros ? [=]|done]. }
    destruct (lib_new_success nm st Hex Hmk)
      as (l & st1 & dir & Hinit & _ & _ & _ & ->).
    destruct (can_write (fs st1) (marker_path dir)); [|done].
    intros [= <- <-].
    assert (Hm : same_memory st (after_mkdir st nm)) by by repeat split.
    apply lib_init_reg_names in Hinit as (Hwf1 & _ & Hn);
      [|by eapply same_memory_wf].
    rewrite (same_memory_reg_names _ _ Hm) in Hn.
    pose proof (same_memory_write_marker dir st1) as Hm1.
    split; [by eapply same_memory_wf|].
    rewrite (same_memory_reg_names _ _ Hm1), Hn. split; [done|].
    intros Hnew. unfold registry_unique.
    rewrite (same_memory_reg_names _ _ Hm1), Hn.
    apply NoDup_cons. by split.
  - intros l st' Hrun. unfold lib_tmp in Hrun.
    apply lib_init_reg_names in Hrun as (Hwf1 & _ & Hn); [|done].
    split; [done|]. split; [done|].
    intros Hnew. unfold registry_unique. rewrite Hn.
    apply NoDup_cons. by split.
Qed.

End Unique.

Lemma registry_unique_preserved_witness :
  let E := test_externals in
  ∃ h1 st1 h2 st2 h3 st3,
    lib_find "Foo" false false open_disk_state = Some (Some h1, st1)
    ∧ reg_names st1 = ["FOO"; "MYLIB"]
    ∧ registry_unique st1
    ∧ lib_new "bar" st1 = Some (Some h2, st2)
    ∧ reg_names st2 = ["BAR"; "FOO"; "MYLIB"]
    ∧ registry_unique st2
    ∧ lib_tmp st2 = Some (h3, st3)
    ∧ reg_names st3 = ["WORK"; "BAR"; "FOO"; "MYLIB"]
    ∧ registry_unique st3.
Proof.
  intros E.
  assert (Hwf0 : wf open_disk_state) by (apply wfb_wf; vm_compute; reflexivity).
  assert (Hu0 : registry_unique open_disk_state)
    by (vm_compute; apply NoDup_singleton).
  destruct (lib_find "Foo" false false open_disk_state)
    as [[[h1|] st1]|] eqn:H1; [|vm_compute in H1; discriminate..].
  destruct (proj1 (registry_unique_preserved "Foo" open_disk_state Hwf0 Hu0)
              false false _ _ H1) as [Hwf1 Hu1].
  assert (E1 : reg_names st1 = ["FOO"; "MYLIB"]).
  { vm_compute in H1. injection H1 as _ <-. vm_compute. reflexivity. }
  destruct (lib_new "bar" st1) as [[[h2|] st2]|] eqn:H2;
    [|exfalso; vm_compute in H1; injection H1 as _ <-;
      vm_compute in H2; discriminate..].
  destruct (proj1 (proj2 (registry_unique_preserved "bar" st1 Hwf1 Hu1))
              _ _ H2) as (Hwf2 & Hn2 & Hu2).
  specialize (Hn2 h2 eq_refl). rewrite E1 in Hn2.
  assert (Hu2' : registry_unique st2).
  { apply Hu2. rewrite E1. vm_compute.
    intros Hin. repeat (apply elem_of_cons in Hin as [Hin|Hin]; [done|]).
    by apply elem_of_nil in Hin. }
  destruct (lib_tmp st2) as [[h3 st3]|] eqn:H3;
    [|exfalso; unfold lib_tmp in H3; by rewrite lib_init_run in H3].
  destruct (proj2 (proj2 (registry_unique_preserved "work" st2 Hwf2 Hu2'))
              _ _ H3) as (Hwf3 & Hn3 & Hu3).
  rewrite Hn2 in Hn3.
  exists h1, st1, h2, st2, h3, st3.
  split; [done|]. split; [done|]. split; [done|]. split; [done|].
  split; [done|]. split; [done|]. split; [done|]. split; [exact Hn3|].
  apply Hu3. rewrite Hn2. vm_compute.
  intros Hin. repeat (apply elem_of_cons in Hin as [Hin|Hin]; [done|]).
  by apply elem_of_nil in Hin.
Defined.

(** C1, the claim as written fails: two calls of [lib_tmp] leave two
    registered handles that are both named WORK. *)
Lemma lib_tmp_twice_not_unique :
  let E := test_externals in
  ∃ st1 st2,
    lib_tmp init_state = Some (0, st1)
    ∧ lib_tmp st1 = Some (1, st2)
    ∧ registry_unique st1
    ∧ registry st2 = [1; 0]
    ∧ reg_names st2 = ["WORK"; "WORK"]
    ∧ ¬ registry_unique st2.
Proof.
  intros E. eexists _, _.
  split; [vm_compute; reflexivity|].
  split; [vm_compute; reflexivity|].
  split; [|split; [vm_compute; reflexivity|split; [vm_compute; reflexivity|]]].
  - unfold registry_unique. vm_compute. apply NoDup_singleton.
  - unfold registry_unique.
    match goal with |- ¬ NoDup ?l =>
      replace l with ["WORK"; "WORK"] by (vm_compute; reflexivity) end.
    intros [Hn _]%NoDup_cons. apply Hn. by left.
Qed.

(** ** The unit cache *)

Section Cache.
Context `{Externals}.

Lemma scan_units_drop (ident : ident_t) (us : list lib_unit) (k : nat) :
  ∀ n, n + k = length us →
       scan_units ident us n k = first_match ident (drop n us).
Proof.
  induction k as [|k IH]; intros n Hn; simpl.
  - by rewrite drop_ge by lia.
  - destruct (lookup_lt_is_Some_2 us n ltac:(lia)) as [e He].
    rewrite He, (drop_S _ _ _ He). simpl.
    destruct (decide _); [done|]. apply IH. lia.
Qed.

Lemma scan_units_first_match (ident : ident_t) (us : list lib_unit) :
  scan_units ident us 0 (length us) = first_match ident us.
Proof. by rewrite scan_units_drop. Qed.

(** [first_match] is the earliest entry that reports the identifier. *)
Lemma first_match_earliest (ident : ident_t) (us : list lib_unit) t :
  first_match ident us = Some t →
  ∃ i e, us !! i = Some e ∧ top e = t ∧ tree_ident (top e) = ident
         ∧ ∀ j e', j < i → us !! j = Some e' → tree_ident (top e') ≠ ident.
Proof.
  induction us as [|e us IH]; simpl; [done|].
  destruct (decide (tree_ident (top e) = ident)) as [Heq|Hne].
  - intros [= <-]. exists 0, e. repeat split; try done. intros j e' Hj. lia.
  - intros (i & e0 & Hi & Ht & Hid & Hearlier)%IH.
    exists (S i), e0. repeat split; try done.
    intros [|j] e' Hj; simpl; [by intros [= <-]|].
    apply Hearlier. lia.
Qed.

Lemma first_match_None (ident : ident_t) (us : list lib_unit) :
  first_match ident us = None ↔
  ∀ e, e ∈ us → tree_ident (top e) ≠ ident.
Proof.
  induction us as [|e us IH]; simpl.
  - split; [|done]. intros _ e He. by apply elem_of_nil in He.
  - destruct (decide (tree_ident (top e) = ident)) as [Heq|Hne].
    + split; [done|]. intros Hall. destruct (Hall e); [by left|done].
    + rewrite IH. split.
      * intros Hall e' [->|He']%elem_of_cons; [done|by apply Hall].
      * intros Hall e' He'. apply Hall. by right.
Qed.

Lemma first_match_app (ident : ident_t) (us vs : list lib_unit) :
  first_match ident (us ++ vs) =
    match first_match ident us with
    | Some t => Some t
    | None => first_match ident vs
    end.
Proof.
  induction us as [|e us IH]; simpl; [done|]. by destruct (decide _).
Qed.

(** A hit in the cache: no system call, no change of state. *)
Lemma lib_get_cached (h : lib_t) (ident : ident_t) (st : state) l t :
  libs st !! h = Some l →
  first_match ident (units l) = Some t →
  lib_get h ident st = Some (Some t, st).
Proof.
  intros Hl Hm. unfold lib_get, lib_get_ctx. munfold. rewrite Hl.
  unfold n_units. by rewrite scan_units_first_match, Hm.
Qed.

(** A temporary library answers from the cache alone. *)
Lemma lib_get_temporary (h : lib_t) (ident : ident_t) (st : state) l :
  libs st !! h = Some l →
  path l = "" →
  lib_get h ident st = Some (first_match ident (units l), st).
Proof.
  intros Hl Hp. unfold lib_get, lib_get_ctx. munfold. rewrite Hl.
  unfold n_units. rewrite scan_units_first_match, Hp.
  by destruct (first_match ident (units l)).
Qed.

(** [lib_put] appends a dirty entry; it aborts on a full cache. *)
Lemma lib_put_aux_run (h : lib_t) (u : tree_t) (d : bool) (st : state) l :
  libs st !! h = Some l →
  lib_put_aux h u d st =
    if n_units l <? MAX_UNITS
    then Some (tt, set_libs (<[h := Lib (path l) (name l)
                                        (units l ++ [LibUnit u d])]> (libs st)) st)
    else None.
Proof.
  intros Hl. unfold lib_put_aux. munfold. rewrite Hl.
  by destruct (n_units l <? MAX_UNITS).
Qed.

(** C7: [lib_put] appends an entry with the dirty flag set whatever the
    cache holds; [lib_get] returns the unit of the earliest entry that
    reports the identifier, without touching the state; after two
    insertions under one identifier the cache holds both units and the
    earliest unit of that identifier is returned, which is the first of the
    two when the cache held none before. *)
Theorem lib_get_first_match (h : lib_t) (st : state) (l : lib) :
  libs st !! h = Some l →
  (∀ u, n_units l < MAX_UNITS →
        ∃ st', lib_put h u st = Some (tt, st')
               ∧ cache st' h = units l ++ [LibUnit u true]
               ∧ fs st' = fs st ∧ io st' = io st)
  ∧ (∀ ident t,
       first_match ident (units l) = Some t →
       lib_get h ident st = Some (Some t, st)
       ∧ ∃ i e, units l !! i = Some e ∧ top e = t
                ∧ tree_ident (top e) = ident
                ∧ ∀ j e', j < i → units l !! j = Some e' →
                          tree_ident (top e') ≠ ident)
  ∧ (∀ u1 u2,
       tree_ident u2 = tree_ident u1 →
       n_units l + 2 ≤ MAX_UNITS →
       ∃ st2, (lib_put h u1 ;;; lib_put h u2) st = Some (tt, st2)
              ∧ cache st2 h = units l ++ [LibUnit u1 true; LibUnit u2 true]
              ∧ lib_get h (tree_ident u1) st2 =
                  Some (Some (default u1 (first_match (tree_ident u1)
                                            (units l))), st2)
              ∧ (first_match (tree_ident u1) (units l) = None →
                 lib_get h (tree_ident u1) st2 = Some (Some u1, st2))).
Proof.
  intros Hl. split; [|split].
  - intros u Hn. unfold lib_put. rewrite (lib_put_aux_run _ _ _ _ l Hl).
    rewrite (proj2 (Nat.ltb_lt _ _) Hn). eexists. split; [done|].
    unfold cache. cbn [libs set_libs]. by rewrite lookup_insert_eq.
  - intros ident t Hm. split; [by eapply lib_get_cached|].
    by apply first_match_earliest.
  - intros u1 u2 Hid Hn. unfold lib_put, bind.
    rewrite (lib_put_aux_run _ _ _ _ l Hl).
    rewrite (proj2 (Nat.ltb_lt (n_units l) MAX_UNITS) ltac:(lia)).
    erewrite lib_put_aux_run by (cbn [libs set_libs]; apply lookup_insert_eq).
    unfold n_units at 1. cbn [units]. rewrite length_app. cbn [length].
    rewrite (proj2 (Nat.ltb_lt _ MAX_UNITS)) by (unfold n_units in Hn; lia).
    eexists. split; [done|]. cbn [path name units set_libs libs].
    rewrite insert_insert_eq, <- app_assoc.
    match goal with |- cache ?s _ = _ ∧ _ => set (st2 := s) end.
    assert (Hget : lib_get h (tree_ident u1) st2 =
                     Some (Some (default u1 (first_match (tree_ident u1)
                                               (units l))), st2)).
    { eapply lib_get_cached; [cbn [libs set_libs]; apply lookup_insert_eq|].
      cbn [units]. rewrite first_match_app.
      destruct (first_match (tree_ident u1) (units l)); [done|].
      simpl. by rewrite decide_True. }
    split; [|split; [exact Hget|]].
    + unfold cache. subst st2. cbn [libs set_libs].
      by rewrite lookup_insert_eq.
    + intros Hnone. by rewrite Hget, Hnone.
Qed.

(** *** [lib_save] *)

Lemma state_eq (st st' : state) :
  work st' = work st → loaded st' = loaded st → nodes st' = nodes st →
  libs st' = libs st → fs st' = fs st → libpath_env st' = libpath_env st →
  io st' = io st → st' = st.
Proof. destruct st, st'. simpl. by intros -> -> -> -> -> -> ->. Qed.

Lemma insert_middle {A} (pre post : list A) (e x : A) :
  <[length pre := x]> (pre ++ e :: post) = pre ++ x :: post.
Proof. induction pre as [|y pre IH]; simpl; [done|]. by rewrite IH. Qed.

(** Opening files for writing keeps the other files as easy or as hard to
    open for writing as they were. *)
Lemma can_write_nonempty (m : gmap string fnode) (p : string) :
  can_write m p = true →
  p ≠ "" ∧ key p ≠ "" ∧ is_dir (node m (parent_key p)) = true
  ∧ is_dir (m !! key p) = false.
Proof.
  unfold can_write. intros [[Hc Hd]%andb_prop _]%andb_prop.
  destruct (can_create_nonempty _ _ Hc) as [Hp Hk].
  split; [done|]. split; [done|]. split.
  - unfold can_create in Hc. by apply andb_prop in Hc as [_ ?].
  - rewrite node_at_key in Hd by done. by apply negb_true_iff in Hd.
Qed.

Lemma can_write_allowed (m : gmap string fnode) (p : string) :
  can_write m p = true → fopen_denied p = false.
Proof.
  unfold can_write. intros [_ Hd]%andb_prop. by apply negb_true_iff in Hd.
Qed.

Lemma can_write_insert_file (m : gmap string fnode) (p q c : string) :
  can_write m p = true →
  can_write (<[key p := File c]> m) q = can_write m q.
Proof.
  intros (Hp & Hk & _ & Hnd)%can_write_nonempty.
  assert (Hnode : ∀ k, is_dir (node (<[key p := File c]> m) k)
                       = is_dir (node m k)).
  { intros k. unfold node. destruct (String.eqb k ""); [done|].
    destruct (decide (k = key p)) as [->|Hne].
    - by rewrite lookup_insert_eq, Hnd.
    - by rewrite lookup_insert_ne. }
  unfold can_write, can_create, node_at.
  destruct (String.eqb q ""); [done|]. by rewrite !Hnode.
Qed.

(** Writing one entry and clearing its flag; a file that cannot be opened
    is written through the NULL stream. *)
Lemma save_entry_run (h : lib_t) (st : state) (l l' : lib) (nm data : string) :
  libs st !! h = Some l →
  let p := snprintf_path (path l) nm in
  (f <- lib_fopen h nm "w" ;;
   fwrite f data ;;; fclose f ;;; store_lib h l') st =
  if can_write (fs st) p then
    Some (tt, State (work st) (loaded st) (nodes st) (<[h := l']> (libs st))
                    (<[key p := File data]> (<[key p := File ""]> (fs st)))
                    (libpath_env st)
                    (io st ++ [SysFopen p "w"; SysFwrite p data; SysFclose p]))
  else None.
Proof.
  intros Hl p. unfold lib_fopen, fopen.
  unfold bind at 1 2. unfold deref_lib at 1. rewrite Hl.
  unfold bind at 1 2. unfold modify at 1, gets at 1. cbn [fs log id].
  change (String.eqb "w" "w") with true. cbv iota. fold p.
  destruct (can_write (fs st) p); [|reflexivity].
  unfold fwrite, fclose. munfold. unfold id.
  cbn [fs log set_fs fpath]. rewrite lookup_insert_eq.
  unfold set_libs, set_fs, log.
  cbn [work loaded nodes libs fs libpath_env io fpath].
  by rewrite <- !app_assoc.
Qed.

Lemma can_write_write_unit (dir : string) (m : gmap string fnode)
    (e : lib_unit) (q : string) :
  can_write m (unit_path dir e) = true →
  can_write (write_unit dir m e) q = can_write m q.
Proof.
  intros Hw. unfold write_unit. fold (unit_path dir e).
  rewrite insert_insert_eq. by apply can_write_insert_file.
Qed.

Lemma lib_save_loop_spec (h : lib_t) (dir : string) (nmi : ident_t)
    (post : list lib_unit) :
  ∀ pre st,
    libs st !! h = Some (Lib dir nmi (pre ++ post)) →
    Forall (λ e, can_write (fs st) (unit_path dir e) = true)
           (dirty_units post) →
    ∃ st',
      lib_save_loop h (length pre) (length post) st = Some (tt, st')
      ∧ same_memory_but h st st'
      ∧ libs st' = <[h := Lib dir nmi (pre ++ (clean <$> post))]> (libs st)
      ∧ fs st' = foldl (write_unit dir) (fs st) (dirty_units post)
      ∧ io st' = io st ++ flat_map (save_trace dir) (dirty_units post).
Proof.
  induction post as [|e post IH]; intros pre st Hl Hw.
  - exists st. split; [done|]. split; [by repeat split|].
    split; [|split; [done|by rewrite app_nil_r]].
    symmetry. by apply insert_id.
  - cbn [length lib_save_loop]. unfold bind at 1, deref_lib at 1.
    rewrite Hl. cbn [units]. rewrite list_lookup_middle by done.
    unfold bind at 1. destruct (dirty e) eqn:Hd.
    + unfold dirty_units in Hw. rewrite filter_cons_True in Hw by done.
      apply Forall_cons in Hw as [Hwe Hw].
      erewrite (save_entry_run h st _ _ _ _ Hl). cbn [path name units].
      fold (unit_path dir e). rewrite Hwe. rewrite insert_middle.
      match goal with
      | |- context [lib_save_loop _ _ _ ?s] => set (st1 := s)
      end.
      destruct (IH (pre ++ [clean e]) st1)
        as (st' & Hrun & Hm & Hlibs & Hfs & Hio).
      { subst st1. cbn [libs]. rewrite lookup_insert_eq.
        by rewrite <- app_assoc. }
      { subst st1. cbn [fs]. eapply Forall_impl; [exact Hw|].
        intros e' He'. cbn beta.
        change (<[key (unit_path dir e) := File (tree_write (top e))]>
                  (<[key (unit_path dir e) := File ""]> (fs st)))
          with (write_unit dir (fs st) e).
        by rewrite can_write_write_unit. }
      rewrite length_app, Nat.add_1_r in Hrun.
      exists st'. split; [exact Hrun|].
      unfold dirty_units in *. rewrite filter_cons_True by done.
      split; [|split; [|split]].
      * destruct Hm as (? & ? & ? & ? & Hother). subst st1.
        repeat split; try done. intros h' Hne.
        rewrite Hother by done. cbn [libs]. by rewrite lookup_insert_ne.
      * rewrite Hlibs. subst st1. cbn [libs].
        by rewrite insert_insert_eq, <- app_assoc.
      * rewrite Hfs. by subst st1.
      * rewrite Hio. subst st1. cbn [io flat_map save_trace].
        by rewrite <- app_assoc.
    + unfold dirty_units in Hw.
      rewrite filter_cons_False in Hw by (by rewrite Hd).
      unfold ret at 1.
      destruct (IH (pre ++ [e]) st) as (st' & Hrun & Hm & Hlibs & Hfs & Hio).
      { by rewrite <- app_assoc. }
      { done. }
      rewrite length_app, Nat.add_1_r in Hrun.
      exists st'. split; [exact Hrun|].
      unfold dirty_units in *.
      rewrite filter_cons_False by (by rewrite Hd).
      split; [done|]. split; [|done].
      rewrite Hlibs, <- app_assoc. cbn [fmap list_fmap app].
      destruct e as [t d]. simpl in Hd. subst d. done.
Qed.

(** The loop returns only when every dirty entry could be written. *)
Lemma lib_save_loop_returns (h : lib_t) (dir : string) (nmi : ident_t)
    (post : list lib_unit) :
  ∀ pre st st',
    libs st !! h = Some (Lib dir nmi (pre ++ post)) →
    lib_save_loop h (length pre) (length post) st = Some (tt, st') →
    Forall (λ e, can_write (fs st) (unit_path dir e) = true)
           (dirty_units post).
Proof.
  induction post as [|e post IH]; intros pre st st' Hl; [by constructor|].
  cbn [length lib_save_loop]. unfold bind at 1, deref_lib at 1.
  rewrite Hl. cbn [units]. rewrite list_lookup_middle by done.
  unfold bind at 1. unfold dirty_units. destruct (dirty e) eqn:Hd.
  - rewrite filter_cons_True by done.
    erewrite (save_entry_run h st _ _ _ _ Hl). cbn [path name units].
    fold (unit_path dir e).
    destruct (can_write (fs st) (unit_path dir e)) eqn:Hwe; [|done].
    rewrite insert_middle. intros Hrun.
    replace (S (length pre)) with (length (pre ++ [clean e])) in Hrun
      by (rewrite length_app; simpl; lia).
    apply IH in Hrun.
    2:{ cbn [libs]. rewrite lookup_insert_eq. by rewrite <- app_assoc. }
    constructor; [done|]. eapply Forall_impl; [exact Hrun|].
    intros e' He'. cbn beta in He'. cbn [fs] in He'.
    change (<[key (unit_path dir e) := File (tree_write (top e))]>
              (<[key (unit_path dir e) := File ""]> (fs st)))
      with (write_unit dir (fs st) e) in He'.
    by rewrite can_write_write_unit in He'.
  - rewrite filter_cons_False by (by rewrite Hd).
    unfold ret at 1. intros Hrun.
    replace (S (length pre)) with (length (pre ++ [e])) in Hrun
      by (rewrite length_app; simpl; lia).
    apply IH in Hrun; [done|]. by rewrite <- app_assoc.
Qed.

Lemma dirty_units_clean (us : list lib_unit) :
  dirty_units (clean <$> us) = [].
Proof.
  induction us as [|e us IH]; [done|]. unfold dirty_units in *.
  cbn [fmap list_fmap]. rewrite filter_cons_False; [exact IH|]. done.
Qed.

Lemma clean_clean (us : list lib_unit) : clean <$> (clean <$> us) = clean <$> us.
Proof. induction us as [|e us IH]; [done|]. cbn. by f_equal. Qed.

(** C6: [lib_save] returns exactly when the file of every dirty entry can
    be opened for writing.  Its file operations are then an open, a write
    and a close for each dirty entry in cache order and nothing else;
    afterwards every entry is clean, and a second [lib_save] changes
    nothing at all: no system call, no file, no flag. *)
Theorem lib_save_idempotent (h : lib_t) (st : state) (l : lib) :
  libs st !! h = Some l →
  ((∀ e, e ∈ dirty_units (units l) →
         can_write (fs st) (unit_path (path l) e) = true) →
   ∃ st',
     lib_save h st = Some (tt, st')
     ∧ io st' = io st ++ flat_map (save_trace (path l)) (dirty_units (units l))
     ∧ fs st' = foldl (write_unit (path l)) (fs st) (dirty_units (units l))
     ∧ libs st' !! h = Some (Lib (path l) (name l) (clean <$> units l))
     ∧ same_memory_but h st st'
     ∧ lib_save h st' = Some (tt, st'))
  ∧ (∀ st', lib_save h st = Some (tt, st') →
            ∀ e, e ∈ dirty_units (units l) →
                 can_write (fs st) (unit_path (path l) e) = true).
Proof.
  intros Hl. destruct l as [dir nmi us]. cbn [path name units]. split.
  - intros Hw. apply Forall_forall in Hw.
    destruct (lib_save_loop_spec h dir nmi us [] st Hl Hw)
      as (st' & Hrun & Hm & Hlibs & Hfs & Hio).
    assert (Hl' : libs st' !! h = Some (Lib dir nmi (clean <$> us)))
      by (rewrite Hlibs; apply lookup_insert_eq).
    exists st'.
    split; [|split; [done|split; [done|split; [done|split; [done|]]]]].
    + unfold lib_save, bind. unfold deref_lib at 1. rewrite Hl. exact Hrun.
    + destruct (lib_save_loop_spec h dir nmi (clean <$> us) [] st' Hl')
        as (st2 & Hrun2 & Hm2 & Hlibs2 & Hfs2 & Hio2).
      { rewrite dirty_units_clean. constructor. }
      unfold lib_save, bind. unfold deref_lib at 1. rewrite Hl'.
      unfold n_units. cbn [units]. cbn [length] in Hrun2. rewrite Hrun2.
      do 2 f_equal. rewrite dirty_units_clean in Hfs2, Hio2.
      destruct Hm2 as (? & ? & ? & ? & _).
      apply state_eq; try done.
      * rewrite Hlibs2, clean_clean. by apply insert_id.
      * by rewrite Hio2, app_nil_r.
  - intros st' Hrun. apply Forall_forall.
    unfold lib_save, bind in Hrun. unfold deref_lib at 1 in Hrun.
    rewrite Hl in Hrun.
    by apply (lib_save_loop_returns h dir nmi us [] st st' Hl).
Qed.

End Cache.

(** ** Destruction *)

Section Destroy.
Context `{Externals}.

Lemma unlink_same_memory (p : string) (st : state) :
  ∃ ok st', unlink p st = Some (ok, st') ∧ same_memory st st'.
Proof.
  unfold unlink. munfold. cbn [fs log id].
  destruct (node_at (fs st) p) as [[c|]|]; eexists _, _; split;
    try reflexivity; by repeat split.
Qed.

Lemma rmdir_same_memory (p : string) (st : state) :
  ∃ ok st', rmdir p st = Some (ok, st') ∧ same_memory st st'.
Proof.
  unfold rmdir. munfold. cbn [fs log id].
  destruct (node_at (fs st) p) as [[c|]|];
    [|destruct (dir_children (fs st) (key p));
      [destruct (String.eqb (key p) "")|]|];
    eexists _, _; split; try reflexivity; by repeat split.
Qed.

Lemma destroy_loop_same_memory (dir : string) (entries : list string) :
  ∀ st, ∃ st', destroy_loop dir entries st = Some (tt, st')
               ∧ same_memory st st'.
Proof.
  induction entries as [|e entries IH]; intros st; cbn [destroy_loop].
  - exists st. split; [done|apply same_memory_refl].
  - unfold bind at 1. destruct (negb (starts_with "." e)).
    + unfold bind at 1.
      destruct (unlink_same_memory (snprintf_path dir e) st)
        as (ok & st1 & -> & Hm1).
      destruct ok; cbn [negb]; unfold eprint, modify, ret.
      * destruct (IH st1) as (st' & -> & Hm). exists st'.
        split; [done|by eapply same_memory_trans].
      * destruct (IH (log (Stderr "unlink") st1)) as (st' & -> & Hm).
        exists st'. split; [done|].
        eapply same_memory_trans; [exact Hm1|].
        eapply same_memory_trans; [|exact Hm]. by repeat split.
    + unfold ret at 1. apply IH.
Qed.

(** [lib_destroy] returns on every allocated handle and changes nothing
    in the memory of the process. *)
Lemma lib_destroy_same_memory (h : lib_t) (st : state) (l : lib) :
  libs st !! h = Some l →
  ∃ st', lib_destroy h st = Some (tt, st') ∧ same_memory st st'.
Proof.
  intros Hl. unfold lib_destroy. unfold bind at 1, deref_lib at 1.
  rewrite Hl. unfold opendir. unfold bind at 1 2 3.
  unfold modify at 1, gets at 1. cbn [fs log id].
  assert (Hfail : ∃ st', eprint "opendir" (log (SysOpendir (path l)) st)
                         = Some (tt, st') ∧ same_memory st st').
  { eexists. split; [reflexivity|]. by repeat split. }
  destruct (node_at (fs st) (path l)) as [[c|]|];
    [exact Hfail| |exact Hfail].
  unfold ret at 1. unfold bind at 1.
  destruct (destroy_loop_same_memory (path l)
              ("." :: ".." :: dir_children (fs st) (key (path l)))
              (log (SysOpendir (path l)) st)) as (st1 & -> & Hm1).
  unfold bind at 1, closedir at 1, modify at 1. unfold bind at 1.
  destruct (rmdir_same_memory (path l) (log (SysClosedir (path l)) st1))
    as (ok & st2 & -> & Hm2).
  assert (Hm : same_memory st st2).
  { eapply same_memory_trans; [|exact Hm2].
    eapply same_memory_trans; [|eapply same_memory_trans; [exact Hm1|]];
      by repeat split. }
  destruct ok; cbn [negb]; eexists; (split; [reflexivity|]); [done|].
  eapply same_memory_trans; [exact Hm|]. by repeat split.
Qed.

(** On a temporary library [lib_destroy] only tries to open the empty
    path, which fails: nothing is scanned and nothing is deleted. *)
Lemma lib_destroy_temporary (h : lib_t) (st : state) (l : lib) :
  libs st !! h = Some l →
  path l = "" →
  lib_destroy h st =
    Some (tt, logs [SysOpendir ""; Stderr "opendir"] st).
Proof.
  intros Hl Hp. unfold lib_destroy, opendir. munfold. rewrite Hl, Hp.
  cbn. unfold logs, log, modify. cbn. by rewrite <- app_assoc.
Qed.

(** C9: [lib_destroy] returns on every allocated handle and leaves the work
    pointer, the registry and every cache as they were, so the handle is
    registered if it was and [lib_get] still returns each unit of its
    cache. *)
Theorem lib_destroy_keeps_memory (h : lib_t) (st : state) (l : lib) :
  libs st !! h = Some l →
  ∃ st',
    lib_destroy h st = Some (tt, st')
    ∧ work st' = work st
    ∧ registry st' = registry st
    ∧ libs st' = libs st
    ∧ cache st' h = units l
    ∧ ∀ ident t,
        first_match ident (units l) = Some t →
        lib_get h ident st' = Some (Some t, st').
Proof.
  intros Hl.
  destruct (lib_destroy_same_memory h st l Hl) as (st' & Hrun & Hm).
  exists st'. split; [done|].
  pose proof (same_memory_registry _ _ Hm) as Hr.
  destruct Hm as (Hw & _ & _ & Hlibs).
  split; [done|]. split; [done|]. split; [done|]. split.
  - unfold cache. by rewrite Hlibs, Hl.
  - intros ident t Hm. eapply lib_get_cached; [|exact Hm]. by rewrite Hlibs.
Qed.

End Destroy.

Lemma lib_destroy_keeps_memory_witness :
  let E := test_externals in
  ∃ st',
    lib_destroy 0 cache_state = Some (tt, st')
    ∧ work st' = work cache_state
    ∧ registry st' = registry cache_state
    ∧ libs st' = libs cache_state
    ∧ cache st' 0 = [LibUnit 3 true; LibUnit 4 false]
    ∧ ∀ ident t,
        first_match ident [LibUnit 3 true; LibUnit 4 false] = Some t →
        lib_get 0 ident st' = Some (Some t, st').
Proof.
  intros E.
  apply (lib_destroy_keeps_memory 0 cache_state
           (Lib "/mylib" "MYLIB" [LibUnit 3 true; LibUnit 4 false])).
  vm_compute. reflexivity.
Defined.

Lemma lib_save_idempotent_witness :
  let E := test_externals in
  let l := Lib "/mylib" "MYLIB" [LibUnit 3 true; LibUnit 4 false] in
  ∃ st',
    lib_save 0 cache_state = Some (tt, st')
    ∧ io st' = io cache_state
                 ++ flat_map (save_trace (path l)) (dirty_units (units l))
    ∧ fs st' = foldl (write_unit (path l)) (fs cache_state)
                 (dirty_units (units l))
    ∧ libs st' !! 0 = Some (Lib (path l) (name l) (clean <$> units l))
    ∧ same_memory_but 0 cache_state st'
    ∧ lib_save 0 st' = Some (tt, st').
Proof.
  intros E l.
  apply (proj1 (lib_save_idempotent 0 cache_state l
                  ltac:(vm_compute; reflexivity))).
  intros e He. vm_compute in He.
  apply elem_of_cons in He as [->|He]; [vm_compute; reflexivity|].
  by apply elem_of_nil in He.
Defined.

Lemma lib_get_first_match_witness :
  let E := test_externals in
  ∃ st2,
    (lib_put 0 20 ;;; lib_put 0 21) cache_state = Some (tt, st2)
    ∧ cache st2 0 = [LibUnit 3 true; LibUnit 4 false]
                      ++ [LibUnit 20 true; LibUnit 21 true]
    ∧ lib_get 0 (tree_ident 20) st2 =
        Some (Some (default 20 (first_match (tree_ident 20)
                                  [LibUnit 3 true; LibUnit 4 false])), st2)
    ∧ (first_match (tree_ident 20) [LibUnit 3 true; LibUnit 4 false] = None →
       lib_get 0 (tree_ident 20) st2 = Some (Some 20, st2)).
Proof.
  intros E.
  refine (proj2 (proj2 (lib_get_first_match 0 cache_state
            (Lib "/mylib" "MYLIB" [LibUnit 3 true; LibUnit 4 false]) _))
            20 21 _ _).
  - vm_compute. reflexivity.
  - vm_compute. reflexivity.
  - vm_compute. lia.
Defined.

(** ** Temporary libraries *)

Section Temporary.
Context `{Externals}.

(** What holds of a temporary library: [lib_put] and [lib_get] make no
    system call, [lib_get] after [lib_put] answers from the cache with the
    earliest unit of that name, and [lib_destroy] stops at the failing
    [opendir] of the empty path. *)
Lemma temporary_put_get_destroy (h : lib_t) (st : state) (l : lib) :
  libs st !! h = Some l →
  path l = "" →
  (∀ ident, lib_get h ident st = Some (first_match ident (units l), st))
  ∧ lib_destroy h st = Some (tt, logs [SysOpendir ""; Stderr "opendir"] st)
  ∧ (∀ u, n_units l < MAX_UNITS →
          ∃ st', lib_put h u st = Some (tt, st')
                 ∧ fs st' = fs st ∧ io st' = io st
                 ∧ lib_get h (tree_ident u) st' =
                     Some (Some (default u (first_match (tree_ident u)
                                              (units l))), st')).
Proof.
  intros Hl Hp. split; [|split].
  - intros ident. by apply lib_get_temporary.
  - by apply (lib_destroy_temporary h st l).
  - intros u Hn. unfold lib_put. rewrite (lib_put_aux_run _ _ _ _ l Hl).
    rewrite (proj2 (Nat.ltb_lt _ _) Hn). eexists. split; [done|].
    split; [done|]. split; [done|].
    rewrite (lib_get_temporary h (tree_ident u) _
               (Lib (path l) (name l) (units l ++ [LibUnit u true])));
      [|cbn [libs set_libs]; apply lookup_insert_eq|done].
    cbn [units]. rewrite first_match_app.
    destruct (first_match (tree_ident u) (units l)); [done|].
    simpl. by rewrite decide_True.
Qed.

End Temporary.

(** C2: on a temporary library with one unit put into it, [lib_put] and
    [lib_get] make no system call, but [lib_save] opens, writes and closes
    the file /A, which did not exist before. *)
Theorem lib_save_writes_for_temporary :
  let E := test_externals in
  ∃ st0 st1 st2,
    lib_tmp init_state = Some (0, st0)
    ∧ libs st0 !! 0 = Some (Lib "" "WORK" [])
    ∧ lib_put 0 3 st0 = Some (tt, st1)
    ∧ io st1 = io st0 ∧ fs st1 = fs st0
    ∧ lib_get 0 "A" st1 = Some (Some 3, st1)
    ∧ lib_save 0 st1 = Some (tt, st2)
    ∧ io st2 = io st1 ++ [SysFopen "/A" "w"; SysFwrite "/A" "unit";
                          SysFclose "/A"]
    ∧ fs st1 !! "/A" = None
    ∧ fs st2 !! "/A" = Some (File "unit").
Proof.
  intros E. eexists _, _, _.
  repeat (split; [vm_compute; reflexivity|]). vm_compute. reflexivity.
Qed.

(** * Further properties of lib.c *)

(** ** Canonical names *)

Lemma toupper_tolower (c : ascii) : toupper (tolower c) = toupper c.
Proof. destruct c as [[] [] [] [] [] [] [] []]; reflexivity. Qed.

Lemma upcase_name_tolower (s : string) :
  upcase_name (string_map tolower s) = upcase_name s.
Proof.
  unfold upcase_name, ident_new. induction s as [|c s IH]; simpl; [done|].
  by rewrite toupper_tolower, IH.
Qed.

Lemma upcase_name_case_insensitive_helper (s1 s2 : string) :
  string_map tolower s1 = string_map tolower s2 →
  upcase_name s1 = upcase_name s2.
Proof.
  intros Heq.
  by rewrite <- (upcase_name_tolower s1), <- (upcase_name_tolower s2), Heq.
Qed.

(** X1: two names that differ only in the case of their letters have the
    same canonical name. *)
Theorem upcase_name_case_insensitive (s1 s2 : string) :
  string_map tolower s1 = string_map tolower s2 →
  upcase_name s1 = upcase_name s2.
Proof. apply upcase_name_case_insensitive_helper. Qed.

Lemma upcase_name_case_insensitive_witness :
  string_map tolower "MyLib_2" = string_map tolower "mYlIB_2"
  ∧ upcase_name "MyLib_2" = upcase_name "mYlIB_2".
Proof.
  split; [reflexivity|].
  apply (upcase_name_case_insensitive "MyLib_2" "mYlIB_2"). reflexivity.
Defined.

(** ** Finding an open library *)

Section FindOpen.
Context `{Externals}.

Lemma find_open_first (st : state) (name_i : ident_t) (pre post : list lib_t)
    (h : lib_t) (l : lib) :
  libs st !! h = Some l → name l = name_i →
  (∀ h' l', h' ∈ pre → libs st !! h' = Some l' → name l' ≠ name_i) →
  find_open st name_i (pre ++ h :: post) = Some h.
Proof.
  intros Hl Hn. induction pre as [|x pre IH]; intros Hpre; simpl.
  - rewrite Hl. simpl. by rewrite decide_True by congruence.
  - destruct (decide _) as [Heq|_].
    + destruct (libs st !! x) as [lx|] eqn:Hx; [|done].
      simpl in Heq. injection Heq as Heq.
      destruct (Hpre x lx); [by left|done|done].
    + apply IH. intros h' l' Hh'. apply Hpre. by right.
Qed.

Lemma lib_find_open_run (nm : string) (verbose search : bool)
    (st : state) (pre post : list lib_t) (h : lib_t) (l : lib) :
  wf st →
  registry st = pre ++ h :: post →
  libs st !! h = Some l →
  name l = upcase_name nm →
  (∀ h' l', h' ∈ pre → libs st !! h' = Some l' → name l' ≠ upcase_name nm) →
  lib_find nm verbose search st = Some (Some h, st).
Proof.
  intros Hwf Hr Hl Hn Hpre. unfold lib_find.
  unfold bind at 1 2 3. unfold gets at 1 2.
  rewrite lib_find_scan by done.
  by rewrite Hr, (find_open_first st _ pre post h l).
Qed.

(** X2: when a registered handle has the canonical name asked for,
    [lib_find] returns the one registered last under that name and leaves
    the whole state as it was: no system call is made and nothing is
    allocated. *)
Theorem lib_find_returns_open (nm : string) (verbose search : bool)
    (st : state) (pre post : list lib_t) (h : lib_t) (l : lib) :
  wf st →
  registry st = pre ++ h :: post →
  libs st !! h = Some l →
  name l = upcase_name nm →
  (∀ h' l', h' ∈ pre → libs st !! h' = Some l' → name l' ≠ upcase_name nm) →
  lib_find nm verbose search st = Some (Some h, st).
Proof. apply lib_find_open_run. Qed.

(** X3: a library that [lib_new] has just created is what [lib_find]
    returns for every spelling of its name that differs in letter case
    only, and that lookup changes nothing. *)
Theorem lib_new_then_find (nm nm' : string) (verbose search : bool)
    (st st' : state) (l : lib_t) :
  wf st →
  lib_new nm st = Some (Some l, st') →
  string_map tolower nm' = string_map tolower nm →
  lib_find nm' verbose search st' = Some (Some l, st').
Proof.
  intros Hwf Hnew Hcase.
  apply lib_new_returns in Hnew
    as (st1 & dir & Hinit & Hl0 & _ & _ & _ & _ & _ & ->).
  assert (Hm : same_memory st (after_mkdir st nm)) by by repeat split.
  apply lib_init_reg_names in Hinit as (Hwf1 & Hr1 & _);
    [|by eapply same_memory_wf].
  pose proof (same_memory_write_marker dir st1) as Hm1.
  apply (lib_find_open_run nm' verbose search _ [] (registry (after_mkdir st nm))
           l (Lib dir (upcase_name nm) [])).
  - by eapply same_memory_wf.
  - by rewrite (same_memory_registry _ _ Hm1).
  - destruct Hm1 as (_ & _ & _ & ->). exact Hl0.
  - cbn [name]. symmetry. by apply upcase_name_case_insensitive_helper.
  - intros h' l' Hh'. by apply elem_of_nil in Hh'.
Qed.

End FindOpen.

Lemma lib_find_returns_open_witness :
  let E := test_externals in
  lib_find "MyLib" true true cache_state = Some (Some 0, cache_state).
Proof.
  intros E.
  apply (lib_find_returns_open "MyLib" true true cache_state [] []
           0 (Lib "/mylib" "MYLIB" [LibUnit 3 true; LibUnit 4 false])).
  - apply wfb_wf. vm_compute. reflexivity.
  - vm_compute. reflexivity.
  - vm_compute. reflexivity.
  - vm_compute. reflexivity.
  - intros h' l' Hh'. by apply elem_of_nil in Hh'.
Defined.

Lemma lib_new_then_find_witness :
  let E := test_externals in
  ∃ l st', lib_new "MyLib" init_state = Some (Some l, st')
           ∧ lib_find "mylib" true true st' = Some (Some l, st').
Proof.
  intros E. eexists _, _. split; [vm_compute; reflexivity|].
  apply (lib_new_then_find "MyLib" "mylib" true true init_state).
  - exact wf_init_state.
  - vm_compute. reflexivity.
  - reflexivity.
Defined.

(** ** Release, in general *)

Section ReleaseGeneral.
Context `{Externals}.

(** X4: [lib_free] returns on every allocated handle of a well-formed
    state and leaves a well-formed state: the registry afterwards is the
    part of the old registry behind the released handle (so exactly that
    handle is removed when it is the handle registered last), the released
    handle is not registered any more, every handle still registered is
    still allocated, and no file is touched. *)
Theorem lib_free_registry (h : lib_t) (st : state) :
  wf st → is_Some (libs st !! h) →
  ∃ st', lib_free h st = Some (tt, st')
         ∧ wf st'
         ∧ registry st' = registry_after_free h (registry st)
         ∧ (∀ rest, registry st = h :: rest → registry st' = rest)
         ∧ ¬ (h ∈ registry st')
         ∧ (registry st' `suffix_of` registry st)
         ∧ libs st' = delete h (libs st)
         ∧ fs st' = fs st ∧ io st' = io st.
Proof.
  intros (Hl & Hnd & Hal) [lh Hh].
  destruct (lib_free_loop_spec h (registry st) st (loaded st)
              (size (nodes st)) Hl) as (st1 & Hrun & Hpost).
  { by eapply is_list_length. }
  destruct (lib_free_loop_frame _ _ _ _ _ _ Hrun)
    as (Hw & Hlibs & Hfs & Hio & _).
  set (st' := set_libs (delete h (libs st1)) st1).
  assert (Hfree : lib_free h st = Some (tt, st')).
  { unfold lib_free. munfold. rewrite Hrun. simpl. by rewrite Hlibs, Hh. }
  assert (Hlist : is_list (nodes st') (loaded st')
                    (registry_after_free h (registry st))).
  { subst st'. cbn [nodes loaded set_libs].
    destruct (registry st) as [|x l] eqn:Hreg; [|exact Hpost].
    subst st1. exact Hl. }
  assert (Hr : registry st' = registry_after_free h (registry st))
    by by apply registry_is_list.
  pose proof (registry_after_free_gone h (registry st) Hnd) as Hgone.
  pose proof (registry_after_free_suffix h (registry st)) as Hsuf.
  exists st'. split; [done|]. split; [|split; [done|split; [|split; [|split]]]].
  - unfold wf. rewrite Hr. split; [done|]. split.
    + destruct Hsuf as [k Hk]. rewrite Hk in Hnd.
      by apply NoDup_app in Hnd as (_ & _ & ?).
    + intros h' Hh'. subst st'. cbn [libs set_libs]. rewrite Hlibs.
      rewrite lookup_delete_ne by (intros <-; done).
      apply Hal. by eapply elem_of_suffix.
  - intros rest Hrest. rewrite Hr, Hrest. simpl. by rewrite decide_True.
  - by rewrite Hr.
  - by rewrite Hr.
  - subst st'. cbn [libs fs io set_libs]. by rewrite Hlibs.
Qed.

End ReleaseGeneral.

Lemma lib_free_registry_witness :
  let E := test_externals in
  ∃ st', lib_free 1 two_libs_state = Some (tt, st')
         ∧ wf st'
         ∧ registry st' = registry_after_free 1 (registry two_libs_state)
         ∧ (∀ rest, registry two_libs_state = 1 :: rest → registry st' = rest)
         ∧ ¬ (1 ∈ registry st')
         ∧ (registry st' `suffix_of` registry two_libs_state)
         ∧ libs st' = delete 1 (libs two_libs_state)
         ∧ fs st' = fs two_libs_state ∧ io st' = io two_libs_state.
Proof.
  intros E. apply (lib_free_registry 1 two_libs_state).
  - apply wfb_wf. vm_compute. reflexivity.
  - eexists. vm_compute. reflexivity.
Defined.

(** ** The candidate array, for every environment *)

Section Candidates.
Context `{Externals}.

(** X5: whatever NVC_LIBPATH holds, building the candidate array returns,
    the array never has more than [MAX_SEARCH_PATHS - 1] = 63 entries and
    its first entry is the current directory.  Without extended search it
    is the current directory alone.  Under extended search it is the
    current directory and the data directory when NVC_LIBPATH is unset;
    the current directory, the non-empty entries of NVC_LIBPATH in order
    and the data directory, cut after 63 entries, when NVC_LIBPATH holds
    an entry; and the current directory, a NULL and the data directory
    when NVC_LIBPATH is set but holds no entry. *)
Theorem search_paths_capped (env : option string) (search : bool) :
  ∃ ps, search_paths env search = Some ps
        ∧ length ps ≤ MAX_SEARCH_PATHS - 1
        ∧ ps !! 0 = Some (Some ".")
        ∧ (search = false → ps = [Some "."])
        ∧ (search = true → env = None → ps = [Some "."; Some DATADIR])
        ∧ (search = true →
           ∀ e t ts, env = Some e → libpath_entries e = t :: ts →
             ps = take (MAX_SEARCH_PATHS - 1)
                    (Some "." :: (Some <$> t :: ts) ++ [Some DATADIR]))
        ∧ (search = true →
           ∀ e, env = Some e → libpath_entries e = [] →
             ps = [Some "."; None; Some DATADIR]).
Proof.
  rewrite search_paths_spec. eexists. split; [reflexivity|].
  split; [rewrite length_take; lia|]. split; [reflexivity|].
  split; [by intros ->|]. split; [|split].
  - intros -> ->. reflexivity.
  - intros -> e t ts -> ->. reflexivity.
  - intros -> e -> ->. reflexivity.
Qed.

(** X6: when NVC_LIBPATH is set but holds no entry (it is empty or made of
    colons only), the NULL token that the do-while loop stores ends the
    candidate array behind the current directory: under extended search
    [lib_find] probes the current directory only, and when no library is
    there it returns no library without probing or reporting the data
    directory. *)
Theorem lib_find_empty_libpath (nm : string) (verbose : bool) (st : state)
    (e : string) :
  wf st →
  upcase_name nm ∉ reg_names st →
  libpath_env st = Some e →
  libpath_entries e = [] →
  valid_at (fs st) nm "." = false →
  search_paths (Some e) true = Some [Some "."; None; Some DATADIR]
  ∧ lib_find nm verbose true st =
      Some (None,
            logs (reject_trace (fs st) nm "." ++
                  if verbose
                  then [Stderr ("library " +:+ nm +:+ " not found in:");
                        Stderr ("  " +:+ ".")]
                  else []) st).
Proof.
  intros Hwf Hnew Henv He Hrej.
  assert (Hsp : search_paths (Some e) true
                = Some [Some "."; None; Some DATADIR]).
  { rewrite search_paths_spec, He. reflexivity. }
  split; [exact Hsp|].
  unfold lib_find. unfold bind at 1 2 3. unfold gets at 1 2.
  rewrite lib_find_scan by done.
  rewrite find_open_notin by exact Hnew.
  unfold bind at 1. unfold gets at 1. rewrite Henv, Hsp.
  cbn [probe_loop]. unfold bind at 1 2.
  rewrite lib_find_at_reject by done. unfold ret at 1.
  destruct verbose.
  - cbn [report_loop]. unfold bind, eprint, modify, ret.
    by rewrite !log_logs, !logs_logs.
  - unfold bind, ret. by rewrite app_nil_r.
Qed.

End Candidates.

Lemma lib_find_empty_libpath_witness :
  let E := test_externals in
  valid_at (fs empty_libpath_state) "foo" DATADIR = true
  ∧ search_paths (Some "") true = Some [Some "."; None; Some DATADIR]
  ∧ lib_find "foo" false true empty_libpath_state =
      Some (None,
            logs (reject_trace (fs empty_libpath_state) "foo" "." ++ [])
                 empty_libpath_state).
Proof.
  intros E. split; [vm_compute; reflexivity|].
  apply (lib_find_empty_libpath "foo" false empty_libpath_state "").
  - apply wfb_wf. vm_compute. reflexivity.
  - vm_compute. apply not_elem_of_nil.
  - reflexivity.
  - vm_compute. reflexivity.
  - vm_compute. reflexivity.
Defined.

(** ** Loading units from the directory *)

Section Load.
Context `{Externals}.

Lemma get_dir_loop_miss (h : lib_t) (search : string) (entries : list string)
    (st : state) :
  search ∉ entries →
  get_dir_loop h search entries st = Some ((None, None), st).
Proof.
  induction entries as [|e entries IH]; intros Hn; simpl; [done|].
  destruct (String.eqb e search) eqn:He.
  - apply String.eqb_eq in He as ->. destruct Hn. by left.
  - apply IH. intros Hin. apply Hn. by right.
Qed.

Lemma get_dir_loop_hit (h : lib_t) (search : string) (entries : list string)
    (st : state) :
  search ∈ entries →
  get_dir_loop h search entries st = load_entry h search st.
Proof.
  induction entries as [|e entries IH]; intros Hin;
    [by apply elem_of_nil in Hin|].
  cbn [get_dir_loop]. destruct (String.eqb e search) eqn:He.
  - apply String.eqb_eq in He as ->. reflexivity.
  - apply IH. apply elem_of_cons in Hin as [->|Hin]; [|done].
    by rewrite String.eqb_refl in He.
Qed.

(** A miss in the cache of a library with a directory goes to the
    directory. *)
Lemma lib_get_disk_run (h : lib_t) (ident : ident_t) (st : state) (l : lib) :
  libs st !! h = Some l →
  first_match ident (units l) = None →
  path l ≠ "" →
  node_at (fs st) (path l) = Some Dir →
  lib_get h ident st =
    (r <- (r <- get_dir_loop h (istr ident)
                  ("." :: ".." :: dir_children (fs st) (key (path l))) ;;
           closedir (path l) ;;; ret r) ;;
     match r.2 with
     | Some s => fclose (Some s)
     | None => ret tt
     end ;;; ret r.1) (log (SysOpendir (path l)) st).
Proof.
  intros Hl Hm Hp Hd. unfold lib_get, lib_get_ctx.
  unfold bind at 1 2. unfold deref_lib at 1. rewrite Hl.
  unfold n_units. rewrite scan_units_first_match, Hm.
  apply String.eqb_neq in Hp. rewrite Hp.
  unfold opendir. unfold bind at 1 2 3. unfold modify at 1, gets at 1.
  cbn [fs log id]. rewrite Hd. reflexivity.
Qed.

(** What [readdir] lists against what a name inside the directory leads
    to. *)
Lemma readdir_has (m : gmap string fnode) (d n : string) :
  d ≠ "" → n ≠ "" → has_slash n = false →
  is_Some (node_at m (d +:+ "/" +:+ n)) →
  n ∈ "." :: ".." :: dir_children m (key d).
Proof.
  intros Hd Hn Hsl Hex.
  destruct (decide (n = ".")) as [->|Hdot]; [by left|].
  destruct (decide (n = "..")) as [->|Hdots]; [right; by left|].
  assert (Hpl : plain_name n = true).
  { unfold plain_name. apply String.eqb_neq in Hn, Hdot, Hdots.
    by rewrite Hn, Hdot, Hdots, Hsl. }
  rewrite node_at_child in Hex by done.
  do 2 (apply elem_of_cons; right). by apply dir_children_elem.
Qed.

Lemma readdir_lacks (m : gmap string fnode) (d n : string) :
  d ≠ "" → n ≠ "." → n ≠ ".." →
  node_at m (d +:+ "/" +:+ n) = None →
  n ∉ "." :: ".." :: dir_children m (key d).
Proof.
  intros Hd Hdot Hdots Hnone.
  intros [->|[->|Hin]%elem_of_cons]%elem_of_cons; try done.
  apply dir_children_elem in Hin as ([v Hv] & Hn & Hsl).
  assert (Hpl : plain_name n = true).
  { unfold plain_name. apply String.eqb_neq in Hn, Hdot, Hdots.
    by rewrite Hn, Hdot, Hdots, Hsl. }
  rewrite node_at_child in Hnone by done. by rewrite Hv in Hnone.
Qed.

Lemma snprintf_path_fits (a b : string) :
  String.length a + 1 + String.length b < PATH_MAX →
  snprintf_path a b = a +:+ "/" +:+ b.
Proof.
  intros Hlen. unfold snprintf_path. apply truncate_id.
  rewrite !string_length_app. simpl. lia.
Qed.

Lemma lib_get_miss_run (h : lib_t) (ident : ident_t) (st : state) (l : lib) :
  libs st !! h = Some l →
  first_match ident (units l) = None →
  path l ≠ "" →
  node_at (fs st) (path l) = Some Dir →
  ident ≠ "." → ident ≠ ".." →
  node_at (fs st) (path l +:+ "/" +:+ ident) = None →
  lib_get h ident st =
    Some (None, logs [SysOpendir (path l); SysClosedir (path l)] st).
Proof.
  intros Hl Hm Hp Hd Hdot Hdots Hfile.
  rewrite (lib_get_disk_run h ident st l) by done.
  unfold bind at 1 2 3. rewrite get_dir_loop_miss.
  - unfold closedir, modify, ret, bind. cbn [snd fst].
    by rewrite !log_logs, logs_logs.
  - unfold istr. cbn [fs log]. by apply readdir_lacks.
Qed.

Lemma lib_get_load_run (h : lib_t) (ident : ident_t) (st : state) (l : lib)
    (c : string) :
  libs st !! h = Some l →
  first_match ident (units l) = None →
  path l ≠ "" →
  node_at (fs st) (path l) = Some Dir →
  node_at (fs st) (path l +:+ "/" +:+ ident) = Some (File c) →
  ident ≠ "" → has_slash ident = false →
  String.length (path l) + 1 + String.length ident < PATH_MAX →
  lib_get h ident st =
    if n_units l <? MAX_UNITS then
      Some (Some (tree_read c),
            State (work st) (loaded st) (nodes st)
                  (<[h := Lib (path l) (name l)
                              (units l ++ [LibUnit (tree_read c) false])]>
                     (libs st))
                  (fs st) (libpath_env st)
                  (io st ++ [SysOpendir (path l);
                             SysFopen (path l +:+ "/" +:+ ident) "r";
                             SysClosedir (path l);
                             SysFclose (path l +:+ "/" +:+ ident)]))
    else None.
Proof.
  intros Hl Hm Hp Hd Hfile Hne Hsl Hfit.
  rewrite (lib_get_disk_run h ident st l) by done.
  unfold bind at 1 2 3. rewrite get_dir_loop_hit.
  2:{ unfold istr. cbn [fs log]. by apply readdir_has. }
  unfold load_entry, istr, lib_fopen, fopen.
  unfold bind at 1 2 3 4 5. unfold deref_lib at 1. cbn [libs log].
  rewrite Hl. unfold modify at 1, gets at 1. cbn [fs log id].
  rewrite snprintf_path_fits by done.
  change (String.eqb "r" "w") with false. cbv beta iota.
  rewrite Hfile. unfold ret at 1. cbn [fdata]. unfold bind at 1.
  rewrite (lib_put_aux_run _ _ _ _ l) by (cbn [libs log]; exact Hl).
  destruct (n_units l <? MAX_UNITS); [|reflexivity].
  unfold closedir, fclose, modify, ret, bind. cbn [snd fst fpath].
  unfold set_libs, log. cbn. by rewrite <- !app_assoc.
Qed.

(** X7: a lookup that misses the cache of a library on disk, and finds no
    file of that name in its directory, returns nothing and leaves the
    cache and the file system as they were; the miss is not remembered, so
    the same lookup scans the directory again. *)
Theorem lib_get_miss_rescans (h : lib_t) (ident : ident_t) (st : state)
    (l : lib) :
  libs st !! h = Some l →
  first_match ident (units l) = None →
  path l ≠ "" →
  node_at (fs st) (path l) = Some Dir →
  ident ≠ "." → ident ≠ ".." →
  node_at (fs st) (path l +:+ "/" +:+ ident) = None →
  lib_get h ident st =
    Some (None, logs [SysOpendir (path l); SysClosedir (path l)] st)
  ∧ (lib_get h ident ;;; lib_get h ident) st =
      Some (None, logs [SysOpendir (path l); SysClosedir (path l);
                        SysOpendir (path l); SysClosedir (path l)] st).
Proof.
  intros Hl Hm Hp Hd Hdot Hdots Hfile.
  pose proof (lib_get_miss_run h ident st l Hl Hm Hp Hd Hdot Hdots Hfile)
    as Hrun.
  split; [exact Hrun|]. unfold bind. rewrite Hrun.
  rewrite (lib_get_miss_run h ident _ l) by done.
  by rewrite logs_logs.
Qed.

(** X8: a lookup that misses the cache of a library on disk and finds the
    file of that name reads it once, appends the unit built from its bytes
    as a clean entry behind the entries already cached, and returns it;
    the file system is unchanged, and when the unit reports the name it
    was asked under, the same lookup afterwards is answered from the cache
    without any system call. *)
Theorem lib_get_loads_file (h : lib_t) (ident : ident_t) (st : state)
    (l : lib) (c : string) :
  libs st !! h = Some l →
  first_match ident (units l) = None →
  path l ≠ "" →
  node_at (fs st) (path l) = Some Dir →
  node_at (fs st) (path l +:+ "/" +:+ ident) = Some (File c) →
  ident ≠ "" → has_slash ident = false →
  String.length (path l) + 1 + String.length ident < PATH_MAX →
  n_units l < MAX_UNITS →
  ∃ st',
    lib_get h ident st = Some (Some (tree_read c), st')
    ∧ cache st' h = units l ++ [LibUnit (tree_read c) false]
    ∧ same_memory_but h st st'
    ∧ fs st' = fs st
    ∧ io st' = io st ++ [SysOpendir (path l);
                         SysFopen (path l +:+ "/" +:+ ident) "r";
                         SysClosedir (path l);
                         SysFclose (path l +:+ "/" +:+ ident)]
    ∧ (tree_ident (tree_read c) = ident →
       lib_get h ident st' = Some (Some (tree_read c), st')).
Proof.
  intros Hl Hm Hp Hd Hfile Hne Hsl Hfit Hn.
  rewrite (lib_get_load_run h ident st l c) by done.
  rewrite (proj2 (Nat.ltb_lt _ _) Hn). eexists. split; [reflexivity|].
  split; [|split; [|split; [done|split; [done|]]]].
  - unfold cache. cbn [libs]. by rewrite lookup_insert_eq.
  - repeat split; try done. intros h' Hne'. cbn [libs].
    by rewrite lookup_insert_ne.
  - intros Hid. eapply lib_get_cached; [cbn [libs]; apply lookup_insert_eq|].
    cbn [units]. rewrite first_match_app, Hm. simpl.
    by rewrite decide_True.
Qed.

(** X9: when the directory of a library cannot be opened, a lookup that
    misses the cache is fatal, while a lookup that hits the cache is still
    answered. *)
Theorem lib_get_without_directory (h : lib_t) (st : state) (l : lib) :
  libs st !! h = Some l →
  path l ≠ "" →
  node_at (fs st) (path l) ≠ Some Dir →
  (∀ ident, first_match ident (units l) = None → lib_get h ident st = None)
  ∧ (∀ ident t, first_match ident (units l) = Some t →
                lib_get h ident st = Some (Some t, st)).
Proof.
  intros Hl Hp Hd. split.
  - intros ident Hm. unfold lib_get, lib_get_ctx.
    unfold bind at 1 2. unfold deref_lib at 1. rewrite Hl.
    unfold n_units. rewrite scan_units_first_match, Hm.
    apply String.eqb_neq in Hp. rewrite Hp.
    unfold opendir. unfold bind at 1 2 3. unfold modify at 1, gets at 1.
    cbn [fs log id].
    by destruct (node_at (fs st) (path l)) as [[?|]|].
  - intros ident t Hm. by eapply lib_get_cached.
Qed.

End Load.

Lemma lib_get_miss_rescans_witness :
  let E := test_externals in
  lib_get 0 "NOPE" disk_state =
    Some (None, logs [SysOpendir "/mylib"; SysClosedir "/mylib"] disk_state)
  ∧ (lib_get 0 "NOPE" ;;; lib_get 0 "NOPE") disk_state =
      Some (None, logs [SysOpendir "/mylib"; SysClosedir "/mylib";
                        SysOpendir "/mylib"; SysClosedir "/mylib"] disk_state).
Proof.
  intros E.
  apply (lib_get_miss_rescans 0 "NOPE" disk_state (Lib "/mylib" "MYLIB" []));
    try done; vm_compute; reflexivity.
Defined.

Lemma lib_get_loads_file_witness :
  let E := test_externals in
  ∃ st',
    lib_get 0 "A" disk_state = Some (Some (tree_read "unit"), st')
    ∧ cache st' 0 = [] ++ [LibUnit (tree_read "unit") false]
    ∧ same_memory_but 0 disk_state st'
    ∧ fs st' = fs disk_state
    ∧ io st' = io disk_state ++ [SysOpendir "/mylib";
                                 SysFopen ("/mylib" +:+ "/" +:+ "A") "r";
                                 SysClosedir "/mylib";
                                 SysFclose ("/mylib" +:+ "/" +:+ "A")]
    ∧ (tree_ident (tree_read "unit") = "A" →
       lib_get 0 "A" st' = Some (Some (tree_read "unit"), st')).
Proof.
  intros E.
  apply (lib_get_loads_file 0 "A" disk_state (Lib "/mylib" "MYLIB" []) "unit");
    try done; vm_compute; try reflexivity; lia.
Defined.

Lemma lib_get_without_directory_witness :
  let E := test_externals in
  (∀ ident, first_match ident [LibUnit 3 true] = None →
            lib_get 0 ident gone_state = None)
  ∧ (∀ ident t, first_match ident [LibUnit 3 true] = Some t →
                lib_get 0 ident gone_state = Some (Some t, gone_state)).
Proof.
  intros E.
  apply (lib_get_without_directory 0 gone_state
           (Lib "/mylib" "MYLIB" [LibUnit 3 true])); try done.
Defined.

(** ** What [lib_save] leaves on disk *)

Section Disk.
Context `{Externals}.

Lemma write_units_other (dir k : string) (es : list lib_unit) :
  ∀ m, (∀ e, e ∈ es → key (unit_path dir e) ≠ k) →
       foldl (write_unit dir) m es !! k = m !! k.
Proof.
  induction es as [|e es IH]; intros m Hes; simpl; [done|].
  rewrite IH by (intros e' He'; apply Hes; by right).
  unfold write_unit. fold (unit_path dir e).
  assert (key (unit_path dir e) ≠ k) by (apply Hes; by left).
  by rewrite !lookup_insert_ne.
Qed.

Lemma write_units_last (dir : string) (pre post : list lib_unit)
    (e : lib_unit) (m : gmap string fnode) :
  (∀ e', e' ∈ post → key (unit_path dir e') ≠ key (unit_path dir e)) →
  foldl (write_unit dir) m (pre ++ e :: post) !! key (unit_path dir e)
    = Some (File (tree_write (top e))).
Proof.
  intros Hpost. rewrite foldl_app. cbn [foldl].
  rewrite write_units_other by done.
  unfold write_unit at 1. fold (unit_path dir e). apply lookup_insert_eq.
Qed.

(** Writing unit files makes and removes no directory. *)
Lemma write_unit_dirs (dir : string) (m : gmap string fnode) (e : lib_unit)
    (k : string) :
  can_write m (unit_path dir e) = true →
  is_dir (node (write_unit dir m e) k) = is_dir (node m k).
Proof.
  intros (_ & _ & _ & Hnd)%can_write_nonempty.
  unfold write_unit. fold (unit_path dir e). rewrite insert_insert_eq.
  unfold node. destruct (String.eqb k ""); [done|].
  destruct (decide (k = key (unit_path dir e))) as [->|Hne].
  - by rewrite lookup_insert_eq, Hnd.
  - by rewrite lookup_insert_ne.
Qed.

Lemma write_units_dirs (dir : string) (es : list lib_unit) (k : string) :
  ∀ m, Forall (λ e, can_write m (unit_path dir e) = true) es →
       is_dir (node (foldl (write_unit dir) m es) k) = is_dir (node m k).
Proof.
  induction es as [|e es IH]; intros m Hes; simpl; [done|].
  apply Forall_cons in Hes as [He Hes].
  rewrite IH, write_unit_dirs; [done|done|].
  eapply Forall_impl; [exact Hes|]. intros e' He'. cbn beta.
  by rewrite can_write_write_unit.
Qed.

Lemma lib_save_run (h : lib_t) (st : state) (l : lib) :
  libs st !! h = Some l →
  Forall (λ e, can_write (fs st) (unit_path (path l) e) = true)
         (dirty_units (units l)) →
  ∃ st', lib_save h st = Some (tt, st')
         ∧ same_memory_but h st st'
         ∧ libs st' = <[h := Lib (path l) (name l) (clean <$> units l)]>
                        (libs st)
         ∧ fs st' = foldl (write_unit (path l)) (fs st) (dirty_units (units l))
         ∧ io st' = io st ++ flat_map (save_trace (path l))
                               (dirty_units (units l)).
Proof.
  intros Hl Hw. destruct l as [dir nmi us]. cbn [path name units] in *.
  destruct (lib_save_loop_spec h dir nmi us [] st Hl Hw)
    as (st' & Hrun & Hrest).
  exists st'. split; [|exact Hrest].
  unfold lib_save, bind. unfold deref_lib at 1. by rewrite Hl.
Qed.

(** Every return of [lib_save]. *)
Lemma lib_save_cases (h : lib_t) (st st' : state) (l : lib) :
  libs st !! h = Some l →
  lib_save h st = Some (tt, st') →
  Forall (λ e, can_write (fs st) (unit_path (path l) e) = true)
         (dirty_units (units l))
  ∧ same_memory_but h st st'
  ∧ libs st' = <[h := Lib (path l) (name l) (clean <$> units l)]> (libs st)
  ∧ fs st' = foldl (write_unit (path l)) (fs st) (dirty_units (units l))
  ∧ io st' = io st ++ flat_map (save_trace (path l)) (dirty_units (units l)).
Proof.
  intros Hl Hrun.
  assert (Hw : Forall (λ e, can_write (fs st) (unit_path (path l) e) = true)
                      (dirty_units (units l))).
  { destruct l as [dir nmi us]. cbn [path name units].
    unfold lib_save, bind in Hrun. unfold deref_lib at 1 in Hrun.
    rewrite Hl in Hrun.
    by apply (lib_save_loop_returns h dir nmi us [] st st' Hl). }
  split; [exact Hw|].
  destruct (lib_save_run h st l Hl Hw) as (st2 & Hrun2 & Hrest).
  rewrite Hrun in Hrun2. by injection Hrun2 as ->.
Qed.

(** X10: when the file of every dirty entry can be opened for writing,
    [lib_save] returns and changes no file but those files; when several
    dirty entries lead to one file, the file afterwards holds the bytes of
    the last of them in cache order. *)
Theorem lib_save_last_write_wins (h : lib_t) (st : state) (l : lib)
    (pre post : list lib_unit) (e : lib_unit) :
  libs st !! h = Some l →
  (∀ e', e' ∈ dirty_units (units l) →
         can_write (fs st) (unit_path (path l) e') = true) →
  dirty_units (units l) = pre ++ e :: post →
  (∀ e', e' ∈ post →
         key (unit_path (path l) e') ≠ key (unit_path (path l) e)) →
  ∃ st', lib_save h st = Some (tt, st')
         ∧ fs st' !! key (unit_path (path l) e)
             = Some (File (tree_write (top e)))
         ∧ ∀ k, (∀ e', e' ∈ dirty_units (units l) →
                       key (unit_path (path l) e') ≠ k) →
                fs st' !! k = fs st !! k.
Proof.
  intros Hl Hw Hd Hpost. apply Forall_forall in Hw.
  destruct (lib_save_run h st l Hl Hw) as (st' & Hrun & _ & _ & Hfs & _).
  exists st'. split; [done|]. rewrite Hfs. split.
  - rewrite Hd. by apply write_units_last.
  - intros k Hk. by apply write_units_other.
Qed.

Lemma truncate_length_min (n : nat) (s : string) :
  String.length (truncate n s) = n `min` String.length s.
Proof.
  revert s. induction n as [|n IH]; intros [|c s]; simpl; try done.
  by rewrite IH.
Qed.

Lemma dirty_units_app (us vs : list lib_unit) :
  dirty_units (us ++ vs) = dirty_units us ++ dirty_units vs.
Proof. unfold dirty_units. apply filter_app. Qed.

(** X11: a unit put into a library on disk and saved is read back by a
    handle with an empty cache on the same directory.  When the files of
    the dirty entries and the file of the new unit can be opened for
    writing, [lib_put] followed by [lib_save] returns, the file named by
    the identifier of the unit holds its serialisation, and [lib_get]
    through the other handle returns the unit that [tree_read] builds from
    those bytes, as a clean entry. *)
Theorem lib_put_save_get (h : lib_t) (u : tree_t) (st : state) (l : lib) :
  libs st !! h = Some l →
  path l ≠ "" →
  node_at (fs st) (path l) = Some Dir →
  plain_name (tree_ident u) = true →
  String.length (path l) + 1 + String.length (tree_ident u) < PATH_MAX →
  n_units l < MAX_UNITS →
  (∀ e, e ∈ dirty_units (units l) →
        can_write (fs st) (unit_path (path l) e) = true) →
  can_write (fs st) (path l +:+ "/" +:+ tree_ident u) = true →
  ∃ st2,
    (lib_put h u ;;; lib_save h) st = Some (tt, st2)
    ∧ node_at (fs st2) (path l +:+ "/" +:+ tree_ident u)
        = Some (File (tree_write u))
    ∧ ∀ st3 h2 nm2,
        fs st3 = fs st2 →
        libs st3 !! h2 = Some (Lib (path l) nm2 []) →
        ∃ st4,
          lib_get h2 (tree_ident u) st3
            = Some (Some (tree_read (tree_write u)), st4)
          ∧ cache st4 h2 = [LibUnit (tree_read (tree_write u)) false].
Proof.
  intros Hl Hp Hd Hpl Hfit Hn Hw Hwnew.
  pose proof (plain_name_nonempty _ Hpl) as Hne.
  pose proof (plain_name_no_slash _ Hpl) as Hsl.
  destruct (key_child_ne (path l) (tree_ident u) Hp Hpl) as [Hkne Hkd].
  assert (Hup : unit_path (path l) (LibUnit u true)
                = path l +:+ "/" +:+ tree_ident u)
    by by apply snprintf_path_fits.
  assert (Hpne : path l +:+ "/" +:+ tree_ident u ≠ "") by by destruct (path l).
  assert (Hnd0 : node (fs st) (key (path l)) = Some Dir).
  { unfold node_at in Hd. apply String.eqb_neq in Hp. by rewrite Hp in Hd. }
  assert (Hwu : can_write (fs st) (unit_path (path l) (LibUnit u true)) = true)
    by (rewrite Hup; exact Hwnew).
  unfold lib_put, bind. rewrite (lib_put_aux_run _ _ _ _ l Hl).
  rewrite (proj2 (Nat.ltb_lt _ _) Hn).
  set (l1 := Lib (path l) (name l) (units l ++ [LibUnit u true])).
  set (st1 := set_libs (<[h := l1]> (libs st)) st).
  assert (Hwall : Forall (λ e, can_write (fs st) (unit_path (path l) e) = true)
                         (dirty_units (units l) ++ [LibUnit u true])).
  { apply Forall_app. split; [by apply Forall_forall|by constructor]. }
  destruct (lib_save_run h st1 l1) as (st2 & Hrun & _ & _ & Hfs & _).
  { subst st1. cbn [libs set_libs]. apply lookup_insert_eq. }
  { cbn [path units l1]. rewrite dirty_units_app. exact Hwall. }
  cbn [path units l1] in Hfs.
  rewrite dirty_units_app in Hfs.
  change (dirty_units [LibUnit u true]) with ([LibUnit u true]) in Hfs.
  assert (Hfile : node_at (fs st2) (path l +:+ "/" +:+ tree_ident u)
                  = Some (File (tree_write u))).
  { rewrite node_at_key by done. rewrite Hfs, <- Hup.
    apply (write_units_last (path l) _ [] (LibUnit u true)).
    intros e' He'. by apply elem_of_nil in He'. }
  assert (Hdir : node_at (fs st2) (path l) = Some Dir).
  { unfold node_at. apply String.eqb_neq in Hp. rewrite Hp.
    pose proof (write_units_dirs (path l) _ (key (path l)) (fs st) Hwall)
      as Hdirs.
    subst st1. cbn [fs set_libs] in Hfs. rewrite <- Hfs, Hnd0 in Hdirs.
    by destruct (node (fs st2) (key (path l))) as [[]|]. }
  exists st2. split; [exact Hrun|]. split; [exact Hfile|].
  intros st3 h2 nm2 Hfs3 Hl2.
  rewrite (lib_get_load_run h2 (tree_ident u) st3 (Lib (path l) nm2 [])
             (tree_write u)); try done; cbn [path units];
    try (by rewrite Hfs3).
  eexists. split; [reflexivity|].
  unfold cache. cbn [libs]. by rewrite lookup_insert_eq.
Qed.

End Disk.

Lemma lib_save_last_write_wins_witness :
  let E := digit_externals in
  ∃ st', lib_save 0 dup_state = Some (tt, st')
         ∧ fs st' !! key (unit_path "/mylib" (LibUnit 4 true))
             = Some (File (tree_write 4))
         ∧ ∀ k, (∀ e', e' ∈ dirty_units [LibUnit 3 true; LibUnit 4 true] →
                       key (unit_path "/mylib" e') ≠ k) →
                fs st' !! k = fs dup_state !! k.
Proof.
  intros E.
  apply (lib_save_last_write_wins 0 dup_state
           (Lib "/mylib" "MYLIB" [LibUnit 3 true; LibUnit 4 true])
           [LibUnit 3 true] [] (LibUnit 4 true)).
  - vm_compute. reflexivity.
  - intros e' He'. vm_compute in He'.
    repeat (apply elem_of_cons in He' as [->|He']; [vm_compute; reflexivity|]).
    by apply elem_of_nil in He'.
  - vm_compute. reflexivity.
  - intros e' He'. by apply elem_of_nil in He'.
Defined.

Lemma lib_put_save_get_witness :
  let E := digit_externals in
  ∃ st2,
    (lib_put 0 7 ;;; lib_save 0) dup_state = Some (tt, st2)
    ∧ node_at (fs st2) ("/mylib" +:+ "/" +:+ tree_ident 7)
        = Some (File (tree_write 7))
    ∧ ∀ st3 h2 nm2,
        fs st3 = fs st2 →
        libs st3 !! h2 = Some (Lib "/mylib" nm2 []) →
        ∃ st4,
          lib_get h2 (tree_ident 7) st3
            = Some (Some (tree_read (tree_write 7)), st4)
          ∧ cache st4 h2 = [LibUnit (tree_read (tree_write 7)) false].
Proof.
  intros E.
  apply (lib_put_save_get 0 7 dup_state
           (Lib "/mylib" "MYLIB" [LibUnit 3 true; LibUnit 4 true])).
  - vm_compute. reflexivity.
  - done.
  - vm_compute. reflexivity.
  - vm_compute. reflexivity.
  - vm_compute. lia.
  - vm_compute. lia.
  - intros e' He'. vm_compute in He'.
    repeat (apply elem_of_cons in He' as [->|He']; [vm_compute; reflexivity|]).
    by apply elem_of_nil in He'.
  - vm_compute. reflexivity.
Defined.

(** ** Loading never reorders, drops or dirties *)

Section Grow.
Context `{Externals}.

Lemma load_entry_cases (h : lib_t) (e : string) (s s' : state)
    (r : option tree_t * option FILE) :
  load_entry h e s = Some (r, s') →
  ∃ l c strm,
    libs s !! h = Some l
    ∧ r = (Some (tree_read c), Some strm)
    ∧ n_units l < MAX_UNITS
    ∧ s' = set_libs (<[h := Lib (path l) (name l)
                                (units l ++ [LibUnit (tree_read c) false])]>
                       (libs s))
             (log (SysFopen (snprintf_path (path l) e) "r") s).
Proof.
  unfold load_entry, lib_fopen, fopen.
  unfold bind at 1 2. unfold deref_lib at 1.
  destruct (libs s !! h) as [l|] eqn:Hl; [|done].
  unfold bind at 1 2. unfold modify at 1, gets at 1. cbn [fs log id].
  change (String.eqb "r" "w") with false. cbv beta iota.
  destruct (node_at (fs s) (snprintf_path (path l) e)) as [[c|]|]; try done.
  unfold ret at 1. cbn [fdata]. unfold bind at 1.
  rewrite (lib_put_aux_run _ _ _ _ l) by (cbn [libs log]; exact Hl).
  destruct (n_units l <? MAX_UNITS) eqn:Hn; [|done].
  intros [= <- <-]. apply Nat.ltb_lt in Hn.
  by eexists l, c, _.
Qed.

(** Every return of [lib_get] is one of two: nothing changed in memory,
    or one clean entry was appended to the cache of the handle. *)
Lemma lib_get_cases (h : lib_t) (ident : ident_t) (st st' : state)
    (r : option tree_t) :
  lib_get h ident st = Some (r, st') →
  ∃ l extra,
    libs st !! h = Some l
    ∧ libs st' = <[h := Lib (path l) (name l) (units l ++ extra)]> (libs st)
    ∧ (extra = [] ∨
       ∃ t, r = Some t ∧ extra = [LibUnit t false] ∧ n_units l < MAX_UNITS)
    ∧ work st' = work st ∧ loaded st' = loaded st ∧ nodes st' = nodes st
    ∧ libpath_env st' = libpath_env st ∧ fs st' = fs st.
Proof.
  unfold lib_get, lib_get_ctx. unfold bind at 1 2. unfold deref_lib at 1.
  destruct (libs st !! h) as [l|] eqn:Hl; [|done].
  assert (Hid : libs st = <[h := Lib (path l) (name l) (units l ++ [])]>
                            (libs st)).
  { rewrite app_nil_r. symmetry. apply insert_id. by destruct l. }
  destruct (scan_units ident (units l) 0 (n_units l)) as [t|].
  { intros [= <- <-]. exists l, []. repeat split; auto. }
  destruct (String.eqb (path l) "").
  { intros [= <- <-]. exists l, []. repeat split; auto. }
  unfold opendir. unfold bind at 1 2 3. unfold modify at 1, gets at 1.
  cbn [fs log id].
  destruct (node_at (fs st) (path l)) as [[c|]|]; try done.
  unfold ret at 1. unfold bind at 1.
  set (entries := "." :: ".." :: dir_children (fs st) (key (path l))).
  set (s0 := log (SysOpendir (path l)) st).
  destruct (decide (istr ident ∈ entries)) as [Hin|Hout].
  - rewrite get_dir_loop_hit by done.
    destruct (load_entry h (istr ident) s0) as [[r0 s1]|] eqn:Hload; [|done].
    apply load_entry_cases in Hload
      as (l0 & c & strm & Hl0 & -> & Hn & ->).
    subst s0. cbn [libs log] in Hl0. rewrite Hl in Hl0.
    injection Hl0 as <-.
    unfold closedir, fclose, modify, ret, bind. cbn [snd fst].
    intros [= <- <-]. exists l, [LibUnit (tree_read c) false].
    split; [done|]. split; [done|]. split; [|done].
    right. by exists (tree_read c).
  - rewrite get_dir_loop_miss by done.
    unfold closedir, modify, ret, bind. cbn [snd fst].
    intros [= <- <-]. exists l, []. repeat split; auto.
Qed.

Lemma load_all_loop_cases (h : lib_t) (entries : list string) :
  ∀ st st' l,
    libs st !! h = Some l →
    load_all_loop h entries st = Some (tt, st') →
    ∃ extra,
      libs st' = <[h := Lib (path l) (name l) (units l ++ extra)]> (libs st)
      ∧ Forall (λ e, dirty e = false) extra
      ∧ (n_units l ≤ MAX_UNITS → length (units l ++ extra) ≤ MAX_UNITS)
      ∧ work st' = work st ∧ loaded st' = loaded st ∧ nodes st' = nodes st
      ∧ libpath_env st' = libpath_env st ∧ fs st' = fs st.
Proof.
  induction entries as [|e entries IH]; intros st st' l Hl;
    cbn [load_all_loop].
  - intros [= <-]. exists []. rewrite app_nil_r.
    split; [symmetry; apply insert_id; by destruct l|]. by repeat split.
  - unfold bind at 1.
    destruct (negb (starts_with "." e) && negb (starts_with "_" e)).
    + unfold bind at 1.
      destruct (lib_get h (ident_new e) st) as [[r s1]|] eqn:Hget; [|done].
      apply lib_get_cases in Hget
        as (l0 & ex1 & Hl0 & Hlibs1 & Hex1 & Hw1 & Hld1 & Hn1 & He1 & Hf1).
      rewrite Hl in Hl0. injection Hl0 as <-. unfold ret at 1.
      intros Hrest.
      apply (IH s1 st' (Lib (path l) (name l) (units l ++ ex1))) in Hrest
        as (ex2 & Hlibs2 & Hcl2 & Hb2 & Hw2 & Hld2 & Hn2 & He2 & Hf2);
        [|rewrite Hlibs1; apply lookup_insert_eq].
      cbn [path name units] in Hlibs2, Hb2.
      exists (ex1 ++ ex2).
      split; [by rewrite Hlibs2, Hlibs1, insert_insert_eq, app_assoc|].
      split; [|split; [|repeat split; congruence]].
      * apply Forall_app. split; [|done].
        destruct Hex1 as [->|(t & _ & -> & _)]; [done|]. by constructor.
      * intros Hb. rewrite app_assoc. apply Hb2. unfold n_units. cbn [units].
        destruct Hex1 as [->|(t & _ & -> & Hlt)].
        -- by rewrite app_nil_r.
        -- rewrite length_app. cbn [length]. unfold n_units in Hlt. lia.
    + unfold ret at 1. by apply IH.
Qed.

Lemma grown_clean_intro (h : lib_t) (l : lib) (extra : list lib_unit)
    (st st' : state) :
  libs st' = <[h := Lib (path l) (name l) (units l ++ extra)]> (libs st) →
  Forall (λ e, dirty e = false) extra →
  work st' = work st → loaded st' = loaded st → nodes st' = nodes st →
  libpath_env st' = libpath_env st → fs st' = fs st →
  grown_clean h (units l) st st'.
Proof.
  intros Hlibs Hcl Hw Hld Hn He Hf. exists extra.
  split; [unfold cache; rewrite Hlibs; by rewrite lookup_insert_eq|].
  split; [done|]. split; [|done]. repeat split; try done.
  intros h' Hne. rewrite Hlibs. by rewrite lookup_insert_ne.
Qed.

Lemma lib_load_all_cases (h : lib_t) (st st' : state) (l : lib) :
  libs st !! h = Some l →
  lib_load_all h st = Some (tt, st') →
  ∃ extra,
    libs st' = <[h := Lib (path l) (name l) (units l ++ extra)]> (libs st)
    ∧ Forall (λ e, dirty e = false) extra
    ∧ (n_units l ≤ MAX_UNITS → length (units l ++ extra) ≤ MAX_UNITS)
    ∧ work st' = work st ∧ loaded st' = loaded st ∧ nodes st' = nodes st
    ∧ libpath_env st' = libpath_env st ∧ fs st' = fs st.
Proof.
  intros Hl. unfold lib_load_all. unfold bind at 1. unfold deref_lib at 1.
  rewrite Hl. destruct (String.eqb (path l) "") eqn:Hp.
  { intros [= <-]. exists []. rewrite app_nil_r.
    split; [symmetry; apply insert_id; by destruct l|]. by repeat split. }
  unfold opendir. unfold bind at 1 2 3. unfold modify at 1, gets at 1.
  cbn [fs log id].
  destruct (node_at (fs st) (path l)) as [[c|]|]; try done.
  unfold ret at 1. unfold bind at 1.
  destruct (load_all_loop h _ (log (SysOpendir (path l)) st))
    as [[[] s1]|] eqn:Hloop; [|done].
  apply (load_all_loop_cases h _ _ _ l) in Hloop; [|exact Hl].
  unfold closedir, modify. intros [= <-]. exact Hloop.
Qed.

(** X12: loading from the directory only ever appends clean entries to the
    cache of the handle: whenever [lib_get] or [lib_load_all] returns, the
    entries cached before are still there, in the same order and with the
    same flags, in front of the new entries, which are all clean; the
    file system, the registry and the other libraries are unchanged, the
    dirty entries are the same, and every identifier that the cache
    answered before gets the same answer. *)
Theorem loading_appends_clean (h : lib_t) (st st' : state) (l : lib) :
  libs st !! h = Some l →
  (lib_load_all h st = Some (tt, st')
   ∨ ∃ ident r, lib_get h ident st = Some (r, st')) →
  grown_clean h (units l) st st'
  ∧ dirty_units (cache st' h) = dirty_units (units l)
  ∧ ∀ ident t, first_match ident (units l) = Some t →
               first_match ident (cache st' h) = Some t.
Proof.
  intros Hl Hrun.
  assert (Hg : grown_clean h (units l) st st').
  { destruct Hrun as [Hrun|(ident & r & Hrun)].
    - apply (lib_load_all_cases h st st' l Hl) in Hrun
        as (extra & Hlibs & Hcl & _ & ? & ? & ? & ? & ?).
      by apply (grown_clean_intro h l extra).
    - apply lib_get_cases in Hrun
        as (l0 & extra & Hl0 & Hlibs & Hex & ? & ? & ? & ? & ?).
      rewrite Hl in Hl0. injection Hl0 as <-.
      apply (grown_clean_intro h l extra); try done.
      destruct Hex as [->|(t & _ & -> & _)]; [done|]. by constructor. }
  split; [exact Hg|]. destruct Hg as (extra & Hc & Hcl & _).
  rewrite Hc. split.
  - rewrite dirty_units_app.
    assert (dirty_units extra = []) as ->; [|by rewrite app_nil_r].
    unfold dirty_units. clear Hc. induction Hcl as [|e extra He _ IH]; [done|].
    rewrite filter_cons_False; [exact IH|]. by rewrite He.
  - intros ident t Hm. by rewrite first_match_app, Hm.
Qed.

(** X13: a cache never holds more than [MAX_UNITS] entries.  On a full
    cache [lib_put] aborts, and so does a lookup that finds an uncached
    unit in the directory; whenever [lib_put], [lib_get] or [lib_load_all]
    returns the cache is within the bound, and [lib_save] keeps its
    length. *)
Theorem cache_capacity (h : lib_t) (st : state) (l : lib) :
  libs st !! h = Some l →
  n_units l ≤ MAX_UNITS →
  (n_units l = MAX_UNITS →
   (∀ u, lib_put h u st = None)
   ∧ (∀ ident c,
        first_match ident (units l) = None →
        path l ≠ "" →
        node_at (fs st) (path l) = Some Dir →
        node_at (fs st) (path l +:+ "/" +:+ ident) = Some (File c) →
        ident ≠ "" → has_slash ident = false →
        String.length (path l) + 1 + String.length ident < PATH_MAX →
        lib_get h ident st = None))
  ∧ (∀ u st', lib_put h u st = Some (tt, st') →
              length (cache st' h) = S (n_units l)
              ∧ length (cache st' h) ≤ MAX_UNITS)
  ∧ (∀ ident r st', lib_get h ident st = Some (r, st') →
                    length (cache st' h) ≤ MAX_UNITS)
  ∧ (∀ st', lib_load_all h st = Some (tt, st') →
            length (cache st' h) ≤ MAX_UNITS)
  ∧ (∀ st', lib_save h st = Some (tt, st') →
            length (cache st' h) = n_units l).
Proof.
  intros Hl Hb. split; [|split; [|split; [|split]]].
  - intros Hfull. split.
    + intros u. unfold lib_put. rewrite (lib_put_aux_run _ _ _ _ l Hl).
      by rewrite (proj2 (Nat.ltb_ge _ _)) by lia.
    + intros ident c Hm Hp Hd Hfile Hne Hsl Hfit.
      rewrite (lib_get_load_run h ident st l c) by done.
      by rewrite (proj2 (Nat.ltb_ge _ _)) by lia.
  - intros u st'. unfold lib_put. rewrite (lib_put_aux_run _ _ _ _ l Hl).
    destruct (n_units l <? MAX_UNITS) eqn:Hn; [|done].
    apply Nat.ltb_lt in Hn. intros [= <-].
    unfold cache. cbn [libs set_libs]. rewrite lookup_insert_eq.
    cbn. rewrite length_app. cbn. unfold n_units in *. lia.
  - intros ident r st' Hrun.
    apply lib_get_cases in Hrun as (l0 & extra & Hl0 & Hlibs & Hex & _).
    rewrite Hl in Hl0. injection Hl0 as <-.
    unfold cache. rewrite Hlibs, lookup_insert_eq. cbn.
    destruct Hex as [->|(t & _ & -> & Hlt)].
    + by rewrite app_nil_r.
    + rewrite length_app. cbn. unfold n_units in Hlt. lia.
  - intros st' Hrun.
    apply (lib_load_all_cases h st st' l Hl) in Hrun
      as (extra & Hlibs & _ & Hle & _).
    unfold cache. rewrite Hlibs, lookup_insert_eq. cbn. by apply Hle.
  - intros st' Hrun.
    destruct (lib_save_cases h st st' l Hl Hrun) as (_ & _ & Hlibs & _).
    unfold cache. rewrite Hlibs, lookup_insert_eq. cbn.
    by rewrite length_fmap.
Qed.

End Grow.

Lemma loading_appends_clean_witness :
  let E := test_externals in
  ∃ st',
    lib_load_all 0 disk_state = Some (tt, st')
    ∧ cache st' 0 = [LibUnit 0 false]
    ∧ grown_clean 0 [] disk_state st'
    ∧ dirty_units (cache st' 0) = dirty_units []
    ∧ ∀ ident t, first_match ident [] = Some t →
                 first_match ident (cache st' 0) = Some t.
Proof.
  intros E. eexists. split; [vm_compute; reflexivity|].
  split; [vm_compute; reflexivity|].
  apply (loading_appends_clean 0 disk_state _ (Lib "/mylib" "MYLIB" [])).
  - vm_compute. reflexivity.
  - left. vm_compute. reflexivity.
Defined.

Lemma cache_capacity_witness :
  let E := test_externals in
  (∀ u, lib_put 0 u full_state = None)
  ∧ lib_get 0 "B" full_state = None.
Proof.
  intros E.
  destruct (cache_capacity 0 full_state
              (Lib "/mylib" "MYLIB" (replicate MAX_UNITS (LibUnit 3 false))))
    as [Hfull _].
  - vm_compute. reflexivity.
  - vm_compute. lia.
  - destruct Hfull as [Hput Hget]; [vm_compute; reflexivity|].
    split; [exact Hput|].
    apply (Hget "B" "unit"); try done; vm_compute; try reflexivity; lia.
Defined.

(** ** Traversal *)

Section Foreach.
Context `{Externals}.

Lemma lib_foreach_loop_visits (h : lib_t) (fn : tree_t → M unit) (l : lib)
    (post : list lib_unit) :
  (∀ t s s', fn t s = Some (tt, s') → libs s' !! h = libs s !! h) →
  ∀ pre s fuel,
    libs s !! h = Some l →
    units l = pre ++ post →
    length post < fuel →
    lib_foreach_loop fuel h fn (length pre) s = visits fn (top <$> post) s.
Proof.
  intros Hfn. induction post as [|e post IH]; intros pre s fuel Hl Hu Hlen;
    (destruct fuel as [|fuel]; [lia|]); cbn [lib_foreach_loop].
  - unfold bind, deref_lib. rewrite Hl, Hu, app_nil_r.
    by rewrite lookup_ge_None_2.
  - unfold bind at 1. unfold deref_lib at 1. rewrite Hl, Hu.
    rewrite list_lookup_middle by done. cbn [fmap list_fmap visits].
    unfold bind. destruct (fn (top e) s) as [[[] s1]|] eqn:Hrun; [|done].
    specialize (IH (pre ++ [e]) s1 fuel).
    rewrite length_app, Nat.add_1_r in IH. apply IH.
    + by rewrite (Hfn _ _ _ Hrun).
    + by rewrite <- app_assoc.
    + cbn [length] in Hlen. lia.
Qed.

(** X14: [lib_foreach] calls the function once on the unit of every cache
    entry, clean or dirty, in cache order and on nothing else, as long as
    the function leaves the library alone; it stops at the first call
    that aborts. *)
Theorem lib_foreach_in_order (h : lib_t) (fn : tree_t → M unit) (st : state)
    (l : lib) :
  libs st !! h = Some l →
  n_units l ≤ MAX_UNITS →
  (∀ t s s', fn t s = Some (tt, s') → libs s' !! h = libs s !! h) →
  lib_foreach h fn st = visits fn (top <$> units l) st.
Proof.
  intros Hl Hb Hfn. unfold lib_foreach.
  apply (lib_foreach_loop_visits h fn l (units l) Hfn [] st); try done.
  unfold n_units in Hb. lia.
Qed.

End Foreach.

Lemma lib_foreach_in_order_witness :
  let E := test_externals in
  let fn := λ t : tree_t, eprint (tree_ident t) in
  lib_foreach 0 fn cache_state =
    visits fn (top <$> [LibUnit 3 true; LibUnit 4 false]) cache_state
  ∧ lib_foreach 0 fn cache_state =
      Some (tt, logs [Stderr "A"; Stderr "A"] cache_state).
Proof.
  intros E fn. split; [|vm_compute; reflexivity].
  apply (lib_foreach_in_order 0 fn cache_state
           (Lib "/mylib" "MYLIB" [LibUnit 3 true; LibUnit 4 false])).
  - vm_compute. reflexivity.
  - vm_compute. lia.
  - intros t s s' [= <-]. reflexivity.
Defined.

(** ** Destruction, completed *)

Section DestroyAll.
Context `{Externals}.

Lemma unlink_fs_subseteq (m : gmap string fnode) (p : string) :
  unlink_fs m p ⊆ m.
Proof.
  unfold unlink_fs. destruct (node_at m p) as [[c|]|]; try done.
  apply delete_subseteq.
Qed.

Lemma unlinks_subseteq (ps : list string) :
  ∀ m, foldl unlink_fs m ps ⊆ m.
Proof.
  induction ps as [|p ps IH]; intros m; simpl; [done|].
  etrans; [apply IH|apply unlink_fs_subseteq].
Qed.

Lemma unlinks_other (ps : list string) (k : string) :
  ∀ m, (∀ p, p ∈ ps → key p ≠ k) → foldl unlink_fs m ps !! k = m !! k.
Proof.
  induction ps as [|p ps IH]; intros m Hk; simpl; [done|].
  rewrite IH by (intros q Hq; apply Hk; by right).
  assert (key p ≠ k) by (apply Hk; by left).
  unfold unlink_fs. destruct (node_at m p) as [[c|]|]; try done.
  by rewrite lookup_delete_ne.
Qed.

Lemma unlinks_file (ps : list string) (p : string) :
  ∀ m c, p ∈ ps → p ≠ "" → key p ≠ "" →
         m !! key p = Some (File c) →
         foldl unlink_fs m ps !! key p = None.
Proof.
  intros m c Hin Hp Hk. revert m Hin.
  induction ps as [|q ps IH]; intros m Hin Hm;
    [by apply elem_of_nil in Hin|].
  simpl.
  destruct (unlink_fs m q !! key p) as [v|] eqn:Hv.
  - assert (Hv' : m !! key p = Some v)
      by (eapply lookup_weaken; [exact Hv|apply unlink_fs_subseteq]).
    rewrite Hm in Hv'. injection Hv' as <-.
    apply elem_of_cons in Hin as [<-|Hin]; [|by apply IH].
    unfold unlink_fs in Hv. rewrite node_at_key, Hm in Hv by done.
    by rewrite lookup_delete_eq in Hv.
  - destruct (foldl unlink_fs (unlink_fs m q) ps !! key p) as [v|] eqn:Hw;
      [|done].
    eapply lookup_weaken in Hw; [|apply unlinks_subseteq]. congruence.
Qed.

Lemma destroy_loop_fs (dir : string) (entries : list string) :
  ∀ st, ∃ st',
    destroy_loop dir entries st = Some (tt, st')
    ∧ same_memory st st'
    ∧ fs st' = foldl unlink_fs (fs st) (destroy_targets dir entries).
Proof.
  induction entries as [|e entries IH]; intros st; cbn [destroy_loop].
  - exists st. split; [done|]. split; [apply same_memory_refl|done].
  - unfold destroy_targets. rewrite filter_cons.
    unfold bind at 1. destruct (starts_with "." e) eqn:He; cbn [negb].
    + rewrite decide_False by done. unfold ret at 1. apply IH.
    + rewrite decide_True by done. cbn [fmap list_fmap foldl].
      unfold unlink at 1. unfold bind at 1 2 3.
      unfold modify at 1, gets at 1. cbn [fs log id].
      unfold unlink_fs at 2.
      destruct (node_at (fs st) (snprintf_path dir e)) as [[c|]|] eqn:Hp;
        unfold bind, modify, ret, eprint; cbv beta iota; cbn [negb];
        cbv beta iota; unfold modify; cbv beta iota;
        match goal with
        | |- context [destroy_loop dir entries ?s] =>
            destruct (IH s) as (st' & -> & Hm & Hfs)
        end;
        exists st'; (split; [done|]);
        (split; [eapply same_memory_trans; [|exact Hm]; by repeat split|]);
        exact Hfs.
Qed.

(** What [lib_destroy] does to a directory of regular files.  The root
    directory is emptied like any other, but [rmdir] refuses to remove
    it. *)
Lemma lib_destroy_clears (h : lib_t) (st : state) (l : lib) :
  libs st !! h = Some l →
  path l ≠ "" →
  node_at (fs st) (path l) = Some Dir →
  (∀ n, n ∈ dir_children (fs st) (key (path l)) →
        starts_with "." n = false
        ∧ (∃ c, node_at (fs st) (path l +:+ "/" +:+ n) = Some (File c))
        ∧ String.length (path l) + 1 + String.length n < PATH_MAX) →
  ∃ st',
    lib_destroy h st = Some (tt, st')
    ∧ (key (path l) ≠ "" → node_at (fs st') (path l) = None)
    ∧ (∀ n, n ∈ dir_children (fs st) (key (path l)) →
            node_at (fs st') (path l +:+ "/" +:+ n) = None)
    ∧ (∀ k, k ≠ key (path l) →
            (∀ n, n ∈ dir_children (fs st) (key (path l)) →
                  k ≠ key (path l) +:+ "/" +:+ n) →
            fs st' !! k = fs st !! k)
    ∧ same_memory st st'.
Proof.
  intros Hl Hp Hd Hfiles.
  set (dir := path l) in *.
  set (kids := dir_children (fs st) (key dir)) in *.
  assert (Hplain : ∀ n, n ∈ kids → plain_name n = true).
  { intros n Hn. destruct (Hfiles n Hn) as (Hdot & _ & _).
    apply dir_children_elem in Hn as (_ & Hne & Hsl).
    unfold plain_name. rewrite Hsl. apply String.eqb_neq in Hne.
    rewrite Hne. by destruct n as [|[[] [] [] [] [] [] [] []] [|? ?]]. }
  assert (Hnat : ∀ m, node_at m dir = node m (key dir)).
  { intros m. unfold node_at. apply String.eqb_neq in Hp. by rewrite Hp. }
  set (targets := destroy_targets dir ("." :: ".." :: kids)).
  assert (Htargets : ∀ p, p ∈ targets ↔
            ∃ n, n ∈ kids ∧ p = dir +:+ "/" +:+ n).
  { intros p. subst targets. unfold destroy_targets.
    rewrite !filter_cons. cbn [starts_with].
    change (Ascii.eqb "." ".") with true.
    rewrite !decide_False by done.
    rewrite list_elem_of_fmap. split.
    - intros (n & -> & [Hdot Hn]%list_elem_of_filter).
      exists n. split; [done|].
      apply snprintf_path_fits. by apply Hfiles.
    - intros (n & Hn & ->). exists n. split.
      + symmetry. apply snprintf_path_fits. by apply Hfiles.
      + apply list_elem_of_filter. split; [by apply Hfiles|done]. }
  set (m1 := foldl unlink_fs (fs st) targets).
  assert (Hother1 : ∀ k, (∀ n, n ∈ kids → k ≠ key dir +:+ "/" +:+ n) →
                         m1 !! k = fs st !! k).
  { intros k Hout. subst m1. apply unlinks_other.
    intros p (n & Hn & ->)%Htargets.
    rewrite key_child by (by try apply Hplain). intros <-. by apply (Hout n). }
  assert (Hm1dir : node_at m1 dir = Some Dir).
  { rewrite Hnat. rewrite Hnat in Hd. unfold node in *.
    destruct (String.eqb (key dir) ""); [done|].
    rewrite Hother1; [done|]. intros n Hn Heq.
    apply (f_equal String.length) in Heq.
    rewrite !string_length_app in Heq. simpl in Heq. lia. }
  assert (Hm1gone : ∀ n, n ∈ kids → m1 !! (key dir +:+ "/" +:+ n) = None).
  { intros n Hn. destruct (Hfiles n Hn) as (_ & (c & Hc) & _).
    pose proof (Hplain n Hn) as Hpl.
    rewrite node_at_child in Hc by done.
    rewrite <- (key_child dir n) in * by done.
    subst m1. apply (unlinks_file _ _ _ c); try done.
    - apply Htargets. by exists n.
    - by destruct dir.
    - by apply key_child_ne. }
  assert (Hempty : ∀ m, m ⊆ m1 → dir_children m (key dir) = []).
  { intros m Hsub. destruct (dir_children m (key dir)) as [|n ns] eqn:Hc;
      [done|].
    assert (Hn : n ∈ dir_children m (key dir)) by (rewrite Hc; by left).
    apply dir_children_elem in Hn as ([v Hv] & Hne & Hsl).
    eapply lookup_weaken in Hv; [|exact Hsub].
    assert (Hn0 : n ∈ kids).
    { apply dir_children_elem. split; [|done]. exists v.
      eapply lookup_weaken; [exact Hv|]. subst m1. apply unlinks_subseteq. }
    by rewrite (Hm1gone n Hn0) in Hv. }
  assert (Hgone : ∀ m, m ⊆ m1 → ∀ n, n ∈ kids →
                       node_at m (dir +:+ "/" +:+ n) = None).
  { intros m Hsub n Hn. rewrite node_at_child by (by try apply Hplain).
    destruct (m !! (key dir +:+ "/" +:+ n)) as [v|] eqn:Hv; [|done].
    eapply lookup_weaken in Hv; [|exact Hsub].
    by rewrite (Hm1gone n Hn) in Hv. }
  destruct (destroy_loop_fs dir ("." :: ".." :: kids)
              (log (SysOpendir dir) st)) as (st1 & Hloop & Hmem1 & Hfs1).
  cbn [fs log] in Hfs1. fold targets in Hfs1. fold m1 in Hfs1.
  assert (Hmem0 : same_memory st (log (SysRmdir dir) (log (SysClosedir dir) st1))).
  { eapply same_memory_trans; [|eapply same_memory_trans; [exact Hmem1|]];
      by repeat split. }
  assert (Hrun : lib_destroy h st =
            (ok <- rmdir dir ;; if negb ok then eprint "rmdir" else ret tt)
              (log (SysClosedir dir) st1)).
  { unfold lib_destroy. unfold bind at 1. unfold deref_lib at 1.
    rewrite Hl. fold dir. unfold opendir. unfold bind at 1 2 3.
    unfold modify at 1, gets at 1. cbn [fs log id].
    rewrite Hd. unfold ret at 1. fold kids.
    unfold bind at 1. rewrite Hloop.
    unfold bind at 1. unfold closedir at 1, modify at 1. reflexivity. }
  rewrite Hrun. unfold rmdir. unfold bind at 1 2 3.
  unfold modify at 1, gets at 1. cbn [fs log id].
  rewrite Hfs1, Hm1dir, (Hempty m1) by done.
  destruct (String.eqb (key dir) "") eqn:Hk.
  - apply String.eqb_eq in Hk.
    exists (log (Stderr "rmdir") (log (SysRmdir dir) (log (SysClosedir dir) st1))).
    split; [reflexivity|]. cbn [fs log]. rewrite Hfs1.
    split; [by intros Hne|]. split; [by apply Hgone|].
    split; [intros k _ Hout; by apply Hother1|].
    eapply same_memory_trans; [exact Hmem0|]. by repeat split.
  - apply String.eqb_neq in Hk.
    exists (set_fs (delete (key dir) m1)
              (log (SysRmdir dir) (log (SysClosedir dir) st1))).
    split; [reflexivity|]. cbn [fs set_fs].
    split; [intros _; rewrite node_at_key by done; apply lookup_delete_eq|].
    split; [apply Hgone, delete_subseteq|].
    split; [intros k Hkne Hout; rewrite lookup_delete_ne by done;
            by apply Hother1|].
    eapply same_memory_trans; [exact Hmem0|]. by repeat split.
Qed.

(** X15: on a library whose directory holds regular files only, none of
    them with a name that starts with a dot, [lib_destroy] removes every
    file of the directory and then the directory itself, unless it is the
    root; it deletes nothing outside the directory and changes nothing in
    memory, so that afterwards the handle is still open but, the directory
    being gone, a lookup that misses its cache is fatal. *)
Theorem lib_destroy_removes_directory (h : lib_t) (st : state) (l : lib) :
  libs st !! h = Some l →
  path l ≠ "" →
  node_at (fs st) (path l) = Some Dir →
  (∀ n, n ∈ dir_children (fs st) (key (path l)) →
        starts_with "." n = false
        ∧ (∃ c, node_at (fs st) (path l +:+ "/" +:+ n) = Some (File c))
        ∧ String.length (path l) + 1 + String.length n < PATH_MAX) →
  ∃ st',
    lib_destroy h st = Some (tt, st')
    ∧ (key (path l) ≠ "" → node_at (fs st') (path l) = None)
    ∧ (∀ n, n ∈ dir_children (fs st) (key (path l)) →
            node_at (fs st') (path l +:+ "/" +:+ n) = None)
    ∧ (∀ k, k ≠ key (path l) →
            (∀ n, n ∈ dir_children (fs st) (key (path l)) →
                  k ≠ key (path l) +:+ "/" +:+ n) →
            fs st' !! k = fs st !! k)
    ∧ same_memory st st'
    ∧ (key (path l) ≠ "" →
       ∀ ident, first_match ident (units l) = None →
                lib_get h ident st' = None).
Proof.
  intros Hl Hp Hd Hfiles.
  destruct (lib_destroy_clears h st l Hl Hp Hd Hfiles)
    as (st' & Hrun & Hdir & Hgone & Hother & Hmem).
  exists st'. do 5 (split; [done|]).
  intros Hk ident Hm. destruct Hmem as (_ & _ & _ & Hlibs).
  unfold lib_get, lib_get_ctx.
  unfold bind at 1 2. unfold deref_lib at 1. rewrite Hlibs, Hl.
  unfold n_units. rewrite scan_units_first_match, Hm.
  apply String.eqb_neq in Hp. rewrite Hp.
  unfold opendir. unfold bind at 1 2 3. unfold modify at 1, gets at 1.
  cbn [fs log id]. rewrite (Hdir Hk). reflexivity.
Qed.

End DestroyAll.

Lemma lib_destroy_removes_directory_witness :
  let E := test_externals in
  ∃ st',
    lib_destroy 0 files_state = Some (tt, st')
    ∧ node_at (fs st') "/mylib" = None
    ∧ node_at (fs st') "/mylib/A" = None
    ∧ fs st' !! "/notes" = Some (File "keep")
    ∧ lib_get 0 "B" st' = None
    ∧ lib_get 0 "A" st' = Some (Some 3, st').
Proof.
  intros E.
  destruct (lib_destroy_removes_directory 0 files_state
              (Lib "/mylib" "MYLIB" [LibUnit 3 false]))
    as (st' & Hrun & Hdir & Hfiles & Hother & Hmem & Hget).
  - vm_compute. reflexivity.
  - done.
  - vm_compute. reflexivity.
  - intros n Hn. vm_compute in Hn.
    repeat (apply elem_of_cons in Hn as [->|Hn];
            [split; [reflexivity|split; [eexists; vm_compute; reflexivity
                                        |vm_compute; lia]]|]).
    by apply elem_of_nil in Hn.
  - exists st'. split; [exact Hrun|]. split; [by apply Hdir|].
    split; [|split; [|split]].
    + apply (Hfiles "A"). vm_compute. repeat constructor.
    + rewrite Hother; [vm_compute; reflexivity|done|].
      intros n Hn. vm_compute in Hn.
      repeat (apply elem_of_cons in Hn as [->|Hn]; [done|]).
      by apply elem_of_nil in Hn.
    + apply Hget; [done|]. vm_compute. reflexivity.
    + assert (Hl : libs st' !! 0 = Some (Lib "/mylib" "MYLIB" [LibUnit 3 false])).
      { destruct Hmem as (_ & _ & _ & ->). vm_compute. reflexivity. }
      apply (lib_get_cached 0 "A" st' _ 3 Hl). vm_compute. reflexivity.
Defined.

(** ** Lookups are stable *)

Section FindStable.
Context `{Externals}.

(** A probe loop that returns a library has built it with [lib_init] on the
    probed directory of a valid candidate, after [access] calls only. *)
Lemma probe_loop_found (nm : string) (paths : list (option string)) :
  ∀ st l st',
    probe_loop nm paths st = Some (Some l, st') →
    ∃ p s0, same_memory st s0 ∧ fs s0 = fs st
            ∧ valid_at (fs st) nm p = true
            ∧ lib_init nm (probe_dir nm p) s0 = Some (l, st').
Proof.
  induction paths as [|[p|] paths IH]; intros st l st'; cbn [probe_loop];
    try done.
  unfold bind at 1. rewrite lib_find_at_spec.
  destruct (valid_at (fs st) nm p) eqn:Hv.
  - unfold bind at 1.
    destruct (lib_init nm (probe_dir nm p) _) as [[l0 s1]|] eqn:Hinit; [|done].
    intros [= <- <-]. exists p. eexists. split; [apply same_memory_logs|].
    split; [reflexivity|]. split; [exact Hv|exact Hinit].
  - intros Hrun. apply IH in Hrun as (q & s0 & Hm & Hfs & Hv' & Hinit).
    exists q, s0.
    split; [eapply same_memory_trans; [apply same_memory_logs|exact Hm]|].
    split; [exact Hfs|]. split; [exact Hv'|exact Hinit].
Qed.

(** A library that [lib_init] has just registered is what [lib_find]
    returns for its name. *)
Lemma lib_init_then_find (nm nm' rpath : string) (verbose search : bool)
    (s0 st' : state) (l : lib_t) :
  wf s0 →
  lib_init nm rpath s0 = Some (l, st') →
  upcase_name nm' = upcase_name nm →
  wf st' ∧ registry st' = l :: registry s0
  ∧ (∃ p, libs st' !! l = Some (Lib p (upcase_name nm) []))
  ∧ lib_find nm' verbose search st' = Some (Some l, st').
Proof.
  intros Hwf Hinit Hup.
  destruct (lib_init_spec _ _ _ _ _ Hwf Hinit)
    as (Hwf' & Hr & _ & (p & Hlibs) & _).
  assert (Hl : libs st' !! l = Some (Lib p (upcase_name nm) []))
    by (rewrite Hlibs; apply lookup_insert_eq).
  split; [done|]. split; [done|]. split; [by exists p|].
  apply (lib_find_open_run nm' verbose search st' [] (registry s0) l _
           Hwf' Hr Hl).
  - by rewrite Hup.
  - intros h' l' Hh'. by apply elem_of_nil in Hh'.
Qed.

(** Every library that [lib_find] returns was either registered under the
    name, or has just been built by [lib_init] on a valid candidate. *)
Lemma lib_find_cases (nm : string) (verbose search : bool) (st st' : state)
    (h : lib_t) :
  wf st →
  lib_find nm verbose search st = Some (Some h, st') →
  (find_open st (upcase_name nm) (registry st) = Some h ∧ st' = st)
  ∨ (find_open st (upcase_name nm) (registry st) = None
     ∧ ∃ p s0, same_memory st s0 ∧ fs s0 = fs st
               ∧ valid_at (fs st) nm p = true
               ∧ lib_init nm (probe_dir nm p) s0 = Some (h, st')).
Proof.
  intros Hwf Hrun.
  unfold lib_find in Hrun. unfold bind at 1 2 3 in Hrun.
  unfold gets at 1 2 in Hrun. rewrite lib_find_scan in Hrun by done.
  destruct (find_open st (upcase_name nm) (registry st)) as [h0|] eqn:Hopen.
  { injection Hrun as <- <-. by left. }
  right. split; [done|].
  unfold bind at 1 in Hrun. unfold gets at 1 in Hrun.
  rewrite search_paths_spec in Hrun. unfold bind at 1 in Hrun.
  destruct (probe_loop nm _ st) as [[[l|] st1]|] eqn:Hprobe; [| |done].
  - injection Hrun as <- <-. by apply probe_loop_found in Hprobe.
  - destruct verbose; [|done].
    unfold bind at 1 2, eprint at 1, modify at 1 in Hrun.
    match type of Hrun with
    | context [report_loop ?ps ?s] =>
        destruct (report_loop_logs ps s) as (es & Hrep);
        rewrite Hrep in Hrun
    end.
    done.
Qed.

(** X16: whatever way [lib_find] has come to return a library, from the
    registry or from one of the candidate directories, the handle is
    registered under the canonical name asked for, and asking again, under
    any spelling that differs in letter case only and with any flags,
    returns the same handle and changes nothing: no system call is made
    and no second handle is built. *)
Theorem lib_find_stable (nm nm' : string)
    (verbose search verbose' search' : bool) (st st' : state) (h : lib_t) :
  wf st →
  lib_find nm verbose search st = Some (Some h, st') →
  string_map tolower nm' = string_map tolower nm →
  wf st'
  ∧ (h ∈ registry st')
  ∧ (∃ l, libs st' !! h = Some l ∧ name l = upcase_name nm)
  ∧ lib_find nm' verbose' search' st' = Some (Some h, st').
Proof.
  intros Hwf Hrun Hcase.
  pose proof (upcase_name_case_insensitive_helper _ _ Hcase) as Hup.
  apply lib_find_cases in Hrun
    as [[Hopen ->]|(_ & p & s0 & Hm & _ & _ & Hinit)]; [| |done].
  - destruct (find_open_Some _ _ _ _ Hopen) as [Hin Hname].
    split; [done|]. split; [done|]. split.
    + destruct (libs st !! h) as [l|]; [|done].
      exists l. split; [done|]. by injection Hname.
    + unfold lib_find. unfold bind at 1 2 3. unfold gets at 1 2.
      rewrite lib_find_scan by done. by rewrite Hup, Hopen.
  - destruct (lib_init_then_find nm nm' (probe_dir nm p) verbose' search'
                s0 st' h)
      as (Hwf' & Hr & (q & Hl) & Hfind); try done.
    { by eapply same_memory_wf. }
    split; [done|]. split; [rewrite Hr; by left|].
    split; [|done]. by eexists.
Qed.

End FindStable.

Lemma lib_find_stable_witness :
  let E := test_externals in
  ∃ h st',
    lib_find "Foo" true true libpath_state = Some (Some h, st')
    ∧ lib_find "FOO" false false st' = Some (Some h, st').
Proof.
  intros E. eexists _, _. split; [vm_compute; reflexivity|].
  refine (proj2 (proj2 (proj2
            (lib_find_stable "Foo" "FOO" true true false false
               libpath_state _ _ _ _ _)))).
  - apply wfb_wf. vm_compute. reflexivity.
  - vm_compute. reflexivity.
  - reflexivity.
Defined.

(** ** Opening and releasing *)

Section OpenRelease.
Context `{Externals}.

(** Releasing the handle that [lib_init] has just built gives back the
    two blocks and the old head of the list. *)
Lemma lib_init_free (nm rpath : string) (st st1 s : state) (h : lib_t) :
  lib_init nm rpath st = Some (h, st1) →
  same_memory st1 s →
  lib_free h s =
    Some (tt, State (work st) (loaded st) (nodes st) (libs st)
                    (fs s) (libpath_env s) (io s)).
Proof.
  rewrite lib_init_run. intros [= <- <-] (Hw & Hld & Hn & Hlibs).
  cbn [work loaded nodes libs] in Hw, Hld, Hn, Hlibs.
  set (l := fresh (dom (libs st))) in *.
  set (el := fresh (dom (nodes st))) in *.
  assert (Hfl : libs st !! l = None) by (apply not_elem_of_dom, is_fresh).
  assert (Hfe : nodes st !! el = None) by (apply not_elem_of_dom, is_fresh).
  unfold lib_free. unfold bind at 1 2. unfold gets at 1 2.
  rewrite Hld, Hn, map_size_insert_None by done.
  cbn [lib_free_loop]. unfold bind at 1 2. unfold deref_node at 1.
  rewrite Hn, lookup_insert_eq. cbn [item next].
  rewrite decide_True by done.
  unfold bind at 1. unfold modify at 1 2. cbn [nodes set_loaded].
  unfold bind at 1. unfold deref_lib at 1. cbn [libs set_nodes set_loaded].
  rewrite Hlibs, lookup_insert_eq. unfold modify.
  cbn [libs set_nodes set_loaded set_libs nodes work fs libpath_env io loaded].
  rewrite Hn, Hlibs, !delete_insert_eq, !delete_id by done.
  rewrite <- Hw. by destruct s.
Qed.

(** X17: a handle that has just been opened can be released without a
    trace in memory.  [lib_free] on the handle that [lib_tmp] or [lib_new]
    has returned, or that [lib_find] has built from a directory, returns,
    and the work pointer, the list head, the list nodes and the library
    blocks are then exactly what they were before the handle was opened;
    the directory and the marker that [lib_new] has written stay on
    disk. *)
Theorem lib_free_undoes_open (st : state) :
  (∃ h st1, lib_tmp st = Some (h, st1)
            ∧ lib_free h st1 = Some (tt, log (SysRealpath "") st))
  ∧ (∀ nm h st1,
       lib_new nm st = Some (Some h, st1) →
       ∃ st2, lib_free h st1 = Some (tt, st2)
              ∧ same_memory st st2 ∧ fs st2 = fs st1 ∧ io st2 = io st1)
  ∧ (∀ nm verbose search h st1,
       wf st → upcase_name nm ∉ reg_names st →
       lib_find nm verbose search st = Some (Some h, st1) →
       ∃ st2, lib_free h st1 = Some (tt, st2)
              ∧ same_memory st st2 ∧ fs st2 = fs st1 ∧ io st2 = io st1).
Proof.
  split; [|split].
  - pose proof (lib_init_run "work" "" st) as Hinit. cbn zeta in Hinit.
    eexists _, _. split; [exact Hinit|].
    rewrite (lib_init_free _ _ st _ _ _ Hinit (same_memory_refl _)).
    reflexivity.
  - intros nm h st1 Hnew.
    apply lib_new_returns in Hnew
      as (s1 & dir & Hinit & _ & _ & _ & _ & _ & _ & ->).
    rewrite (lib_init_free _ _ _ _ _ _ Hinit (same_memory_write_marker dir s1)).
    eexists. split; [reflexivity|]. by repeat split.
  - intros nm verbose search h st1 Hwf Hnew Hrun.
    apply lib_find_cases in Hrun
      as [[Hopen _]|(_ & p & s0 & Hm & _ & _ & Hinit)]; [| |done].
    { by rewrite find_open_notin in Hopen. }
    rewrite (lib_init_free _ _ _ _ _ _ Hinit (same_memory_refl _)).
    eexists. split; [reflexivity|].
    destruct Hm as (? & ? & ? & ?). by repeat split.
Qed.

(** X18: [lib_tmp] returns on every well-formed state, with a handle that
    was not allocated, put at the head of the registry under the name
    WORK with an empty cache; no file is touched.  [realpath] of the empty
    name fails without writing, so the path of the handle is what
    [xmalloc] had left in the block.  When that is the empty string,
    [lib_load_all] does nothing and every lookup returns nothing without
    a system call; when it is a string that leads to no directory,
    [lib_load_all] and every lookup are fatal.  Either way [lib_find] of
    "work" returns the handle. *)
Theorem lib_tmp_is_temporary (st : state) :
  wf st →
  ∃ h st',
    lib_tmp st = Some (h, st')
    ∧ wf st'
    ∧ libs st !! h = None
    ∧ libs st' = <[h := Lib (uninit_path st) (upcase_name "work") []]>
                   (libs st)
    ∧ registry st' = h :: registry st
    ∧ work st' = work st ∧ fs st' = fs st
    ∧ io st' = io st ++ [SysRealpath ""]
    ∧ (uninit_path st = "" →
       lib_load_all h st' = Some (tt, st')
       ∧ ∀ ident, lib_get h ident st' = Some (None, st'))
    ∧ (uninit_path st ≠ "" →
       node_at (fs st) (uninit_path st) ≠ Some Dir →
       lib_load_all h st' = None
       ∧ ∀ ident, lib_get h ident st' = None)
    ∧ (∀ nm verbose search,
         string_map tolower nm = "work" →
         lib_find nm verbose search st' = Some (Some h, st')).
Proof.
  intros Hwf.
  pose proof (lib_init_run "work" "" st) as Hinit. cbn zeta in Hinit.
  change (path_after_init st "") with (uninit_path st) in Hinit.
  match type of Hinit with _ = Some (?a, ?b) =>
    set (h := a) in *; set (st' := b) in * end.
  destruct (lib_init_spec _ _ _ _ _ Hwf Hinit)
    as (Hwf' & Hr & Hfresh & _ & Hw & Hfs).
  assert (Hl : libs st' !! h
               = Some (Lib (uninit_path st) (upcase_name "work") []))
    by apply lookup_insert_eq.
  exists h, st'. split; [exact Hinit|]. split; [done|]. split; [done|].
  split; [done|]. split; [done|]. split; [done|]. split; [done|].
  split; [done|]. split; [|split].
  - intros Hempty. split.
    + unfold lib_load_all. unfold bind at 1. unfold deref_lib at 1.
      rewrite Hl. cbn [path]. by rewrite Hempty.
    + intros ident. by rewrite (lib_get_temporary h ident st' _ Hl).
  - intros Hjunk Hnodir. apply String.eqb_neq in Hjunk.
    assert (Hopen : opendir (uninit_path st) st'
                    = Some (None, log (SysOpendir (uninit_path st)) st')).
    { unfold opendir. unfold bind at 1 2. unfold modify at 1, gets at 1.
      cbn [fs log id]. change (fs st') with (fs st).
      by destruct (node_at (fs st) (uninit_path st)) as [[?|]|]. }
    split.
    + unfold lib_load_all. unfold bind at 1. unfold deref_lib at 1.
      rewrite Hl. cbn [path]. rewrite Hjunk.
      unfold bind at 1. by rewrite Hopen.
    + intros ident. unfold lib_get, lib_get_ctx.
      unfold bind at 1 2. unfold deref_lib at 1. rewrite Hl.
      cbn [path units n_units length scan_units]. rewrite Hjunk.
      unfold bind at 1. by rewrite Hopen.
  - intros nm verbose search Hcase.
    apply (lib_init_then_find "work" nm "" verbose search st st' h Hwf Hinit).
    by apply upcase_name_case_insensitive_helper.
Qed.

End OpenRelease.

Lemma lib_free_undoes_open_witness :
  let E := test_externals in
  ∃ h st1 st2 h' st1' st2',
    lib_new "mylib" init_state = Some (Some h, st1)
    ∧ lib_free h st1 = Some (tt, st2)
    ∧ same_memory init_state st2 ∧ fs st2 = fs st1 ∧ io st2 = io st1
    ∧ lib_find "foo" true true libpath_state = Some (Some h', st1')
    ∧ lib_free h' st1' = Some (tt, st2')
    ∧ same_memory libpath_state st2'.
Proof.
  intros E.
  edestruct (proj1 (proj2 (lib_free_undoes_open init_state)) "mylib" 0)
    as (st2 & Hfree & Hmem & Hfs & Hio); [vm_compute; reflexivity|].
  edestruct (proj2 (proj2 (lib_free_undoes_open libpath_state))
               "foo" true true 0)
    as (st2' & Hfree' & Hmem' & _);
    [apply wfb_wf; vm_compute; reflexivity
    |vm_compute; apply not_elem_of_nil
    |vm_compute; reflexivity|].
  eexists 0, _, st2, 0, _, st2'.
  split; [vm_compute; reflexivity|]. split; [exact Hfree|].
  split; [exact Hmem|]. split; [exact Hfs|]. split; [exact Hio|].
  split; [vm_compute; reflexivity|]. split; [exact Hfree'|exact Hmem'].
Defined.

Lemma lib_tmp_is_temporary_witness :
  (∃ h st',
     @lib_tmp test_externals init_state = Some (h, st')
     ∧ libs st' !! h = Some (Lib "" "WORK" [])
     ∧ @lib_load_all test_externals h st' = Some (tt, st')
     ∧ @lib_get test_externals h "A" st' = Some (None, st'))
  ∧ (∃ h st',
       @lib_tmp junk_externals init_state = Some (h, st')
       ∧ libs st' !! h = Some (Lib "junk" "WORK" [])
       ∧ @lib_load_all junk_externals h st' = None
       ∧ @lib_get junk_externals h "A" st' = None).
Proof.
  split.
  - destruct (@lib_tmp_is_temporary test_externals init_state wf_init_state)
      as (h & st' & Hrun & _ & _ & Hlibs & _ & _ & _ & _ & Hempty & _).
    destruct (Hempty eq_refl) as [Hload Hget].
    exists h, st'. split; [exact Hrun|]. split; [|split; [exact Hload|]].
    + rewrite Hlibs. apply lookup_insert_eq.
    + apply Hget.
  - destruct (@lib_tmp_is_temporary junk_externals init_state wf_init_state)
      as (h & st' & Hrun & _ & _ & Hlibs & _ & _ & _ & _ & _ & Hjunk & _).
    destruct Hjunk as [Hload Hget]; [done|vm_compute; discriminate|].
    exists h, st'. split; [exact Hrun|]. split; [|split; [exact Hload|]].
    + rewrite Hlibs. apply lookup_insert_eq.
    + apply Hget.
Defined.

(** ** Loading a whole directory *)

Section LoadAll.
Context `{Externals}.

Lemma load_all_loop_complete (h : lib_t) (dir : string)
    (entries : list string) :
  ∀ st l,
    libs st !! h = Some l → path l = dir → dir ≠ "" →
    node_at (fs st) dir = Some Dir →
    (∀ n, n ∈ entries → unit_file n = true →
          n ≠ "" ∧ has_slash n = false
          ∧ (∃ c, node_at (fs st) (dir +:+ "/" +:+ n) = Some (File c))
          ∧ String.length dir + 1 + String.length n < PATH_MAX) →
    n_units l + length (filter (λ n, unit_file n = true) entries)
      ≤ MAX_UNITS →
    ∃ st' extra,
      load_all_loop h entries st = Some (tt, st')
      ∧ libs st' !! h = Some (Lib (path l) (name l) (units l ++ extra))
      ∧ fs st' = fs st
      ∧ length extra ≤ length (filter (λ n, unit_file n = true) entries)
      ∧ ∀ n c, n ∈ entries → unit_file n = true →
               node_at (fs st) (dir +:+ "/" +:+ n) = Some (File c) →
               tree_ident (tree_read c) = n →
               is_Some (first_match n (units l ++ extra)).
Proof.
  induction entries as [|e entries IH]; intros st l Hl Hp Hne Hd Hfiles Hb;
    cbn [load_all_loop].
  - exists st, []. split; [done|]. rewrite app_nil_r.
    split; [by destruct l|]. split; [done|]. split; [done|].
    intros n c Hn. by apply elem_of_nil in Hn.
  - change (negb (starts_with "." e) && negb (starts_with "_" e))
      with (unit_file e).
    destruct (unit_file e) eqn:He.
    + rewrite filter_cons_True in Hb by done. cbn [length] in Hb.
      rewrite filter_cons_True by done. cbn [length].
      destruct (Hfiles e) as (Hene & Hesl & (c & Hc) & Hfit); [by left|done|].
      destruct (first_match e (units l)) as [t|] eqn:Hm.
      * unfold bind at 1 2. unfold ident_new.
        rewrite (lib_get_cached h e st l t Hl Hm). unfold ret at 1.
        destruct (IH st l Hl Hp Hne Hd) as (st' & extra & Hrun & Hl' & Hfs & Hlen & Hall).
        { intros n Hn. apply Hfiles. by right. }
        { lia. }
        exists st', extra. split; [done|]. split; [done|]. split; [done|].
        split; [lia|].
        intros n c' [->|Hn]%elem_of_cons Hu Hc' Hid.
        -- rewrite first_match_app, Hm. by eexists.
        -- by apply (Hall n c').
      * unfold bind at 1 2. unfold ident_new.
        subst dir.
        rewrite (lib_get_load_run h e st l c) by done.
        rewrite (proj2 (Nat.ltb_lt _ _)) by lia. unfold ret at 1.
        match goal with
        | |- context [load_all_loop h entries ?s] => set (s1 := s)
        end.
        set (l1 := Lib (path l) (name l)
                       (units l ++ [LibUnit (tree_read c) false])).
        destruct (IH s1 l1) as (st' & extra & Hrun & Hl' & Hfs & Hlen & Hall);
          try done.
        { apply lookup_insert_eq. }
        { intros n Hn. apply Hfiles. by right. }
        { unfold n_units, l1. cbn [units]. rewrite length_app. cbn [length].
          unfold n_units in Hb. lia. }
        exists st', (LibUnit (tree_read c) false :: extra).
        split; [done|]. split.
        { rewrite Hl'. unfold l1. cbn [path name units].
          by rewrite <- app_assoc. }
        split; [done|]. split; [cbn [length]; lia|].
        intros n c' [->|Hn]%elem_of_cons Hu Hc' Hid.
        -- rewrite first_match_app, Hm. cbn [first_match top].
           rewrite Hc in Hc'. injection Hc' as <-.
           rewrite decide_True by done. by eexists.
        -- specialize (Hall n c' Hn Hu Hc' Hid). unfold l1 in Hall.
           cbn [units] in Hall. by rewrite <- app_assoc in Hall.
    + rewrite filter_cons_False in Hb by (by rewrite He).
      rewrite filter_cons_False by (by rewrite He).
      unfold bind at 1. unfold ret at 1.
      destruct (IH st l Hl Hp Hne Hd) as (st' & extra & Hrun & Hl' & Hfs & Hlen & Hall).
      { intros n Hn. apply Hfiles. by right. }
      { done. }
      exists st', extra. split; [done|]. split; [done|]. split; [done|].
      split; [done|].
      intros n c' [->|Hn]%elem_of_cons Hu Hc' Hid; [congruence|].
      by apply (Hall n c').
Qed.

(** X19: [lib_load_all] on a library with a directory reads the directory
    and looks up every name in it that starts with neither a dot nor
    an underscore.  When these names are regular files whose paths fit the
    buffer, and the cache has room for them, it returns with the file
    system unchanged; the cache has grown by at most one entry for each
    such name, and every file whose unit reports the name of the file is
    answered from the cache afterwards, without a system call. *)
Theorem lib_load_all_complete (h : lib_t) (st : state) (l : lib) :
  libs st !! h = Some l →
  path l ≠ "" →
  node_at (fs st) (path l) = Some Dir →
  (∀ n, n ∈ dir_children (fs st) (key (path l)) → unit_file n = true →
        (∃ c, node_at (fs st) (path l +:+ "/" +:+ n) = Some (File c))
        ∧ String.length (path l) + 1 + String.length n < PATH_MAX) →
  n_units l + length (filter (λ n, unit_file n = true)
                        (dir_children (fs st) (key (path l)))) ≤ MAX_UNITS →
  ∃ st',
    lib_load_all h st = Some (tt, st')
    ∧ fs st' = fs st
    ∧ length (cache st' h)
        ≤ n_units l + length (filter (λ n, unit_file n = true)
                                (dir_children (fs st) (key (path l))))
    ∧ ∀ n c, n ∈ dir_children (fs st) (key (path l)) → unit_file n = true →
             node_at (fs st) (path l +:+ "/" +:+ n) = Some (File c) →
             tree_ident (tree_read c) = n →
             ∃ t, first_match n (cache st' h) = Some t
                  ∧ lib_get h n st' = Some (Some t, st').
Proof.
  intros Hl Hp Hd Hfiles Hb.
  set (entries := "." :: ".." :: dir_children (fs st) (key (path l))).
  assert (Hfilter : filter (λ n, unit_file n = true) entries
                    = filter (λ n, unit_file n = true)
                        (dir_children (fs st) (key (path l)))).
  { unfold entries. by rewrite !filter_cons_False by done. }
  destruct (load_all_loop_complete h (path l) entries
              (log (SysOpendir (path l)) st) l)
    as (s1 & extra & Hrun & Hl1 & Hfs1 & Hlen & Hall); try done.
  { intros n Hn Hu. unfold entries in Hn.
    apply elem_of_cons in Hn as [->|Hn]; [done|].
    apply elem_of_cons in Hn as [->|Hn]; [done|].
    destruct (Hfiles n Hn Hu) as [Hc Hfit].
    apply dir_children_elem in Hn as (_ & ? & ?). done. }
  exists (log (SysClosedir (path l)) s1).
  assert (Hcache : cache (log (SysClosedir (path l)) s1) h = units l ++ extra).
  { unfold cache. cbn [libs log]. by rewrite Hl1. }
  split; [|split; [done|split]].
  - unfold lib_load_all. unfold bind at 1. unfold deref_lib at 1.
    rewrite Hl. apply String.eqb_neq in Hp. rewrite Hp.
    unfold opendir. unfold bind at 1 2 3. unfold modify at 1, gets at 1.
    cbn [fs log id]. rewrite Hd. unfold ret at 1.
    fold entries. unfold bind at 1. rewrite Hrun. reflexivity.
  - rewrite Hcache, length_app, <- Hfilter. unfold n_units. lia.
  - intros n c Hn Hu Hc Hid.
    destruct (Hall n c) as [t Ht]; try done.
    { unfold entries. by do 2 (apply elem_of_cons; right). }
    exists t. rewrite Hcache. split; [done|].
    apply (lib_get_cached h n _ (Lib (path l) (name l) (units l ++ extra)) t);
      [exact Hl1|exact Ht].
Qed.

End LoadAll.

Lemma lib_load_all_complete_witness :
  let E := test_externals in
  ∃ st',
    lib_load_all 0 disk_state = Some (tt, st')
    ∧ fs st' = fs disk_state
    ∧ length (cache st' 0) ≤ 1
    ∧ lib_get 0 "A" st' = Some (Some 0, st').
Proof.
  intros E.
  destruct (lib_load_all_complete 0 disk_state (Lib "/mylib" "MYLIB" []))
    as (st' & Hrun & Hfs & Hlen & Hall).
  - vm_compute. reflexivity.
  - done.
  - vm_compute. reflexivity.
  - intros n Hn Hu. vm_compute in Hn.
    repeat (apply elem_of_cons in Hn as [->|Hn];
            [first [discriminate Hu
                   |split; [eexists; vm_compute; reflexivity
                           |vm_compute; lia]]|]).
    by apply elem_of_nil in Hn.
  - vm_compute. lia.
  - exists st'. split; [exact Hrun|]. split; [exact Hfs|].
    split; [exact Hlen|].
    destruct (Hall "A" "unit") as (t & Ht & Hget).
    + vm_compute. repeat constructor.
    + reflexivity.
    + vm_compute. reflexivity.
    + reflexivity.
    + assert (Hrun' : lib_load_all 0 disk_state = Some (tt, st')) by exact Hrun.
      vm_compute in Hrun'. injection Hrun' as <-.
      vm_compute in Ht. injection Ht as <-. exact Hget.
Defined.

(** ** Creating and destroying *)

Section CreateDestroy.
Context `{Externals}.

(** X20: [lib_destroy] undoes on disk what [lib_new] has done.  When
    [lib_new] has returned a library for a name whose resolved name is
    short enough for its marker to fit the path buffer, under which
    nothing was stored before, [lib_destroy] on the handle returns and the
    file system is then exactly what it was before [lib_new]; the handle
    stays open. *)
Theorem lib_new_destroy_restores (nm : string) (st st1 : state) (h : lib_t) :
  lib_new nm st = Some (Some h, st1) →
  String.length (resolved nm) + 9 < PATH_MAX →
  dir_children (fs st) (key nm) = [] →
  ∃ st2,
    lib_destroy h st1 = Some (tt, st2)
    ∧ fs st2 = fs st
    ∧ same_memory st1 st2.
Proof.
  intros Hnew Hlen Hempty.
  destruct (lib_new_returns _ _ _ _ Hnew)
    as (s0 & dir0 & _ & _ & Hdir0 & _ & Hex & Hmk & Hw0 & _).
  destruct (new_name_free nm st Hex Hmk) as (Hne & Hk & Hres & Hnone).
  assert (Hd0 : dir0 = key nm).
  { rewrite Hdir0, path_after_init_resolved, Hres; [done| |lia].
    rewrite node_at_key by done. cbn [fs after_mkdir set_fs].
    rewrite lookup_insert_eq. by eexists. }
  assert (Hallow : fopen_denied (key nm +:+ "/_NVC_LIB") = false).
  { apply can_write_allowed in Hw0.
    rewrite Hd0, marker_path_fits in Hw0; [done|]. rewrite <- Hres. lia. }
  assert (Hnokid : ∀ n, ¬ (n ∈ dir_children (fs st) (key nm)))
    by (intros n; rewrite Hempty; apply not_elem_of_nil).
  assert (Hfree : fs st !! (key nm +:+ "/_NVC_LIB") = None).
  { destruct (fs st !! (key nm +:+ "/_NVC_LIB")) as [v|] eqn:Hv; [|done].
    destruct (Hnokid "_NVC_LIB"). apply dir_children_elem.
    split; [by exists v|done]. }
  destruct (lib_new_marker_run nm st Hex Hmk Hfree Hallow Hlen)
    as (l & s1 & Hinit & Hl0 & Hfs1 & Hkm & Hrun).
  rewrite Hrun in Hnew. injection Hnew as -> <-.
  rewrite Hres in Hlen.
  set (m1 := fs (write_marker (key nm) s1)).
  assert (Hm1 : ∀ k, m1 !! k =
            if decide (k = key nm +:+ "/_NVC_LIB")
            then Some (File (PACKAGE_STRING +:+ newline))
            else if decide (k = key nm) then Some Dir else fs st !! k).
  { intros k. subst m1. cbn [fs write_marker set_fs]. rewrite Hkm, Hfs1.
    destruct (decide (k = key nm +:+ "/_NVC_LIB")) as [->|Hk1].
    - by rewrite lookup_insert_eq.
    - rewrite !lookup_insert_ne by done.
      destruct (decide (k = key nm)) as [->|Hk2].
      + by rewrite lookup_insert_eq.
      + by rewrite lookup_insert_ne. }
  assert (Hmne : key nm +:+ "/_NVC_LIB" ≠ key nm).
  { intros Heq. apply (f_equal String.length) in Heq.
    rewrite string_length_app in Heq. simpl in Heq. lia. }
  assert (Hkk : key (key nm) = key nm) by by apply key_key.
  assert (Hmarker : "_NVC_LIB" ∈ dir_children m1 (key nm)).
  { apply dir_children_elem. split; [|done].
    rewrite Hm1, decide_True by done. by eexists. }
  assert (Hkids : ∀ n, n ∈ dir_children m1 (key nm) → n = "_NVC_LIB").
  { intros n Hn. apply dir_children_elem in Hn as ([v Hv] & Hn1 & Hn2).
    rewrite Hm1 in Hv.
    destruct (decide (key nm +:+ "/" +:+ n = key nm +:+ "/_NVC_LIB"))
      as [Heq|_].
    { apply string_app_inj in Heq. by injection Heq. }
    destruct (decide (key nm +:+ "/" +:+ n = key nm)) as [Heq|_].
    { apply (f_equal String.length) in Heq.
      rewrite !string_length_app in Heq. simpl in Heq. lia. }
    destruct (Hnokid n). apply dir_children_elem. split; [by exists v|done]. }
  destruct (lib_destroy_clears h (write_marker (key nm) s1)
              (Lib (key nm) (upcase_name nm) []))
    as (st2 & Hd & Hgone_dir & Hgone & Hother & Hmem).
  - exact Hl0.
  - cbn [path]. exact Hk.
  - cbn [path]. fold m1. rewrite node_at_key by (by rewrite ?Hkk).
    by rewrite Hkk, Hm1, decide_False, decide_True.
  - cbn [path]. fold m1. rewrite Hkk. intros n Hn. rewrite (Hkids n Hn).
    split; [done|]. split.
    + rewrite node_at_child, Hkk, Hm1, decide_True by done. by eexists.
    + simpl. lia.
  - cbn [path] in Hgone_dir, Hgone, Hother. fold m1 in Hgone, Hother.
    rewrite Hkk in Hgone_dir, Hgone, Hother. specialize (Hgone_dir Hk).
    rewrite node_at_key in Hgone_dir by (by rewrite ?Hkk).
    rewrite Hkk in Hgone_dir.
    exists st2. split; [done|]. split; [|done].
    apply map_eq. intros k.
    destruct (decide (k = key nm)) as [->|Hkn]; [by rewrite Hgone_dir, Hnone|].
    destruct (decide (k = key nm +:+ "/_NVC_LIB")) as [->|Hk2].
    + pose proof (Hgone "_NVC_LIB" Hmarker) as Hg.
      rewrite node_at_child, Hkk in Hg by done.
      transitivity (@None fnode); [exact Hg|]. by rewrite Hfree.
    + rewrite Hother; [|done|].
      * by rewrite Hm1, !decide_False.
      * intros n Hn ->. apply Hkids in Hn as ->. done.
Qed.

End CreateDestroy.

Lemma lib_new_destroy_restores_witness :
  let E := test_externals in
  ∃ h st1 st2,
    lib_new "lib2" open_disk_state = Some (Some h, st1)
    ∧ node_at (fs st1) "lib2/_NVC_LIB" = Some (File ("nvc 0.1" +:+ newline))
    ∧ lib_destroy h st1 = Some (tt, st2)
    ∧ fs st2 = fs open_disk_state
    ∧ same_memory st1 st2.
Proof.
  intros E.
  destruct (lib_new "lib2" open_disk_state) as [[[h|] st1]|] eqn:Hnew;
    try (vm_compute in Hnew; discriminate).
  edestruct (lib_new_destroy_restores "lib2" open_disk_state)
    as (st2 & Hd & Hfs & Hmem).
  - exact Hnew.
  - vm_compute. lia.
  - vm_compute. reflexivity.
  - exists h, st1, st2. split; [done|]. split; [|done].
    vm_compute in Hnew. injection Hnew as <- <-. vm_compute. reflexivity.
Defined.
